(** * Aeronir: tile compositing and YOLO projection (server.js)

    A shallow embedding of the geodetic core of [server.js] (and of its
    authenticated twin, which repeats the same functions verbatim):
    [latLngToTile], [latLngToGlobalPixel], [getTilesForBounds],
    [downloadTile], [createCompositeImage], [calculateYoloForComposite]
    and the [POST /api/boxes] handler.

    Numbers.  JavaScript numbers that hold coordinates are modelled as
    real numbers with exact arithmetic ([R]); numbers that hold tile
    indices, zoom levels and pixel sizes are integers ([Z]) and are
    injected into [R] with [IZR] where the source mixes them.  Rounding
    error, overflow and NaN are outside this model, with two exceptions
    that the part [The engine as it runs] adds: the loop counters of the
    resolver, which are doubles and stop counting at 2^53, and the
    quotients of the projector, which are infinite or NaN when the
    composite has no width or no height.

    Effects.  The network, the image library and the file system are
    an explicit environment of outcomes; [try]/[catch] is an error
    monad. *)

From Stdlib Require Import Reals Lra Lia ZArith List String Bool.
From Stdlib Require Import DecimalString FinFun.
Import ListNotations.

Local Open Scope R_scope.

(** ** The [Math] functions the source calls *)

Module JsMath.

Definition floor (v : R) : Z := Zfloor v.

  (** [Math.round]: nearest integer, halves go up. *)
Definition round (v : R) : Z := Zfloor (v + / 2).

  (** [Math.pow(2, zoom)] for an integer zoom. *)
Definition pow2 (zoom : Z) : R := powerRZ 2 zoom.

Definition asinh (v : R) : R := arcsinh v.

Definition abs (v : R) : R := Rabs v.

End JsMath.

(** ** Data *)

Module Bounds.
Record t : Type := mk { south : R; west : R; north : R; east : R }.

  (** The same box with its latitudes exchanged. *)
Definition swapLat (b : t) : t := mk (north b) (west b) (south b) (east b).

  (** The same box with its longitudes exchanged. *)
Definition swapLng (b : t) : t := mk (south b) (east b) (north b) (west b).
End Bounds.

Module Tile.
Record t : Type := mk { x : Z; y : Z; z : Z }.
End Tile.

Module Pixel.
Record t : Type := mk { globalX : R; globalY : R }.
End Pixel.

Module Grid.
Record t : Type := mk {
  tiles : list Tile.t;
  gridWidth : Z;
  gridHeight : Z;
  minX : Z;
  minY : Z;
  maxX : Z;
  maxY : Z
}.
End Grid.

Module PixelRect.
Record t : Type := mk { x1 : Z; y1 : Z; x2 : Z; y2 : Z }.
End PixelRect.

Module Yolo.
Record t : Type := mk {
  x_center : R;
  y_center : R;
  width : R;
  height : R;
  pixel : PixelRect.t
}.
End Yolo.

(** ** Coordinate transform *)

Definition latLngToTile (lat lng : R) (zoom : Z) : Tile.t :=
  let n := JsMath.pow2 zoom in
  let x := JsMath.floor ((lng + 180) / 360 * n) in
  let latRad := lat * PI / 180 in
  let y := JsMath.floor ((1 - JsMath.asinh (tan latRad) / PI) / 2 * n) in
  Tile.mk x y zoom.

Definition latLngToGlobalPixel (lat lng : R) (zoom : Z) (tileSize : Z) : Pixel.t :=
  let n := JsMath.pow2 zoom in
  let globalX := (lng + 180) / 360 * n * IZR tileSize in
  let latRad := lat * PI / 180 in
  let globalY := (1 - JsMath.asinh (tan latRad) / PI) / 2 * n * IZR tileSize in
  Pixel.mk globalX globalY.

(** ** Tile grid resolver *)

(** [for (let i = lo; i <= hi; i++) body]: the loop state is threaded
    through [body]; [count] is the number of iterations left.  This is
    the loop with a counter that counts exactly; [for_fuel] below runs
    it on a double. *)
Fixpoint for_steps {S : Type} (count : nat) (i : Z) (body : Z -> S -> S) (s : S) : S :=
  match count with
  | O => s
  | Datatypes.S k => for_steps k (i + 1)%Z body (body i s)
  end.

Definition for_le {S : Type} (lo hi : Z) (body : Z -> S -> S) (s : S) : S :=
  for_steps (Z.to_nat (hi - lo + 1)) lo body s.

(** The grid that the resolver returns when its loops end with exact
    counters; [runGetTilesForBounds] below runs them on doubles. *)
Definition getTilesForBounds (bounds : Bounds.t) (zoom : Z) : Grid.t :=
  let swTile := latLngToTile (Bounds.south bounds) (Bounds.west bounds) zoom in
  let neTile := latLngToTile (Bounds.north bounds) (Bounds.east bounds) zoom in
  let minX := Z.min (Tile.x swTile) (Tile.x neTile) in
  let maxX := Z.max (Tile.x swTile) (Tile.x neTile) in
  let minY := Z.min (Tile.y swTile) (Tile.y neTile) in
  let maxY := Z.max (Tile.y swTile) (Tile.y neTile) in
  let tiles :=
    for_le minX maxX (fun x tiles =>
      for_le minY maxY (fun y tiles => tiles ++ [Tile.mk x y zoom]) tiles) [] in
  Grid.mk tiles (maxX - minX + 1) (maxY - minY + 1) minX minY maxX maxY.

(** ** Annotation projector *)

(** The annotation on a composite that has a width and a height;
    [calculateYoloForCompositeNumbers] below has the quotients by
    zero. *)
Definition calculateYoloForComposite
    (bounds : Bounds.t) (tileGrid : Grid.t) (zoom : Z) (tileSize : Z) : Yolo.t :=
  let minX := Grid.minX tileGrid in
  let minY := Grid.minY tileGrid in
  let compositeWidth := IZR (Grid.gridWidth tileGrid * tileSize) in
  let compositeHeight := IZR (Grid.gridHeight tileGrid * tileSize) in
  let swPixel := latLngToGlobalPixel (Bounds.south bounds) (Bounds.west bounds) zoom tileSize in
  let nePixel := latLngToGlobalPixel (Bounds.north bounds) (Bounds.east bounds) zoom tileSize in
  let offsetX := IZR (minX * tileSize) in
  let offsetY := IZR (minY * tileSize) in
  let x1 := Pixel.globalX swPixel - offsetX in
  let x2 := Pixel.globalX nePixel - offsetX in
  let y1 := Pixel.globalY nePixel - offsetY in
  let y2 := Pixel.globalY swPixel - offsetY in
  let boxWidth := JsMath.abs (x2 - x1) in
  let boxHeight := JsMath.abs (y2 - y1) in
  let xCenter := (x1 + x2) / 2 / compositeWidth in
  let yCenter := (y1 + y2) / 2 / compositeHeight in
  Yolo.mk
    (Rmax 0 (Rmin 1 xCenter))
    (Rmax 0 (Rmin 1 yCenter))
    (Rmax 0 (Rmin 1 (boxWidth / compositeWidth)))
    (Rmax 0 (Rmin 1 (boxHeight / compositeHeight)))
    (PixelRect.mk (JsMath.round x1) (JsMath.round y1)
                  (JsMath.round x2) (JsMath.round y2)).

(** ** Outcomes of effectful calls: a value, or a thrown error *)

Inductive outcome (A : Type) : Type :=
| Returned (a : A)
| Thrown (message : string).

Arguments Returned {A} a.
Arguments Thrown {A} message.

Definition bind {A B : Type} (m : outcome A) (k : A -> outcome B) : outcome B :=
  match m with
  | Returned a => k a
  | Thrown e => Thrown e
  end.

(** [try { body } catch (err) { handler }] *)
Definition try_catch {A : Type} (body : outcome A) (handler : string -> outcome A) : outcome A :=
  match body with
  | Returned a => Returned a
  | Thrown e => handler e
  end.

Notation "x <- m ;; k" := (bind m (fun x => k))
  (at level 61, m at next level, right associativity).

(** [await Promise.all(items.map(async f))]: every result in the order
    of the items, or the error of a rejected one. *)
Fixpoint promise_all {A B : Type} (f : A -> outcome B) (items : list A) : outcome (list B) :=
  match items with
  | [] => Returned []
  | item :: rest =>
      b <- f item ;;
      bs <- promise_all f rest ;;
      Returned (b :: bs)
  end.

(** ** Strings *)

Local Open Scope string_scope.

(** [String.prototype.replace] with a string pattern: the first
    occurrence only. *)
Fixpoint replace (pattern replacement s : string) : string :=
  if String.prefix pattern s
  then replacement ++ String.substring (String.length pattern)
                        (String.length s - String.length pattern) s
  else match s with
       | EmptyString => EmptyString
       | String c rest => String c (replace pattern replacement rest)
       end.

(** Decimal text of an integer, as a template literal prints it: all
    the digits, as JavaScript prints a safe integer (a double of larger
    magnitude prints rounded, or with an exponent from 1e21 on). *)
Definition toString (v : Z) : string := NilZero.string_of_int (Z.to_int v).

Definition DEFAULT_TILE_URL : string :=
  "https://tiles.maps.eox.at/wmts/1.0.0/s2cloudless_3857/default/GoogleMapsCompatible/{z}/{y}/{x}.jpg".

(** ** The environment: network, image library, file system, clock *)

Definition buffer : Type := list Byte.byte.

Module Response.
Record t : Type := mk {
  ok : bool;
  status : Z;
  arrayBuffer : outcome buffer
}.
End Response.

(** A call [sharp({create}).composite(inputs).jpeg(options).toBuffer()]. *)
Module Sharp.
Record overlay : Type := mkOverlay { input : buffer; left : Z; top : Z }.

Record job : Type := mkJob {
  width : Z;
  height : Z;
  channels : Z;
  background : Z * Z * Z;
  composite : list overlay;
  quality : option Z
}.
End Sharp.

Module Env.
Record t : Type := mk {
  fetch : string -> outcome Response.t;
  (* the value of [Math.random()] drawn while the tile z/x/y is requested *)
  random : Z -> Z -> Z -> R;
  sharp : Sharp.job -> outcome buffer;
  writeFile : string -> buffer -> outcome unit;
  (* [Date.now()] when the image is named *)
  dateNow : Z;
  (* [new Date().toISOString()] when the box is built *)
  isoNow : string;
  TILES_DIR : string
}.
End Env.

(** ** Tile fetcher *)

(** [['a', 'b', 'c'][i]]; an index outside the array prints as [undefined]. *)
Definition subdomain (i : Z) : string :=
  if (i =? 0)%Z then "a"
  else if (i =? 1)%Z then "b"
  else if (i =? 2)%Z then "c"
  else "undefined".

(** The grey placeholder tile of the [catch] branch. *)
Definition placeholderJob : Sharp.job :=
  Sharp.mkJob 256 256 3 (50, 50, 60)%Z [] None.

(** The [url] that [downloadTile] requests: the placeholders of the
    template filled in, each at its first occurrence. *)
Definition tileRequestUrl (env : Env.t) (z x y : Z) (tileUrlTemplate : string) : string :=
  replace "{s}" (subdomain (JsMath.floor (Env.random env z x y * 3)))
    (replace "{y}" (toString y)
      (replace "{x}" (toString x)
        (replace "{z}" (toString z) tileUrlTemplate))).

Definition downloadTile (env : Env.t) (z x y : Z) (tileUrlTemplate : string)
  : outcome buffer :=
  let url := tileRequestUrl env z x y tileUrlTemplate in
  try_catch
    (response <- Env.fetch env url ;;
     if negb (Response.ok response)
     then Thrown ("HTTP " ++ toString (Response.status response))
     else
       arrayBuffer <- Response.arrayBuffer response ;;
       Returned arrayBuffer)
    (fun err => Env.sharp env placeholderJob).

(** ** Compositor *)

Module Composite.
Record t : Type := mk { buffer : buffer; width : Z; height : Z }.
End Composite.

(** [{ ...tile, buffer }] *)
Module TileBuffer.
Record t : Type := mk { tile : Tile.t; buffer : buffer }.
End TileBuffer.

Definition compositeInput (minX minY tileSize : Z) (tile : TileBuffer.t) : Sharp.overlay :=
  Sharp.mkOverlay (TileBuffer.buffer tile)
    ((Tile.x (TileBuffer.tile tile) - minX) * tileSize)
    ((Tile.y (TileBuffer.tile tile) - minY) * tileSize).

(** The [async (tile) => ...] that the compositor maps over the tiles. *)
Definition fetchTile (env : Env.t) (tileUrl : string) (tile : Tile.t)
  : outcome TileBuffer.t :=
  buffer <- downloadTile env (Tile.z tile) (Tile.x tile) (Tile.y tile) tileUrl ;;
  Returned (TileBuffer.mk tile buffer).

Definition createCompositeImage (env : Env.t) (tileGrid : Grid.t)
    (tileSize : Z) (tileUrl : string) : outcome Composite.t :=
  let tiles := Grid.tiles tileGrid in
  let minX := Grid.minX tileGrid in
  let minY := Grid.minY tileGrid in
  let compositeWidth := (Grid.gridWidth tileGrid * tileSize)%Z in
  let compositeHeight := (Grid.gridHeight tileGrid * tileSize)%Z in
  tileBuffers <- promise_all (fetchTile env tileUrl) tiles ;;
  let compositeInputs := map (compositeInput minX minY tileSize) tileBuffers in
  compositeImage <-
    Env.sharp env
      (Sharp.mkJob compositeWidth compositeHeight 3 (0, 0, 0)%Z
         compositeInputs (Some 90%Z)) ;;
  Returned (Composite.mk compositeImage compositeWidth compositeHeight).

(** ** The box-creation request: [POST /api/boxes] *)

(** A numeric field of the JSON body that may be missing or [null]. *)
Inductive field : Type :=
| Absent
| Null
| Num (v : Z).

(** [v || fallback] on such a field: [undefined], [null] and [0] are falsy. *)
Definition or_default (v : field) (fallback : Z) : Z :=
  match v with
  | Absent => fallback
  | Null => fallback
  | Num n => if (n =? 0)%Z then fallback else n
  end.

(** [!v] on such a field. *)
Definition falsy (v : field) : bool :=
  match v with
  | Absent => true
  | Null => true
  | Num n => (n =? 0)%Z
  end.

(** [!s] on an optional string: a missing and an empty string are falsy. *)
Definition falsy_string (s : option string) : bool :=
  match s with
  | None => true
  | Some EmptyString => true
  | Some _ => false
  end.

(** [tileUrl || DEFAULT_TILE_URL] *)
Definition or_default_url (tileUrl : option string) : string :=
  match tileUrl with
  | None => DEFAULT_TILE_URL
  | Some EmptyString => DEFAULT_TILE_URL
  | Some u => u
  end.

(** The body of a request whose [bounds], when truthy, holds four
    numbers; [Body.t] below has the other truthy values. *)
Module Request.
Record t : Type := mk {
  labelId : field;
  labelName : option string;
  bounds : option Bounds.t;
  zoom : field;
  tileUrl : option string
}.
End Request.

(** [req.user], set by [authenticateToken] in the authenticated server. *)
Module User.
Record t : Type := mk { id : Z; email : string }.
End User.

(** [imageInfo]; [server.js] also notes the tile count and the grid size
    in it, which the box never reads. *)
Module ImageInfo.
Record t : Type := mk { path : string; width : Z; height : Z }.
End ImageInfo.

Module Box.
Record t : Type := mk {
  id : Z;
  labelId : field;
  labelName : option string;
  bounds : Bounds.t;
  zoom : Z;
  tileUrl : string;
  tiles : list Tile.t;
  (* tileGrid: { width, height, minX, minY } *)
  tileGrid : Z * Z * Z * Z;
  image : option string;
  imageSize : option (Z * Z);
  yolo : Yolo.t;
  user : option User.t;
  createdAt : string
}.
End Box.

Inductive reply : Type :=
| Status400 (error : string)
| Status201 (newBox : Box.t).

(** [Math.max(...ids)] on a list that is not empty. *)
Definition max_of (first : Z) (others : list Z) : Z :=
  fold_left Z.max others first.

(** [boxes.length ? Math.max(...boxes.map(b => b.id)) + 1 : 1] *)
Definition nextBoxId (boxes : list Box.t) : Z :=
  match map Box.id boxes with
  | [] => 1%Z
  | first :: others => (max_of first others + 1)%Z
  end.

(** The [try] block of the handler: composite, then save. *)
Definition produceImage (env : Env.t) (tileGrid : Grid.t) (tileSize : Z)
    (useTileUrl : string) (boxId : Z) : outcome ImageInfo.t :=
  composite <- createCompositeImage env tileGrid tileSize useTileUrl ;;
  let imageName := "box_" ++ toString boxId ++ "_" ++ toString (Env.dateNow env) ++ ".jpg" in
  let imagePath := Env.TILES_DIR env ++ "/" ++ imageName in
  _ <- Env.writeFile env imagePath (Composite.buffer composite) ;;
  Returned (ImageInfo.mk ("/saved_tiles/" ++ imageName)
              (Composite.width composite) (Composite.height composite)).

(** [const tileSize = 256] of the handler, also the default of the
    [tileSize] parameters. *)
Definition defaultTileSize : Z := 256.

(** The handler.  [user] is [None] in [server.js] and [Some req.user] in
    the authenticated server, whose handler differs only in the language
    of its messages, in the two user fields of the box and in the
    broadcast of the box it answers with.  Reading and writing the
    database file are taken to succeed; the result is the reply and the
    boxes of the database afterwards. *)
Definition postBoxes (env : Env.t) (user : option User.t)
    (boxes : list Box.t) (req : Request.t) : reply * list Box.t :=
  if falsy (Request.labelId req) || falsy_string (Request.labelName req)
  then (Status400 "labelId, labelName und bounds sind erforderlich", boxes)
  else
    match Request.bounds req with
    | None => (Status400 "labelId, labelName und bounds sind erforderlich", boxes)
    | Some bounds =>
        let zoomLevel := or_default (Request.zoom req) 14 in
        let tileSize := defaultTileSize in
        let useTileUrl := or_default_url (Request.tileUrl req) in
        let tileGrid := getTilesForBounds bounds zoomLevel in
        let boxId := nextBoxId boxes in
        let imageInfo :=
          match produceImage env tileGrid tileSize useTileUrl boxId with
          | Returned info => Some info
          | Thrown err => None
          end in
        let yoloCoords := calculateYoloForComposite bounds tileGrid zoomLevel tileSize in
        let newBox :=
          Box.mk boxId (Request.labelId req) (Request.labelName req) bounds
            zoomLevel useTileUrl
            (map (fun t => Tile.mk (Tile.x t) (Tile.y t) (Tile.z t)) (Grid.tiles tileGrid))
            (Grid.gridWidth tileGrid, Grid.gridHeight tileGrid,
             Grid.minX tileGrid, Grid.minY tileGrid)
            (option_map ImageInfo.path imageInfo)
            (option_map (fun i => (ImageInfo.width i, ImageInfo.height i)) imageInfo)
            yoloCoords user (Env.isoNow env) in
        (Status201 newBox, (boxes ++ [newBox])%list)
    end.

(** ** Vocabulary of the specification *)

Local Open Scope R_scope.

(** The integers [lo, lo+1, ...], [count] of them. *)
Definition upFrom (lo : Z) (count : nat) : list Z :=
  map (fun i => (lo + Z.of_nat i)%Z) (seq 0 count).

(** The integers of the closed interval [[lo, hi]], ascending. *)
Definition range (lo hi : Z) : list Z := upFrom lo (Z.to_nat (hi - lo + 1)).

(** The tiles of a rectangle, column after column. *)
Definition rectangle (minX maxX minY maxY zoom : Z) : list Tile.t :=
  flat_map (fun x => map (fun y => Tile.mk x y zoom) (range minY maxY))
           (range minX maxX).

Definition clamp01 (v : R) : R := Rmax 0 (Rmin 1 v).

(** The annotation projector, step by step as section 4.5 words it. *)
Module Projection.
Section Steps.
Variables (bounds : Bounds.t) (tileGrid : Grid.t) (zoom tileSize : Z).

Definition swCorner : Pixel.t :=
  latLngToGlobalPixel (Bounds.south bounds) (Bounds.west bounds) zoom tileSize.

Definition neCorner : Pixel.t :=
  latLngToGlobalPixel (Bounds.north bounds) (Bounds.east bounds) zoom tileSize.

(** The pixel origin of the tile grid. *)
Definition originX : R := IZR (Grid.minX tileGrid) * IZR tileSize.
Definition originY : R := IZR (Grid.minY tileGrid) * IZR tileSize.

(** The composite-relative corners: the horizontal edges in the order of
    the corners, the top edge from the north-east corner and the bottom
    edge from the south-west one. *)
Definition x1 : R := Pixel.globalX swCorner - originX.
Definition x2 : R := Pixel.globalX neCorner - originX.
Definition y1 : R := Pixel.globalY neCorner - originY.
Definition y2 : R := Pixel.globalY swCorner - originY.

Definition imageWidth : R := IZR (Grid.gridWidth tileGrid) * IZR tileSize.
Definition imageHeight : R := IZR (Grid.gridHeight tileGrid) * IZR tileSize.

End Steps.
End Projection.

(** The request for [url] met a network error, a response that is not
    a success, or a body that could not be read. *)
Definition fetch_failed (env : Env.t) (url : string) : Prop :=
  match Env.fetch env url with
  | Thrown _ => True
  | Returned response =>
      Response.ok response = false
      \/ exists message, Response.arrayBuffer response = Thrown message
  end.

(** ** Example environments *)

(** No network: every request is rejected; the image library works. *)
Definition offlineEnv : Env.t :=
  Env.mk (fun _ => Thrown "fetch failed") (fun _ _ _ => 0)
         (fun _ => Returned []) (fun _ _ => Returned tt)
         0%Z "1970-01-01T00:00:00.000Z" "/srv/public/saved_tiles".

(** As [offlineEnv], but the image library refuses every job that asks
    for an explicit JPEG quality, as the composite does. *)
Definition brokenEncoderEnv : Env.t :=
  Env.mk (fun _ => Thrown "fetch failed") (fun _ _ _ => 0)
         (fun job => match Sharp.quality job with
                     | Some _ => Thrown "Input buffer contains unsupported image format"
                     | None => Returned []
                     end)
         (fun _ _ => Returned tt)
         0%Z "1970-01-01T00:00:00.000Z" "/srv/public/saved_tiles".

Definition originBounds : Bounds.t := Bounds.mk 0 0 0 0.

Definition exampleRequest (zoom : field) : Request.t :=
  Request.mk (Num 1) (Some "car"%string) (Some originBounds) zoom None.

Definition singleTileGrid : Grid.t :=
  Grid.mk [Tile.mk 0 0 0] 1 1 0 0 0 0.

(** [p] is an integer nearest to [v]. *)
Definition nearest (p : Z) (v : R) : Prop := Rabs (IZR p - v) <= / 2.

(** ** The worked example of section 8 *)

Definition exampleBounds : Bounds.t := Bounds.mk 50 10 (5001 / 100) (1001 / 100).

Definition sameTile (a b : Tile.t) : Prop :=
  Tile.x a = Tile.x b /\ Tile.y a = Tile.y b.

(** Two different tiles whose indices differ by at most one on each axis. *)
Definition adjacentTiles (a b : Tile.t) : Prop :=
  ~ sameTile a b
  /\ (Z.abs (Tile.x a - Tile.x b) <= 1)%Z /\ (Z.abs (Tile.y a - Tile.y b) <= 1)%Z.

(** Width and height of a grid, as the source prints them:
    [gridWidth x gridHeight]. *)
Definition gridSize (g : Grid.t) : Z * Z := (Grid.gridWidth g, Grid.gridHeight g).

(** The rectangle lies in [[0, width) x [0, height)]. *)
Definition insideImage (r : PixelRect.t) (width height : Z) : Prop :=
  (0 <= PixelRect.x1 r < width)%Z /\ (0 <= PixelRect.x2 r < width)%Z
  /\ (0 <= PixelRect.y1 r < height)%Z /\ (0 <= PixelRect.y2 r < height)%Z.

(** The example with the grid shapes it allows for adjacent corner tiles. *)
Definition workedExample (shapes : list (Z * Z)) : Prop :=
  let sw := latLngToTile (Bounds.south exampleBounds) (Bounds.west exampleBounds) 14 in
  let ne := latLngToTile (Bounds.north exampleBounds) (Bounds.east exampleBounds) 14 in
  let grid := getTilesForBounds exampleBounds 14 in
  (sameTile sw ne
   /\ gridSize grid = (1, 1)%Z
   /\ insideImage (Yolo.pixel (calculateYoloForComposite exampleBounds grid 14 256))
        256 256)
  \/ (adjacentTiles sw ne /\ In (gridSize grid) shapes).

(** ** Enclosures for the transcendental functions *)

(** The Mercator ordinate of a latitude, in half turns. *)
Definition mercator (lat : R) : R := JsMath.asinh (tan (lat * PI / 180)) / PI.

(** Term [k] of the exponential series at [x], without its sign. *)
Definition exp_term (x : R) (k : nat) : R := x ^ k / INR (fact k).

(** Taylor polynomials that enclose sine, cosine and [exp (- x)]. *)
Definition sin_below (a : R) : R := a - a ^ 3 / 6 + a ^ 5 / 120 - a ^ 7 / 5040.
Definition sin_above (a : R) : R := sin_below a + a ^ 9 / 362880.
Definition cos_below (a : R) : R := 1 - a ^ 2 / 2 + a ^ 4 / 24 - a ^ 6 / 720.
Definition cos_above (a : R) : R := cos_below a + a ^ 8 / 40320.
Definition exp_neg_above (x : R) : R :=
  1 - x + x ^ 2 / 2 - x ^ 3 / 6 + x ^ 4 / 24 - x ^ 5 / 120 + x ^ 6 / 720.
Definition exp_neg_below (x : R) : R := exp_neg_above x - x ^ 7 / 5040.

(** * The rest of the two servers *)

(** The label and box stores with their delete handlers, the YOLO export
    and, for the authenticated server, the accounts and their
    administration.  Strings are strings of characters below 256; the
    password and token libraries are functions of an environment. *)

From Stdlib Require Import Ascii.

Local Close Scope R_scope.

(** ** The canvas of the compositor *)

(** The top-left corners of the cells of a canvas of [gridWidth] by
    [gridHeight] tiles, column after column. *)
Definition canvasCells (gridWidth gridHeight tileSize : Z) : list (Z * Z) :=
  flat_map (fun i => map (fun j => (i * tileSize, j * tileSize)%Z)
                         (range 0 (gridHeight - 1)))
           (range 0 (gridWidth - 1)).

Definition overlayOffset (o : Sharp.overlay) : Z * Z := (Sharp.left o, Sharp.top o).

(** ** URL templates as pieces *)

Inductive hole : Type := HoleZ | HoleX | HoleY | HoleS.

Definition holeEq (a b : hole) : bool :=
  match a, b with
  | HoleZ, HoleZ | HoleX, HoleX | HoleY, HoleY | HoleS, HoleS => true
  | _, _ => false
  end.

(** The placeholder as the template spells it. *)
Definition placeholder (h : hole) : string :=
  match h with
  | HoleZ => "{z}"
  | HoleX => "{x}"
  | HoleY => "{y}"
  | HoleS => "{s}"
  end.

Inductive piece : Type :=
| Text (s : string)
| Hole (h : hole).

Fixpoint render (pieces : list piece) : string :=
  match pieces with
  | [] => ""
  | Text s :: rest => s ++ render rest
  | Hole h :: rest => placeholder h ++ render rest
  end.

(** The first [Hole h] becomes the text [value]. *)
Fixpoint fillFirst (h : hole) (value : string) (pieces : list piece) : list piece :=
  match pieces with
  | [] => []
  | Hole h' :: rest =>
      if holeEq h h' then Text value :: rest else Hole h' :: fillFirst h value rest
  | Text s :: rest => Text s :: fillFirst h value rest
  end.

(** No opening brace in the string. *)
Fixpoint braceFree (s : string) : bool :=
  match s with
  | EmptyString => true
  | String c rest => negb (Ascii.eqb c "{") && braceFree rest
  end.

Definition textsBraceFree (pieces : list piece) : Prop :=
  forall s, In (Text s) pieces -> braceFree s = true.

Definition defaultTemplate : list piece :=
  [Text "https://tiles.maps.eox.at/wmts/1.0.0/s2cloudless_3857/default/GoogleMapsCompatible/";
   Hole HoleZ; Text "/"; Hole HoleY; Text "/"; Hole HoleX; Text ".jpg"].

(** ** [String.prototype.trim] *)

(** White space and line terminators among the characters below 256. *)
Definition isWhiteSpace (c : ascii) : bool :=
  let code := nat_of_ascii c in
  ((9 <=? code)%nat && (code <=? 13)%nat) || (code =? 32)%nat || (code =? 160)%nat.

Fixpoint trimStart (s : string) : string :=
  match s with
  | EmptyString => EmptyString
  | String c rest => if isWhiteSpace c then trimStart rest else s
  end.

Fixpoint trimEnd (s : string) : string :=
  match s with
  | EmptyString => EmptyString
  | String c rest =>
      match trimEnd rest with
      | EmptyString => if isWhiteSpace c then EmptyString else String c EmptyString
      | kept => String c kept
      end
  end.

Definition trim (s : string) : string := trimEnd (trimStart s).

(** ** Labels: [POST /api/labels], [DELETE /api/labels/:id] *)

Module Label.
Record t : Type := mk { id : Z; name : string; user : option User.t }.
End Label.

Inductive labelReply : Type :=
| LabelStatus400 (error : string)
| LabelStatus200 (existing : Label.t)
| LabelStatus201 (newLabel : Label.t).

(** [ids.length ? Math.max(...ids) + 1 : 1] *)
Definition freshId (ids : list Z) : Z :=
  match ids with
  | [] => 1%Z
  | first :: others => (max_of first others + 1)%Z
  end.

(** The handler; [user] is [None] in [server.js] and [Some req.user] in
    the authenticated server, which stores it in the label, broadcasts
    the label it creates and words the error in English. *)
Definition postLabels (user : option User.t) (labels : list Label.t)
    (name : option string) : labelReply * list Label.t :=
  match name with
  | None => (LabelStatus400 "Name ist erforderlich", labels)
  | Some name =>
      if falsy_string (Some name) || falsy_string (Some (trim name))
      then (LabelStatus400 "Name ist erforderlich", labels)
      else
        match find (fun l => String.eqb (Label.name l) (trim name)) labels with
        | Some existing => (LabelStatus200 existing, labels)
        | None =>
            let newLabel := Label.mk (freshId (map Label.id labels)) (trim name) user in
            (LabelStatus201 newLabel, (labels ++ [newLabel])%list)
        end
  end.

(** [array.findIndex(p)]; [None] stands for -1. *)
Fixpoint findIndex {A : Type} (p : A -> bool) (l : list A) : option nat :=
  match l with
  | [] => None
  | a :: rest => if p a then Some O else option_map S (findIndex p rest)
  end.

(** [array.splice(index, 1)] *)
Definition splice1 {A : Type} (index : nat) (l : list A) : list A :=
  (firstn index l ++ skipn (S index) l)%list.

(** [b.labelId === id] for a numeric [id] *)
Definition labelIs (id : Z) (b : Box.t) : bool :=
  match Box.labelId b with
  | Num v => (v =? id)%Z
  | _ => false
  end.

(** The image of a box when [box.image] is truthy. *)
Definition imageToUnlink (b : Box.t) : list string :=
  match Box.image b with
  | Some EmptyString => []
  | Some image => [image]
  | None => []
  end.

Inductive deleteReply : Type :=
| DeleteStatus404 (error : string)
| DeleteSuccess.

Module Store.
Record t : Type := mk { labels : list Label.t; boxes : list Box.t }.
End Store.

(** Both delete handlers answer with the reply, the store afterwards and
    the images (below [public]) they asked the file system to unlink;
    a failing unlink is ignored.  [id] is [Number(req.params.id)].  The
    authenticated server words the errors in English and broadcasts
    what it deleted. *)
Definition deleteLabel (db : Store.t) (id : Z) : deleteReply * Store.t * list string :=
  match findIndex (fun l => (Label.id l =? id)%Z) (Store.labels db) with
  | None => (DeleteStatus404 "Label nicht gefunden", db, [])
  | Some index =>
      let boxesToDelete := filter (labelIs id) (Store.boxes db) in
      (DeleteSuccess,
       Store.mk (splice1 index (Store.labels db))
                (filter (fun b => negb (labelIs id b)) (Store.boxes db)),
       flat_map imageToUnlink boxesToDelete)
  end.

Definition deleteBox (db : Store.t) (id : Z) : deleteReply * Store.t * list string :=
  match findIndex (fun b => (Box.id b =? id)%Z) (Store.boxes db) with
  | None => (DeleteStatus404 "Box nicht gefunden", db, [])
  | Some index =>
      (DeleteSuccess,
       Store.mk (Store.labels db) (splice1 index (Store.boxes db)),
       match nth_error (Store.boxes db) index with
       | Some box => imageToUnlink box
       | None => []
       end)
  end.

(** No white space at the start. *)
Definition startsClean (s : string) : Prop :=
  match s with
  | EmptyString => True
  | String c _ => isWhiteSpace c = false
  end.

(** ** What the handlers keep true of the stores *)

(** What the label handlers keep true of the stored labels. *)
Definition labelsOk (labels : list Label.t) : Prop :=
  NoDup (map Label.id labels)
  /\ NoDup (map Label.name labels)
  /\ (forall l, In l labels ->
        (1 <= Label.id l)%Z /\ Label.name l <> "" /\ trim (Label.name l) = Label.name l).

(** Every box carries the id of a stored label. *)
Definition boxesLabelled (db : Store.t) : Prop :=
  forall b, In b (Store.boxes db) ->
    exists l, In l (Store.labels db) /\ Box.labelId b = Num (Label.id l).

(** ** [Number.prototype.toFixed] *)

Definition digitChar (d : Z) : ascii := ascii_of_nat (48 + Z.to_nat d).

(** The last [count] decimal digits of [n], padded with zeros. *)
Fixpoint lastDigits (count : nat) (n : Z) : string :=
  match count with
  | O => ""
  | S k => lastDigits k (n / 10) ++ String (digitChar (n mod 10)) ""
  end.

(** [v.toFixed(fractionDigits)] for [|v| < 1e21]: the nearest multiple of
    [10 ^ -fractionDigits], the larger one of two. *)
Definition toFixed (fractionDigits : nat) (v : R) : string :=
  let sign := if Rlt_dec v 0 then "-" else "" in
  let n := JsMath.floor (Rabs v * 10 ^ fractionDigits + / 2)%R in
  match fractionDigits with
  | O => sign ++ toString n
  | _ => sign ++ toString (n / 10 ^ Z.of_nat fractionDigits) ++ "."
              ++ lastDigits fractionDigits n
  end.

(** ** [GET /api/export/yolo] *)

(** [labelToClass] after [labels.forEach((label, index) => labelToClass[label.id] = index)],
    read at a key. *)
Definition labelToClass (labels : list Label.t) : Z -> option nat :=
  fold_left
    (fun (object : Z -> option nat) (entry : nat * Label.t) =>
       fun key => if (key =? Label.id (snd entry))%Z then Some (fst entry) else object key)
    (combine (seq 0 (List.length labels)) labels)
    (fun _ => None).

Module Annotation.
Record t : Type := mk {
  classId : nat;
  labelName : option string;
  x_center : string;
  y_center : string;
  width : string;
  height : string;
  pixel : PixelRect.t
}.
End Annotation.

Module ExportImage.
Record t : Type := mk {
  boxId : Z;
  imagePath : string;
  imageSize : option (Z * Z);
  tileCount : nat;
  gridSize : string;
  annotation : Annotation.t;
  yoloLine : string
}.
End ExportImage.

Module YoloExport.
Record t : Type := mk {
  classes : list (nat * string);
  classesFile : string;
  images : list ExportImage.t;
  totalBoxes : nat;
  totalImages : nat
}.
End YoloExport.



(** The callback of [.map]; a stored box always has its [tileGrid]. *)
Definition exportImage (labels : list Label.t) (box : Box.t) : option ExportImage.t :=
  match
    match Box.labelId box with
    | Num id => labelToClass labels id
    | _ => None
    end
  with
  | None => None
  | Some classId =>
      let yolo := Box.yolo box in
      let classText := toString (Z.of_nat classId) in
      let '(width, height, _, _) := Box.tileGrid box in
      Some (ExportImage.mk (Box.id box)
              (match Box.image box with Some image => image | None => "" end)
              (Box.imageSize box)
              (List.length (Box.tiles box))
              (toString width ++ "x" ++ toString height)
              (Annotation.mk classId (Box.labelName box)
                 (toFixed 6 (Yolo.x_center yolo)) (toFixed 6 (Yolo.y_center yolo))
                 (toFixed 6 (Yolo.width yolo)) (toFixed 6 (Yolo.height yolo))
                 (Yolo.pixel yolo))
              (classText ++ " " ++ toFixed 6 (Yolo.x_center yolo)
                     ++ " " ++ toFixed 6 (Yolo.y_center yolo)
                     ++ " " ++ toFixed 6 (Yolo.width yolo)
                     ++ " " ++ toFixed 6 (Yolo.height yolo)))
  end.




(** ** Accounts of the authenticated server *)

(** [String.prototype.toLowerCase] on the characters below 256. *)
Definition toLowerChar (c : ascii) : ascii :=
  let code := nat_of_ascii c in
  if ((65 <=? code) && (code <=? 90)
      || (192 <=? code) && (code <=? 214)
      || (216 <=? code) && (code <=? 222))%nat
  then ascii_of_nat (code + 32)
  else c.

Fixpoint toLowerCase (s : string) : string :=
  match s with
  | EmptyString => EmptyString
  | String c rest => String (toLowerChar c) (toLowerCase rest)
  end.

(** [email.toLowerCase().trim()] *)
Definition normalizeEmail (email : string) : string := trim (toLowerCase email).

Module Account.
Record t : Type := mk {
  id : Z;
  email : string;
  password : string;
  role : string;
  createdAt : string
}.
End Account.

(** The payload of a token: [req.user] after [authenticateToken]. *)
Module Session.
Record t : Type := mk { id : Z; email : string; role : string }.
End Session.

(** The libraries the account handlers call. *)
Module AuthEnv.
Record t : Type := mk {
  (* [await bcrypt.hash(password, 10)] *)
  hash : string -> string;
  (* [await bcrypt.compare(password, hash)] *)
  compare : string -> string -> bool;
  (* [jwt.sign(payload, JWT_SECRET, { expiresIn })] *)
  sign : Session.t -> string;
  isoNow : string
}.
End AuthEnv.

Definition isAdmin (u : Account.t) : bool := String.eqb (Account.role u) "admin".

(** [needsSetup()] *)
Definition needsSetup (users : list Account.t) : bool := negb (existsb isAdmin users).

Inductive authReply : Type :=
| AuthStatus400 (error : string)
| AuthStatus401 (error : string)
| AuthStatus201 (message : string) (user : Session.t) (token : string)
| AuthStatus200 (message : string) (user : Session.t) (token : string).

Definition sessionOf (u : Account.t) : Session.t :=
  Session.mk (Account.id u) (Account.email u) (Account.role u).

(** [POST /api/auth/setup] *)
Definition setup (env : AuthEnv.t) (users : list Account.t)
    (email password : option string) : authReply * list Account.t :=
  if negb (needsSetup users) then (AuthStatus400 "Setup already completed", users)
  else
    match email, password with
    | Some email, Some password =>
        if falsy_string (Some email) || falsy_string (Some password)
        then (AuthStatus400 "Email and password required", users)
        else if (String.length password <? 6)%nat
        then (AuthStatus400 "Password must be at least 6 characters", users)
        else
          let newUser :=
            Account.mk 1 (normalizeEmail email) (AuthEnv.hash env password)
              "admin" (AuthEnv.isoNow env) in
          (AuthStatus201 "Admin account created" (sessionOf newUser)
             (AuthEnv.sign env (sessionOf newUser)),
           (users ++ [newUser])%list)
    | _, _ => (AuthStatus400 "Email and password required", users)
    end.

(** [POST /api/auth/register] *)
Definition register (env : AuthEnv.t) (users : list Account.t)
    (email password : option string) : authReply * list Account.t :=
  match email, password with
  | Some email, Some password =>
      if falsy_string (Some email) || falsy_string (Some password)
      then (AuthStatus400 "Email and password required", users)
      else if (String.length password <? 6)%nat
      then (AuthStatus400 "Password must be at least 6 characters", users)
      else
        match find (fun u => String.eqb (Account.email u) (normalizeEmail email)) users with
        | Some _ => (AuthStatus400 "Email already registered", users)
        | None =>
            let newUser :=
              Account.mk (freshId (map Account.id users)) (normalizeEmail email)
                (AuthEnv.hash env password) "user" (AuthEnv.isoNow env) in
            (AuthStatus201 "Account created" (sessionOf newUser)
               (AuthEnv.sign env (sessionOf newUser)),
             (users ++ [newUser])%list)
        end
  | _, _ => (AuthStatus400 "Email and password required", users)
  end.

(** [POST /api/auth/login]; it leaves the accounts as they are. *)
Definition login (env : AuthEnv.t) (users : list Account.t)
    (email password : option string) : authReply :=
  match email, password with
  | Some email, Some password =>
      if falsy_string (Some email) || falsy_string (Some password)
      then AuthStatus400 "Email and password required"
      else
        match find (fun u => String.eqb (Account.email u) (normalizeEmail email)) users with
        | None => AuthStatus401 "Invalid credentials"
        | Some user =>
            if negb (AuthEnv.compare env password (Account.password user))
            then AuthStatus401 "Invalid credentials"
            else AuthStatus200 "Login successful" (sessionOf user)
                   (AuthEnv.sign env (sessionOf user))
        end
  | _, _ => AuthStatus400 "Email and password required"
  end.

Inductive adminReply : Type :=
| AdminStatus400 (error : string)
| AdminStatus403 (error : string)
| AdminStatus404 (error : string)
| AdminStatus200 (message : string).

(** [user.role = role] on the first account with this id. *)
Fixpoint setRole (userId : Z) (role : string) (users : list Account.t) : list Account.t :=
  match users with
  | [] => []
  | u :: rest =>
      if (Account.id u =? userId)%Z
      then Account.mk (Account.id u) (Account.email u) (Account.password u) role
             (Account.createdAt u) :: rest
      else u :: setRole userId role rest
  end.

(** [users.filter(u => u.role === 'admin').length] *)
Definition adminCount (users : list Account.t) : nat :=
  List.length (filter isAdmin users).

(** [PUT /api/admin/users/:id/role] with [requireAdmin] before it;
    [session] is [req.user] as [authenticateToken] leaves it and
    [userId] is [Number(req.params.id)]. *)
Definition putRole (session : Session.t) (users : list Account.t)
    (userId : Z) (role : string) : adminReply * list Account.t :=
  if negb (String.eqb (Session.role session) "admin")
  then (AdminStatus403 "Admin access required", users)
  else if negb (String.eqb role "admin" || String.eqb role "user")
  then (AdminStatus400 "Invalid role", users)
  else
    match find (fun u => (Account.id u =? userId)%Z) users with
    | None => (AdminStatus404 "User not found", users)
    | Some user =>
        if isAdmin user && String.eqb role "user" && (adminCount users <=? 1)%nat
        then (AdminStatus400 "Cannot remove the last admin", users)
        else (AdminStatus200 "Role updated", setRole userId role users)
    end.

(** [DELETE /api/admin/users/:id], with [requireAdmin] before it. *)
Definition deleteUser (session : Session.t) (users : list Account.t)
    (userId : Z) : adminReply * list Account.t :=
  if negb (String.eqb (Session.role session) "admin")
  then (AdminStatus403 "Admin access required", users)
  else if (Session.id session =? userId)%Z
  then (AdminStatus400 "Cannot delete your own account", users)
  else
    match findIndex (fun u => (Account.id u =? userId)%Z) users with
    | None => (AdminStatus404 "User not found", users)
    | Some userIndex =>
        match nth_error users userIndex with
        | None => (AdminStatus404 "User not found", users)
        | Some user =>
            if isAdmin user && (adminCount users <=? 1)%nat
            then (AdminStatus400 "Cannot delete the last admin", users)
            else (AdminStatus200 "User deleted", splice1 userIndex users)
        end
    end.

(** Account ids and addresses are distinct. *)
Definition accountsDistinct (users : list Account.t) : Prop :=
  NoDup (map Account.id users) /\ NoDup (map Account.email users).

(** The four normalized fields lie in the unit interval. *)
Definition unitAnnotation (yolo : Yolo.t) : Prop :=
  (0 <= Yolo.x_center yolo <= 1)%R /\ (0 <= Yolo.y_center yolo <= 1)%R
  /\ (0 <= Yolo.width yolo <= 1)%R /\ (0 <= Yolo.height yolo <= 1)%R.

(** ** Example data *)

Definition originGrid : Grid.t :=
  Grid.mk [Tile.mk 8192 8192 14] 1 1 8192 8192 8192 8192.

(** The box that the box at the origin becomes without network. *)
Definition exampleCreated : Box.t :=
  Box.mk 1 (Num 1) (Some "car") originBounds 14 DEFAULT_TILE_URL
    [Tile.mk 8192 8192 14] (1, 1, 8192, 8192)%Z
    (Some "/saved_tiles/box_1_0.jpg") (Some (256, 256)%Z)
    (calculateYoloForComposite originBounds originGrid 14 256)
    None "1970-01-01T00:00:00.000Z".

Definition exampleLabel : Label.t := Label.mk 1 "car" None.

Definition exampleStoredBox : Box.t :=
  Box.mk 1 (Num 1) (Some "car") originBounds 14 DEFAULT_TILE_URL
    [Tile.mk 8192 8192 14] (1, 1, 8192, 8192)%Z
    (Some "/saved_tiles/box_1_0.jpg") (Some (256, 256)%Z)
    (Yolo.mk (1 / 2) (1 / 2) (1 / 4) (1 / 4) (PixelRect.mk 96 96 160 160))
    None "1970-01-01T00:00:00.000Z".

Definition exampleStore : Store.t := Store.mk [exampleLabel] [exampleStoredBox].

Definition secondLabel : Label.t := Label.mk 2 "tree" None.

Definition secondStoredBox : Box.t :=
  Box.mk 2 (Num 2) (Some "tree") originBounds 14 DEFAULT_TILE_URL
    [Tile.mk 8192 8192 14] (1, 1, 8192, 8192)%Z
    (Some "/saved_tiles/box_2_0.jpg") (Some (256, 256)%Z)
    (Yolo.mk (1 / 2) (1 / 2) (1 / 4) (1 / 4) (PixelRect.mk 96 96 160 160))
    None "1970-01-01T00:00:00.000Z".

(** Two labels, one box of each. *)
Definition twoLabelStore : Store.t :=
  Store.mk [exampleLabel; secondLabel] [exampleStoredBox; secondStoredBox].

Definition exampleAdmin : Account.t :=
  Account.mk 1 "admin@example.org" "hashed:secret1" "admin" "1970-01-01T00:00:00.000Z".

(** An account that registered before setup. *)
Definition exampleEarlyUser : Account.t :=
  Account.mk 1 "bob@example.org" "hashed:secret2" "user" "1970-01-01T00:00:00.000Z".

Definition exampleSession : Session.t := Session.mk 1 "admin@example.org" "admin".

Definition exampleAuthEnv : AuthEnv.t :=
  AuthEnv.mk (fun password => "hashed:" ++ password)
             (fun password hash => String.eqb hash ("hashed:" ++ password))
             (fun session => "token:" ++ Session.email session)
             "1970-01-01T00:00:00.000Z".

(** * The engine as it runs *)

(** The definitions above give what each function returns where its
    arithmetic is exact.  This part runs the places where the engine
    leaves that ground: the counters of the resolver's loops are
    doubles, on which [x++] no longer counts from 2^53 on; a quotient of
    the projector is infinite or NaN when the composite has no width or
    no height; and the box-creation handler takes any truthy value for
    bounds. *)

Local Open Scope Z_scope.

(** ** Counters are doubles *)

(** The double nearest to the integer [n], the one with the even
    significand of two: every integer up to 2^53 in magnitude is a
    double, and between 2^e and 2^(e+1) the doubles are 2^(e-52) apart.
    (Below the largest double.) *)
Definition toDouble (n : Z) : Z :=
  let magnitude := Z.abs n in
  if magnitude <? 2 ^ 53 then n
  else
    let ulp := 2 ^ (Z.log2 magnitude - 52) in
    let q := magnitude / ulp in
    let r := magnitude mod ulp in
    let significand :=
      if 2 * r <? ulp then q
      else if ulp <? 2 * r then q + 1
      else if Z.even q then q else q + 1 in
    Z.sgn n * (significand * ulp).

(** [x++] on a counter that holds an integer. *)
Definition increment (x : Z) : Z := toDouble (x + 1).

(** Tile indices on which the resolver's arithmetic is exact. *)
Definition safeIndex (i : Z) : Prop := - 2 ^ 52 <= i < 2 ^ 52.

(** [Number.isSafeInteger]: the integers that print with all their digits. *)
Definition safeInteger (v : Z) : Prop := Z.abs v < 2 ^ 53.

Definition safeTile (t : Tile.t) : Prop := safeIndex (Tile.x t) /\ safeIndex (Tile.y t).

(** [for (let i = lo; i <= hi; i++) body], run for at most [fuel] tests
    of its condition: [None] when the loop is still running. *)
Fixpoint for_fuel {S : Type} (fuel : nat) (i hi : Z) (body : Z -> S -> option S) (s : S)
    : option S :=
  match fuel with
  | O => None
  | Datatypes.S fuel' =>
      if i <=? hi
      then match body i s with
           | Some s' => for_fuel fuel' (increment i) hi body s'
           | None => None
           end
      else Some s
  end.

(** [getTilesForBounds] with its two loops run on double counters. *)
Definition runGetTilesForBounds (fuel : nat) (bounds : Bounds.t) (zoom : Z) : option Grid.t :=
  let swTile := latLngToTile (Bounds.south bounds) (Bounds.west bounds) zoom in
  let neTile := latLngToTile (Bounds.north bounds) (Bounds.east bounds) zoom in
  let minX := Z.min (Tile.x swTile) (Tile.x neTile) in
  let maxX := Z.max (Tile.x swTile) (Tile.x neTile) in
  let minY := Z.min (Tile.y swTile) (Tile.y neTile) in
  let maxY := Z.max (Tile.y swTile) (Tile.y neTile) in
  match
    for_fuel fuel minX maxX (fun x tiles =>
      for_fuel fuel minY maxY (fun y tiles => Some (tiles ++ [Tile.mk x y zoom])%list) tiles) []
  with
  | Some tiles =>
      Some (Grid.mk tiles (toDouble (toDouble (maxX - minX) + 1))
              (toDouble (toDouble (maxY - minY) + 1)) minX minY maxX maxY)
  | None => None
  end.

(** The number of tests the resolver's longer loop makes. *)
Definition testsNeeded (g : Grid.t) : nat :=
  S (Z.to_nat (Z.max (Grid.gridWidth g) (Grid.gridHeight g))).

Local Close Scope Z_scope.

Local Open Scope R_scope.

(** ** Inputs within range *)

(** Bounds inside the tile pyramid at a zoom level from 0 to 52: the
    inputs on which both corner tiles have safe indices. *)
Definition validInput (bounds : Bounds.t) (zoom : Z) : Prop :=
  (0 <= zoom <= 52)%Z
  /\ -85 <= Bounds.south bounds <= 85 /\ -85 <= Bounds.north bounds <= 85
  /\ -180 <= Bounds.west bounds < 180 /\ -180 <= Bounds.east bounds < 180.

(** A magnitude, 2^100, up to which no product of the projector leaves
    the range of the doubles. *)
Definition magnitudeLimit : Z := 2 ^ 100.

(** Inputs of the projector that stay below it, at a zoom level up to
    800. *)
Definition moderateInput (bounds : Bounds.t) (tileGrid : Grid.t) (zoom tileSize : Z) : Prop :=
  (zoom <= 800)%Z
  /\ (Rabs (Bounds.south bounds) <= IZR magnitudeLimit
      /\ Rabs (Bounds.west bounds) <= IZR magnitudeLimit
      /\ Rabs (Bounds.north bounds) <= IZR magnitudeLimit
      /\ Rabs (Bounds.east bounds) <= IZR magnitudeLimit)
  /\ (Z.abs tileSize <= magnitudeLimit)%Z
  /\ (Z.abs (Grid.minX tileGrid) <= magnitudeLimit
      /\ Z.abs (Grid.minY tileGrid) <= magnitudeLimit
      /\ Z.abs (Grid.gridWidth tileGrid) <= magnitudeLimit
      /\ Z.abs (Grid.gridHeight tileGrid) <= magnitudeLimit)%Z.

(** The grid of the worked example. *)
Definition exampleGrid : Grid.t :=
  Grid.mk [Tile.mk 8647 5555 14; Tile.mk 8647 5556 14] 1 2 8647 5555 8647 5556.

(** ** Division by zero in the projector *)

(** A number as JavaScript has it: a real number, an infinity or NaN. *)
Module JsNumber.
Inductive t : Type :=
| Finite (v : R)
| Infinity (negative : bool)
| NaN.

(** [a / b] for a real [a] and an integer [b]; [negativeZero] says
    whether a [b] that is zero is [-0]. *)
Definition divide (a : R) (b : Z) (negativeZero : bool) : t :=
  if (b =? 0)%Z
  then if Req_dec_T a 0 then NaN
       else Infinity (xorb (if Rlt_dec a 0 then true else false) negativeZero)
  else Finite (a / IZR b).

(** [Math.min(1, v)] *)
Definition min1 (v : t) : t :=
  match v with
  | Finite r => Finite (Rmin 1 r)
  | Infinity true => Infinity true
  | Infinity false => Finite 1
  | NaN => NaN
  end.

(** [Math.max(0, v)] *)
Definition max0 (v : t) : t :=
  match v with
  | Finite r => Finite (Rmax 0 r)
  | Infinity true => Finite 0
  | Infinity false => Infinity false
  | NaN => NaN
  end.

(** A number of the closed unit interval. *)
Definition inUnitInterval (v : t) : Prop :=
  match v with
  | Finite r => 0 <= r <= 1
  | _ => False
  end.
End JsNumber.

(** The four normalized fields of [calculateYoloForComposite], in the
    order [x_center], [y_center], [width], [height], with the quotients
    as JavaScript computes them: where the composite has no width or no
    height, a quotient is an infinity, or NaN when its numerator is
    zero too.  A product of integers that is zero is [-0] when one
    factor is negative. *)
Definition calculateYoloForCompositeNumbers
    (bounds : Bounds.t) (tileGrid : Grid.t) (zoom : Z) (tileSize : Z)
    : JsNumber.t * JsNumber.t * JsNumber.t * JsNumber.t :=
  let minX := Grid.minX tileGrid in
  let minY := Grid.minY tileGrid in
  let gridWidth := Grid.gridWidth tileGrid in
  let gridHeight := Grid.gridHeight tileGrid in
  let compositeWidth := (gridWidth * tileSize)%Z in
  let compositeHeight := (gridHeight * tileSize)%Z in
  let widthNegativeZero := (gridWidth <? 0)%Z || (tileSize <? 0)%Z in
  let heightNegativeZero := (gridHeight <? 0)%Z || (tileSize <? 0)%Z in
  let swPixel := latLngToGlobalPixel (Bounds.south bounds) (Bounds.west bounds) zoom tileSize in
  let nePixel := latLngToGlobalPixel (Bounds.north bounds) (Bounds.east bounds) zoom tileSize in
  let offsetX := IZR (minX * tileSize) in
  let offsetY := IZR (minY * tileSize) in
  let x1 := Pixel.globalX swPixel - offsetX in
  let x2 := Pixel.globalX nePixel - offsetX in
  let y1 := Pixel.globalY nePixel - offsetY in
  let y2 := Pixel.globalY swPixel - offsetY in
  let boxWidth := JsMath.abs (x2 - x1) in
  let boxHeight := JsMath.abs (y2 - y1) in
  let xCenter := JsNumber.divide ((x1 + x2) / 2) compositeWidth widthNegativeZero in
  let yCenter := JsNumber.divide ((y1 + y2) / 2) compositeHeight heightNegativeZero in
  (JsNumber.max0 (JsNumber.min1 xCenter),
   JsNumber.max0 (JsNumber.min1 yCenter),
   JsNumber.max0 (JsNumber.min1 (JsNumber.divide boxWidth compositeWidth widthNegativeZero)),
   JsNumber.max0 (JsNumber.min1 (JsNumber.divide boxHeight compositeHeight heightNegativeZero))).

Local Close Scope R_scope.

(** ** The box-creation handler as it runs *)

(** What [req.body.bounds] holds: nothing truthy, an object with the
    four numbers, or another truthy value (an object that lacks one of
    the numbers, say). *)
Inductive boundsValue : Type :=
| BoundsFalsy
| BoundsNumbers (bounds : Bounds.t)
| BoundsOther.

Module Body.
Record t : Type := mk {
  labelId : field;
  labelName : option string;
  bounds : boundsValue;
  zoom : field;
  tileUrl : option string
}.
End Body.

(** How far a request has come: answered, still in the resolver's loops
    when the fuel ran out, or on a path with numbers that are NaN, for
    which [Box.t] has no values (for an empty object as bounds the
    handler goes on and answers 201 with such a box). *)
Inductive run (A : Type) : Type :=
| Answered (a : A)
| StillRunning
| NotModelled.

Arguments Answered {A} a.
Arguments StillRunning {A}.
Arguments NotModelled {A}.

(** The handler from the grid of the resolver on. *)
Definition createBox (env : Env.t) (user : option User.t) (boxes : list Box.t)
    (body : Body.t) (bounds : Bounds.t) (zoomLevel : Z) (tileGrid : Grid.t)
    : reply * list Box.t :=
  let tileSize := defaultTileSize in
  let useTileUrl := or_default_url (Body.tileUrl body) in
  let boxId := nextBoxId boxes in
  let imageInfo :=
    match produceImage env tileGrid tileSize useTileUrl boxId with
    | Returned info => Some info
    | Thrown err => None
    end in
  let yoloCoords := calculateYoloForComposite bounds tileGrid zoomLevel tileSize in
  let newBox :=
    Box.mk boxId (Body.labelId body) (Body.labelName body) bounds
      zoomLevel useTileUrl
      (map (fun t => Tile.mk (Tile.x t) (Tile.y t) (Tile.z t)) (Grid.tiles tileGrid))
      (Grid.gridWidth tileGrid, Grid.gridHeight tileGrid,
       Grid.minX tileGrid, Grid.minY tileGrid)
      (option_map ImageInfo.path imageInfo)
      (option_map (fun i => (ImageInfo.width i, ImageInfo.height i)) imageInfo)
      yoloCoords user (Env.isoNow env) in
  (Status201 newBox, (boxes ++ [newBox])%list).

(** [POST /api/boxes] with the resolver run on its double counters. *)
Definition runPostBoxes (fuel : nat) (env : Env.t) (user : option User.t)
    (boxes : list Box.t) (body : Body.t) : run (reply * list Box.t) :=
  if falsy (Body.labelId body) || falsy_string (Body.labelName body)
  then Answered (Status400 "labelId, labelName und bounds sind erforderlich", boxes)
  else
    match Body.bounds body with
    | BoundsFalsy =>
        Answered (Status400 "labelId, labelName und bounds sind erforderlich", boxes)
    | BoundsOther => NotModelled
    | BoundsNumbers bounds =>
        let zoomLevel := or_default (Body.zoom body) 14 in
        match runGetTilesForBounds fuel bounds zoomLevel with
        | Some tileGrid => Answered (createBox env user boxes body bounds zoomLevel tileGrid)
        | None => StillRunning
        end
    end.

(** The request of a body whose bounds are numbers. *)
Definition requestOf (body : Body.t) (bounds : Bounds.t) : Request.t :=
  Request.mk (Body.labelId body) (Body.labelName body) (Some bounds)
    (Body.zoom body) (Body.tileUrl body).

Definition exampleBody : Body.t :=
  Body.mk (Num 1) (Some "car") (BoundsNumbers exampleBounds) (Num 14) None.

(** The box that the example becomes without network. *)
Definition exampleBox : Box.t :=
  Box.mk 1 (Num 1) (Some "car") exampleBounds 14 DEFAULT_TILE_URL
    [Tile.mk 8647 5555 14; Tile.mk 8647 5556 14] (1, 2, 8647, 5555)%Z
    (Some "/saved_tiles/box_1_0.jpg") (Some (256, 512)%Z)
    (calculateYoloForComposite exampleBounds exampleGrid 14 256)
    None "1970-01-01T00:00:00.000Z".

Local Open Scope R_scope.

(** * Properties *)

(** ** Arithmetic of [JsMath] *)

Lemma round_nearest (v : R) : nearest (JsMath.round v) v.
Proof.
  unfold nearest, JsMath.round.
  pose proof (Zfloor_bound (v + / 2)) as [Hlo Hhi].
  apply Rabs_le. lra.
Qed.

Lemma clamp01_bounds (v : R) : 0 <= clamp01 v <= 1.
Proof.
  unfold clamp01, Rmax, Rmin.
  destruct (Rle_dec 1 v); destruct (Rle_dec 0 _); lra.
Qed.

Lemma pow2_pos (zoom : Z) : 0 < JsMath.pow2 zoom.
Proof. unfold JsMath.pow2. apply powerRZ_lt. lra. Qed.

(** ** The loops of the resolver *)

Lemma upFrom_S (lo : Z) (count : nat) :
  upFrom lo (S count) = lo :: upFrom (lo + 1) count.
Proof.
  unfold upFrom. simpl. rewrite Z.add_0_r. f_equal.
  rewrite <- seq_shift, map_map.
  apply map_ext. intros i. lia.
Qed.

Lemma for_steps_collect {A : Type} (f : Z -> list A) (count : nat) :
  forall (lo : Z) (acc : list A),
    for_steps count lo (fun i s => s ++ f i)%list acc
    = (acc ++ flat_map f (upFrom lo count))%list.
Proof.
  induction count as [|count IH]; intros lo acc.
  - simpl. now rewrite app_nil_r.
  - rewrite upFrom_S. simpl. rewrite IH. now rewrite <- app_assoc.
Qed.

Lemma for_steps_ext {S : Type} (body body' : Z -> S -> S) (count : nat) :
  (forall i s, body i s = body' i s) ->
  forall lo s, for_steps count lo body s = for_steps count lo body' s.
Proof.
  intros Hext. induction count as [|count IH]; intros lo s; simpl.
  - reflexivity.
  - now rewrite Hext, IH.
Qed.

Lemma flat_map_singleton {A B : Type} (f : A -> B) (l : list A) :
  flat_map (fun a => [f a]) l = map f l.
Proof. induction l; simpl; congruence. Qed.

Lemma loops_enumerate (minX maxX minY maxY zoom : Z) :
  for_le minX maxX (fun x tiles =>
    for_le minY maxY (fun y tiles => tiles ++ [Tile.mk x y zoom])%list tiles) []
  = rectangle minX maxX minY maxY zoom.
Proof.
  unfold for_le, rectangle, range.
  rewrite for_steps_ext with
    (body' := fun x s =>
       (s ++ map (fun y => Tile.mk x y zoom)
                 (upFrom minY (Z.to_nat (maxY - minY + 1))))%list).
  - now rewrite for_steps_collect.
  - intros x s.
    rewrite (for_steps_collect (fun y => [Tile.mk x y zoom])).
    now rewrite flat_map_singleton.
Qed.

Lemma upFrom_length (lo : Z) (count : nat) : List.length (upFrom lo count) = count.
Proof. unfold upFrom. now rewrite length_map, length_seq. Qed.

Lemma upFrom_In (lo : Z) (count : nat) (v : Z) :
  In v (upFrom lo count) <-> (lo <= v < lo + Z.of_nat count)%Z.
Proof.
  unfold upFrom. rewrite in_map_iff. split.
  - intros [i [<- Hi]]. apply in_seq in Hi. lia.
  - intros Hv. exists (Z.to_nat (v - lo)). split; [lia|].
    apply in_seq. lia.
Qed.


Lemma range_In (lo hi v : Z) : In v (range lo hi) <-> (lo <= v <= hi)%Z.
Proof. unfold range. rewrite upFrom_In. lia. Qed.

Lemma rectangle_length (minX maxX minY maxY zoom : Z) :
  (minX <= maxX)%Z -> (minY <= maxY)%Z ->
  Z.of_nat (List.length (rectangle minX maxX minY maxY zoom))
  = ((maxX - minX + 1) * (maxY - minY + 1))%Z.
Proof.
  intros HX HY. unfold rectangle.
  rewrite flat_map_constant_length with (c := Z.to_nat (maxY - minY + 1)).
  - unfold range. rewrite upFrom_length. lia.
  - intros x _. unfold range. now rewrite length_map, upFrom_length.
Qed.

Lemma rectangle_In (minX maxX minY maxY zoom : Z) (t : Tile.t) :
  In t (rectangle minX maxX minY maxY zoom) <->
  (minX <= Tile.x t <= maxX)%Z /\ (minY <= Tile.y t <= maxY)%Z /\ Tile.z t = zoom.
Proof.
  unfold rectangle. rewrite in_flat_map. split.
  - intros [x [Hx Ht]]. apply in_map_iff in Ht as [y [<- Hy]].
    apply range_In in Hx, Hy. simpl. auto.
  - intros [Hx [Hy Hz]]. exists (Tile.x t). split; [now apply range_In|].
    apply in_map_iff. exists (Tile.y t). split; [|now apply range_In].
    destruct t; simpl in *. congruence.
Qed.


(** ** Coordinate transform *)

Lemma tile_x_lng (lat lng : R) (zoom : Z) :
  Tile.x (latLngToTile lat lng zoom)
  = JsMath.floor ((lng + 180) / 360 * JsMath.pow2 zoom).
Proof. reflexivity. Qed.

Lemma tile_y_lat (lat lng : R) (zoom : Z) :
  Tile.y (latLngToTile lat lng zoom)
  = JsMath.floor ((1 - JsMath.asinh (tan (lat * PI / 180)) / PI) / 2 * JsMath.pow2 zoom).
Proof. reflexivity. Qed.

(** C10: for a positive tile size the tile index is the floor of the
    global pixel coordinate divided by the tile size, on both axes, at
    every latitude, longitude and zoom level (exact real arithmetic). *)
Theorem tile_is_floor_of_global_pixel (lat lng : R) (zoom tileSize : Z) :
  (0 < tileSize)%Z ->
  Tile.x (latLngToTile lat lng zoom)
  = JsMath.floor (Pixel.globalX (latLngToGlobalPixel lat lng zoom tileSize) / IZR tileSize)
  /\
  Tile.y (latLngToTile lat lng zoom)
  = JsMath.floor (Pixel.globalY (latLngToGlobalPixel lat lng zoom tileSize) / IZR tileSize).
Proof.
  intros Hts. apply IZR_lt in Hts.
  unfold latLngToTile, latLngToGlobalPixel. simpl.
  pose proof PI_RGT_0 as Hpi.
  split; f_equal; field; try split; lra.
Qed.

Lemma tile_is_floor_of_global_pixel_witness :
  Tile.x (latLngToTile 0 0 0) = JsMath.floor (Pixel.globalX (latLngToGlobalPixel 0 0 0 256) / 256)
  /\
  Tile.y (latLngToTile 0 0 0) = JsMath.floor (Pixel.globalY (latLngToGlobalPixel 0 0 0 256) / 256).
Proof. apply (tile_is_floor_of_global_pixel 0 0 0 256). lia. Defined.

(** ** Tile grid resolver *)

Lemma getTilesForBounds_tiles (bounds : Bounds.t) (zoom : Z) :
  Grid.tiles (getTilesForBounds bounds zoom)
  = rectangle (Grid.minX (getTilesForBounds bounds zoom))
              (Grid.maxX (getTilesForBounds bounds zoom))
              (Grid.minY (getTilesForBounds bounds zoom))
              (Grid.maxY (getTilesForBounds bounds zoom)) zoom.
Proof. unfold getTilesForBounds. simpl. apply loops_enumerate. Qed.

(** C2: exchanging south with north, west with east, or both, leaves the
    resolved grid unchanged: the same extremes, the same width and
    height and the same tile sequence in the same order. *)
Theorem getTilesForBounds_swap (bounds : Bounds.t) (zoom : Z) :
  getTilesForBounds (Bounds.swapLat bounds) zoom = getTilesForBounds bounds zoom
  /\ getTilesForBounds (Bounds.swapLng bounds) zoom = getTilesForBounds bounds zoom
  /\ getTilesForBounds (Bounds.swapLat (Bounds.swapLng bounds)) zoom
     = getTilesForBounds bounds zoom.
Proof.
  destruct bounds as [s w n e].
  unfold getTilesForBounds, Bounds.swapLat, Bounds.swapLng. simpl.
  set (xw := JsMath.floor ((w + 180) / 360 * JsMath.pow2 zoom)).
  set (xe := JsMath.floor ((e + 180) / 360 * JsMath.pow2 zoom)).
  set (ys := JsMath.floor ((1 - JsMath.asinh (tan (s * PI / 180)) / PI) / 2 * JsMath.pow2 zoom)).
  set (yn := JsMath.floor ((1 - JsMath.asinh (tan (n * PI / 180)) / PI) / 2 * JsMath.pow2 zoom)).
  rewrite (Z.min_comm yn ys), (Z.max_comm yn ys).
  rewrite (Z.min_comm xe xw), (Z.max_comm xe xw).
  repeat split.
Qed.


(** ** Annotation projector *)

(** C1: the projector subtracts the grid origin from the global pixels
    of the south-west and north-east corners, takes the top edge from
    the north-east corner and the bottom edge from the south-west one,
    and returns the centre and the extent, each divided by the composite
    width or height and clamped to the unit interval, with the pixel
    rectangle (each corner coordinate to the nearest pixel, not
    clamped). *)
Theorem calculateYoloForComposite_spec
    (bounds : Bounds.t) (tileGrid : Grid.t) (zoom tileSize : Z) :
  let yolo := calculateYoloForComposite bounds tileGrid zoom tileSize in
  let x1 := Projection.x1 bounds tileGrid zoom tileSize in
  let x2 := Projection.x2 bounds tileGrid zoom tileSize in
  let y1 := Projection.y1 bounds tileGrid zoom tileSize in
  let y2 := Projection.y2 bounds tileGrid zoom tileSize in
  let w := Projection.imageWidth tileGrid tileSize in
  let h := Projection.imageHeight tileGrid tileSize in
  Yolo.width yolo = clamp01 (Rabs (x2 - x1) / w)
  /\ Yolo.height yolo = clamp01 (Rabs (y2 - y1) / h)
  /\ Yolo.x_center yolo = clamp01 ((x1 + x2) / 2 / w)
  /\ Yolo.y_center yolo = clamp01 ((y1 + y2) / 2 / h)
  /\ Yolo.pixel yolo
     = PixelRect.mk (JsMath.round x1) (JsMath.round y1)
                    (JsMath.round x2) (JsMath.round y2)
  /\ nearest (PixelRect.x1 (Yolo.pixel yolo)) x1
  /\ nearest (PixelRect.y1 (Yolo.pixel yolo)) y1
  /\ nearest (PixelRect.x2 (Yolo.pixel yolo)) x2
  /\ nearest (PixelRect.y2 (Yolo.pixel yolo)) y2.
Proof.
  unfold calculateYoloForComposite, Projection.x1, Projection.x2, Projection.y1,
    Projection.y2, Projection.imageWidth, Projection.imageHeight,
    Projection.originX, Projection.originY, Projection.swCorner,
    Projection.neCorner, clamp01, JsMath.abs.
  cbv zeta. simpl. rewrite !mult_IZR.
  repeat split; apply round_nearest.
Qed.

(** North is up: for a box given in order, below the poles, the corner
    coordinates that the projector calls [x1], [y1] are the left and the
    top edge, so that the extent needs no absolute value there. *)
Lemma mercator_monotone (south north : R) :
  -90 < south -> south <= north -> north < 90 ->
  mercator south <= mercator north.
Proof.
  intros Hs [Hlt | ->] Hn; [|lra].
  pose proof PI_RGT_0 as Hpi.
  unfold mercator, JsMath.asinh.
  apply Rmult_le_compat_r; [left; now apply Rinv_0_lt_compat|].
  left. apply arcsinh_lt. apply tan_increasing; nra.
Qed.

Lemma projection_orientation
    (bounds : Bounds.t) (tileGrid : Grid.t) (zoom tileSize : Z) :
  (0 <= tileSize)%Z ->
  -90 < Bounds.south bounds -> Bounds.south bounds <= Bounds.north bounds ->
  Bounds.north bounds < 90 -> Bounds.west bounds <= Bounds.east bounds ->
  Projection.x1 bounds tileGrid zoom tileSize <= Projection.x2 bounds tileGrid zoom tileSize
  /\ Projection.y1 bounds tileGrid zoom tileSize <= Projection.y2 bounds tileGrid zoom tileSize.
Proof.
  intros Hts Hs Hsn Hn Hwe. apply IZR_le in Hts.
  pose proof (pow2_pos zoom) as Hpow.
  pose proof (mercator_monotone _ _ Hs Hsn Hn) as Hm.
  unfold Projection.x1, Projection.x2, Projection.y1, Projection.y2,
    Projection.swCorner, Projection.neCorner, latLngToGlobalPixel.
  cbn [Pixel.globalX Pixel.globalY].
  fold (mercator (Bounds.south bounds)). fold (mercator (Bounds.north bounds)).
  set (scale := JsMath.pow2 zoom * IZR tileSize).
  assert (Hscale : 0 <= scale) by (unfold scale; nra).
  split.
  - replace ((Bounds.west bounds + 180) / 360 * JsMath.pow2 zoom * IZR tileSize)
      with ((Bounds.west bounds + 180) / 360 * scale) by (unfold scale; ring).
    replace ((Bounds.east bounds + 180) / 360 * JsMath.pow2 zoom * IZR tileSize)
      with ((Bounds.east bounds + 180) / 360 * scale) by (unfold scale; ring).
    nra.
  - replace ((1 - mercator (Bounds.north bounds)) / 2 * JsMath.pow2 zoom * IZR tileSize)
      with ((1 - mercator (Bounds.north bounds)) / 2 * scale) by (unfold scale; ring).
    replace ((1 - mercator (Bounds.south bounds)) / 2 * JsMath.pow2 zoom * IZR tileSize)
      with ((1 - mercator (Bounds.south bounds)) / 2 * scale) by (unfold scale; ring).
    nra.
Qed.

(** ** Tile fetcher *)

Lemma downloadTile_outcome (env : Env.t) (z x y : Z) (template : string) :
  downloadTile env z x y template
  = match Env.fetch env (tileRequestUrl env z x y template) with
    | Returned response =>
        if Response.ok response
        then match Response.arrayBuffer response with
             | Returned body => Returned body
             | Thrown _ => Env.sharp env placeholderJob
             end
        else Env.sharp env placeholderJob
    | Thrown _ => Env.sharp env placeholderJob
    end.
Proof.
  unfold downloadTile, try_catch, bind.
  destruct (Env.fetch env _) as [response|e]; [|reflexivity].
  destruct (Response.ok response); simpl; [|reflexivity].
  now destruct (Response.arrayBuffer response).
Qed.

Lemma downloadTile_returns (env : Env.t) (placeholder : buffer) :
  Env.sharp env placeholderJob = Returned placeholder ->
  forall z x y template, exists raster, downloadTile env z x y template = Returned raster.
Proof.
  intros Hph z x y template. rewrite downloadTile_outcome.
  destruct (Env.fetch env _) as [response|e]; [|eauto].
  destruct (Response.ok response); [|eauto].
  destruct (Response.arrayBuffer response); eauto.
Qed.

Lemma promise_all_fetchTile (env : Env.t) (placeholder : buffer) (tileUrl : string) :
  Env.sharp env placeholderJob = Returned placeholder ->
  forall tiles, exists tileBuffers,
    promise_all (fetchTile env tileUrl) tiles = Returned tileBuffers
    /\ map TileBuffer.tile tileBuffers = tiles.
Proof.
  intros Hph. induction tiles as [|tile tiles [tbs [IH1 IH2]]]; simpl.
  - exists []. auto.
  - unfold fetchTile at 1.
    destruct (downloadTile_returns env placeholder Hph
                (Tile.z tile) (Tile.x tile) (Tile.y tile) tileUrl) as [raster ->].
    simpl. rewrite IH1. simpl.
    exists (TileBuffer.mk tile raster :: tbs). simpl. now rewrite IH2.
Qed.

Lemma promise_all_tiles (env : Env.t) (tileUrl : string) :
  forall tiles tileBuffers,
    promise_all (fetchTile env tileUrl) tiles = Returned tileBuffers ->
    map TileBuffer.tile tileBuffers = tiles.
Proof.
  induction tiles as [|tile tiles IH]; simpl; intros tbs H.
  - now inversion H.
  - unfold fetchTile at 1 in H.
    destruct (downloadTile env _ _ _ tileUrl) as [raster|e]; simpl in H; [|discriminate].
    destruct (promise_all (fetchTile env tileUrl) tiles) as [rest|e]; simpl in H;
      [|discriminate].
    inversion H; subst. simpl. now rewrite (IH rest).
Qed.

(** C4: provided the image library can build the constant grey tile,
    the fetcher returns a raster for every tile coordinate and URL
    template; when the request meets a network error, a response that
    is not a success or an unreadable body, that raster is the solid
    256 x 256 placeholder, the tile size of the handler; and fetching N
    tiles yields N rasters, one per tile and in order. *)
Theorem downloadTile_never_fails (env : Env.t) (placeholder : buffer) :
  Env.sharp env placeholderJob = Returned placeholder ->
  (forall z x y template,
      exists raster, downloadTile env z x y template = Returned raster)
  /\ (forall z x y template,
      fetch_failed env (tileRequestUrl env z x y template) ->
      downloadTile env z x y template = Returned placeholder)
  /\ (Sharp.width placeholderJob = defaultTileSize
      /\ Sharp.height placeholderJob = defaultTileSize
      /\ Sharp.background placeholderJob = (50, 50, 60)%Z
      /\ Sharp.composite placeholderJob = [])
  /\ (forall tiles tileUrl, exists tileBuffers,
      promise_all (fetchTile env tileUrl) tiles = Returned tileBuffers
      /\ List.length tileBuffers = List.length tiles
      /\ map TileBuffer.tile tileBuffers = tiles).
Proof.
  intros Hph. split; [|split; [|split]].
  - now apply downloadTile_returns with placeholder.
  - intros z x y template Hfail. rewrite downloadTile_outcome.
    unfold fetch_failed in Hfail.
    destruct (Env.fetch env _) as [response|e]; [|exact Hph].
    destruct Hfail as [-> | [message Hbody]]; [exact Hph|].
    rewrite Hbody. now destruct (Response.ok response).
  - repeat split.
  - intros tiles tileUrl.
    destruct (promise_all_fetchTile env placeholder tileUrl Hph tiles) as [tbs [H1 H2]].
    exists tbs. repeat split; auto.
    rewrite <- H2. now rewrite length_map.
Qed.

Lemma downloadTile_never_fails_witness :
  Env.sharp offlineEnv placeholderJob = Returned []
  /\ fetch_failed offlineEnv (tileRequestUrl offlineEnv 14 8647 5556 DEFAULT_TILE_URL)
  /\ downloadTile offlineEnv 14 8647 5556 DEFAULT_TILE_URL = Returned [].
Proof.
  split; [reflexivity|]. split; [exact I|].
  destruct (downloadTile_never_fails offlineEnv [] eq_refl) as [_ [Hplaceholder _]].
  apply Hplaceholder. exact I.
Defined.

(** ** Compositor *)

(** C5: an image that the compositor produces is [gridWidth * tileSize]
    wide and [gridHeight * tileSize] high, and was encoded from a canvas
    of that size on which the raster of every tile lies at
    [((x - minX) * tileSize, (y - minY) * tileSize)]. *)
Theorem createCompositeImage_layout
    (env : Env.t) (tileGrid : Grid.t) (tileSize : Z) (tileUrl : string)
    (image : Composite.t) :
  createCompositeImage env tileGrid tileSize tileUrl = Returned image ->
  Composite.width image = (Grid.gridWidth tileGrid * tileSize)%Z
  /\ Composite.height image = (Grid.gridHeight tileGrid * tileSize)%Z
  /\ exists tileBuffers,
      map TileBuffer.tile tileBuffers = Grid.tiles tileGrid
      /\ promise_all (fetchTile env tileUrl) (Grid.tiles tileGrid) = Returned tileBuffers
      /\ Env.sharp env
           (Sharp.mkJob (Grid.gridWidth tileGrid * tileSize)
              (Grid.gridHeight tileGrid * tileSize) 3 (0, 0, 0)%Z
              (map (fun tb =>
                      Sharp.mkOverlay (TileBuffer.buffer tb)
                        ((Tile.x (TileBuffer.tile tb) - Grid.minX tileGrid) * tileSize)
                        ((Tile.y (TileBuffer.tile tb) - Grid.minY tileGrid) * tileSize))
                   tileBuffers)
              (Some 90%Z))
         = Returned (Composite.buffer image).
Proof.
  unfold createCompositeImage. intros H.
  destruct (promise_all (fetchTile env tileUrl) (Grid.tiles tileGrid))
    as [tbs|e] eqn:Hall; simpl in H; [|discriminate].
  destruct (Env.sharp env _) as [encoded|e] eqn:Hsharp; simpl in H; [|discriminate].
  inversion H; subst; simpl. repeat split.
  exists tbs. split; [|split].
  - now apply promise_all_tiles with env tileUrl.
  - reflexivity.
  - exact Hsharp.
Qed.

Lemma createCompositeImage_layout_witness :
  createCompositeImage offlineEnv singleTileGrid 256 DEFAULT_TILE_URL
  = Returned (Composite.mk [] 256 256)
  /\ Composite.width (Composite.mk [] 256 256) = (Grid.gridWidth singleTileGrid * 256)%Z
  /\ Composite.height (Composite.mk [] 256 256) = (Grid.gridHeight singleTileGrid * 256)%Z.
Proof.
  split; [reflexivity|].
  destruct (createCompositeImage_layout offlineEnv singleTileGrid 256 DEFAULT_TILE_URL
              (Composite.mk [] 256 256) eq_refl) as [Hwidth [Hheight _]].
  split; assumption.
Defined.


(** ** The box-creation handler *)

Lemma tiles_copy (tiles : list Tile.t) :
  map (fun t => Tile.mk (Tile.x t) (Tile.y t) (Tile.z t)) tiles = tiles.
Proof.
  induction tiles as [|[x y z] tiles IH]; simpl; [reflexivity|]. now rewrite IH.
Qed.

Lemma produceImage_throws (env : Env.t) (tileGrid : Grid.t) (tileSize : Z)
    (useTileUrl : string) (boxId : Z) (message : string) :
  createCompositeImage env tileGrid tileSize useTileUrl = Thrown message ->
  produceImage env tileGrid tileSize useTileUrl boxId = Thrown message.
Proof. intros H. unfold produceImage. now rewrite H. Qed.

Lemma createCompositeImage_brokenEncoder (tileGrid : Grid.t) (tileSize : Z)
    (tileUrl : string) :
  createCompositeImage brokenEncoderEnv tileGrid tileSize tileUrl
  = Thrown "Input buffer contains unsupported image format".
Proof.
  unfold createCompositeImage.
  destruct (promise_all_fetchTile brokenEncoderEnv [] tileUrl eq_refl
              (Grid.tiles tileGrid)) as [tbs [-> _]].
  reflexivity.
Qed.

(** C8: when the compositor throws during a box-creation request that
    carries a label id, a label name and bounds, the request is still
    answered with 201: the box is stored with no image and no image
    size, and with the annotation projected from its bounds. *)
Theorem postBoxes_survives_composite_failure
    (env : Env.t) (user : option User.t) (boxes : list Box.t) (req : Request.t)
    (bounds : Bounds.t) (message : string) :
  falsy (Request.labelId req) = false ->
  falsy_string (Request.labelName req) = false ->
  Request.bounds req = Some bounds ->
  createCompositeImage env
    (getTilesForBounds bounds (or_default (Request.zoom req) 14))
    defaultTileSize (or_default_url (Request.tileUrl req)) = Thrown message ->
  exists newBox,
    postBoxes env user boxes req = (Status201 newBox, (boxes ++ [newBox])%list)
    /\ Box.image newBox = None
    /\ Box.imageSize newBox = None
    /\ Box.yolo newBox
       = calculateYoloForComposite bounds
           (getTilesForBounds bounds (or_default (Request.zoom req) 14))
           (or_default (Request.zoom req) 14) defaultTileSize.
Proof.
  intros Hid Hname Hbounds Hfail.
  unfold postBoxes. rewrite Hid, Hname, Hbounds. simpl.
  rewrite (produceImage_throws _ _ _ _ _ _ Hfail). simpl.
  eexists. repeat split.
Qed.

Lemma postBoxes_survives_composite_failure_witness :
  exists newBox,
    postBoxes brokenEncoderEnv None [] (exampleRequest (Num 14))
    = (Status201 newBox, [newBox])
    /\ Box.image newBox = None
    /\ Box.imageSize newBox = None
    /\ Box.yolo newBox
       = calculateYoloForComposite originBounds (getTilesForBounds originBounds 14)
           14 defaultTileSize.
Proof.
  apply (postBoxes_survives_composite_failure brokenEncoderEnv None []
           (exampleRequest (Num 14)) originBounds
           "Input buffer contains unsupported image format");
    try reflexivity.
  apply createCompositeImage_brokenEncoder.
Defined.

(** C9: a box-creation request whose zoom is missing, [null] or 0 is
    resolved and projected at zoom level 14; the box records zoom 14,
    the tiles of the grid at zoom 14 and the annotation at zoom 14. *)
Theorem postBoxes_default_zoom
    (env : Env.t) (user : option User.t) (boxes : list Box.t) (req : Request.t)
    (bounds : Bounds.t) :
  falsy (Request.labelId req) = false ->
  falsy_string (Request.labelName req) = false ->
  Request.bounds req = Some bounds ->
  Request.zoom req = Absent \/ Request.zoom req = Null \/ Request.zoom req = Num 0 ->
  exists newBox,
    postBoxes env user boxes req = (Status201 newBox, (boxes ++ [newBox])%list)
    /\ Box.zoom newBox = 14%Z
    /\ Box.tiles newBox = Grid.tiles (getTilesForBounds bounds 14)
    /\ Box.tileGrid newBox
       = (Grid.gridWidth (getTilesForBounds bounds 14),
          Grid.gridHeight (getTilesForBounds bounds 14),
          Grid.minX (getTilesForBounds bounds 14),
          Grid.minY (getTilesForBounds bounds 14))
    /\ Box.yolo newBox
       = calculateYoloForComposite bounds (getTilesForBounds bounds 14) 14 defaultTileSize
    /\ Box.image newBox
       = option_map ImageInfo.path
           match produceImage env (getTilesForBounds bounds 14) defaultTileSize
                   (or_default_url (Request.tileUrl req)) (nextBoxId boxes) with
           | Returned info => Some info
           | Thrown _ => None
           end.
Proof.
  intros Hid Hname Hbounds Hzoom.
  assert (Hz : or_default (Request.zoom req) 14 = 14%Z)
    by (destruct Hzoom as [-> | [-> | ->]]; reflexivity).
  unfold postBoxes. rewrite Hid, Hname, Hbounds, Hz. simpl.
  eexists. split; [reflexivity|]. simpl. rewrite tiles_copy.
  repeat split.
Qed.

Lemma postBoxes_default_zoom_witness :
  exists newBox,
    postBoxes offlineEnv None [] (exampleRequest (Num 0)) = (Status201 newBox, [newBox])
    /\ Box.zoom newBox = 14%Z.
Proof.
  destruct (postBoxes_default_zoom offlineEnv None [] (exampleRequest (Num 0))
              originBounds eq_refl eq_refl eq_refl (or_intror (or_intror eq_refl)))
    as [newBox [Hreply [Hzoom _]]].
  exists newBox. split; assumption.
Defined.

(** A zoom level other than 0 is used as given. *)
Lemma postBoxes_given_zoom
    (env : Env.t) (user : option User.t) (boxes : list Box.t) (req : Request.t)
    (bounds : Bounds.t) (level : Z) :
  falsy (Request.labelId req) = false ->
  falsy_string (Request.labelName req) = false ->
  Request.bounds req = Some bounds ->
  Request.zoom req = Num level -> level <> 0%Z ->
  exists newBox,
    postBoxes env user boxes req = (Status201 newBox, (boxes ++ [newBox])%list)
    /\ Box.zoom newBox = level
    /\ Box.tiles newBox = Grid.tiles (getTilesForBounds bounds level).
Proof.
  intros Hid Hname Hbounds Hzoom Hlevel.
  assert (Hz : or_default (Request.zoom req) 14 = level).
  { rewrite Hzoom. simpl. now destruct (Z.eqb_spec level 0). }
  unfold postBoxes. rewrite Hid, Hname, Hbounds, Hz. simpl.
  eexists. split; [reflexivity|]. simpl. now rewrite tiles_copy.
Qed.

(** A request without label id, label name or bounds is refused and
    stores nothing. *)
Lemma postBoxes_refuses
    (env : Env.t) (user : option User.t) (boxes : list Box.t) (req : Request.t) :
  falsy (Request.labelId req) = true
  \/ falsy_string (Request.labelName req) = true
  \/ Request.bounds req = None ->
  exists error, postBoxes env user boxes req = (Status400 error, boxes).
Proof.
  intros H. unfold postBoxes.
  destruct (falsy (Request.labelId req)); simpl; [eauto|].
  destruct (falsy_string (Request.labelName req)); simpl; [eauto|].
  destruct (Request.bounds req); [|eauto].
  destruct H as [H | [H | H]]; discriminate.
Qed.

Example or_default_zero : or_default (Num 0) 14 = 14%Z.
Proof. reflexivity. Qed.

Example or_default_given : or_default (Num 12) 14 = 12%Z.
Proof. reflexivity. Qed.

Example nextBoxId_first : nextBoxId [] = 1%Z.
Proof. reflexivity. Qed.

Example tileRequestUrl_default :
  tileRequestUrl offlineEnv 14 8647 5556 DEFAULT_TILE_URL
  = "https://tiles.maps.eox.at/wmts/1.0.0/s2cloudless_3857/default/GoogleMapsCompatible/14/5556/8647.jpg"%string.
Proof. reflexivity. Qed.

(** ** Enclosures of [exp], [sin], [cos] and of the Mercator ordinate *)

Lemma exp_term_decreasing (x : R) : 0 <= x <= 1 -> Un_decreasing (exp_term x).
Proof.
  intros [H0 H1] k. unfold exp_term.
  assert (Hk : 0 < INR (fact k)) by apply INR_fact_lt_0.
  assert (HSk : 0 < INR (fact (S k))) by apply INR_fact_lt_0.
  assert (Hpow : 0 <= x ^ k) by now apply pow_le.
  assert (Hle : INR (fact k) <= INR (fact (S k))).
  { apply le_INR, fact_le. lia. }
  apply Rle_trans with (x ^ k / INR (fact (S k))).
  - apply Rmult_le_compat_r; [left; now apply Rinv_0_lt_compat|].
    simpl. rewrite <- (Rmult_1_l (x ^ k)) at 2.
    apply Rmult_le_compat_r; assumption.
  - apply Rmult_le_compat_l; [assumption|].
    now apply Rinv_le_contravar.
Qed.

Lemma exp_term_cv (x : R) : Un_cv (exp_term x) 0.
Proof. exact (cv_speed_pow_fact x). Qed.

Lemma exp_neg_series (x : R) :
  Un_cv (fun n => sum_f_R0 (tg_alt (exp_term x)) n) (exp (- x)).
Proof.
  unfold exp. destruct (exist_exp (- x)) as [l Hl]. simpl.
  unfold exp_in, infinite_sum in Hl.
  intros eps Heps. destruct (Hl eps Heps) as [n0 Hn0].
  exists n0. intros n Hn.
  replace (sum_f_R0 (tg_alt (exp_term x)) n)
    with (sum_f_R0 (fun i => / INR (fact i) * (- x) ^ i) n); [now apply Hn0|].
  apply sum_eq. intros i _. unfold tg_alt, exp_term.
  replace (- x) with (-1 * x) by ring. rewrite Rpow_mult_distr.
  unfold Rdiv. ring.
Qed.

Lemma exp_neg_bounds (x : R) (n : nat) :
  0 <= x <= 1 ->
  sum_f_R0 (tg_alt (exp_term x)) (S (2 * n)) <= exp (- x)
  <= sum_f_R0 (tg_alt (exp_term x)) (2 * n).
Proof.
  intros Hx. apply alternated_series_ineq.
  - now apply exp_term_decreasing.
  - apply exp_term_cv.
  - apply exp_neg_series.
Qed.

Lemma PI_decimal : 3141592 / 1000000 < PI < 3141593 / 1000000.
Proof.
  pose proof (PI_2_3_7_ineq 3) as [Hlo Hhi].
  unfold sum_f_R0, tg_alt, PI_2_3_7_tg, Ratan_seq in Hlo, Hhi.
  simpl in Hlo, Hhi.
  split; lra.
Qed.
Lemma arcsinh_tan (theta : R) :
  0 < cos theta -> arcsinh (tan theta) = ln ((1 + sin theta) / cos theta).
Proof.
  intros Hc. unfold arcsinh, tan. f_equal.
  replace ((sin theta / cos theta) ^ 2 + 1) with ((/ cos theta) ^ 2).
  - rewrite sqrt_pow2; [field; lra|].
    left. now apply Rinv_0_lt_compat.
  - pose proof (sin2_cos2 theta) as H. unfold Rsqr in H.
    field_simplify_eq; [|lra]. lra.
Qed.

Lemma exp_neg_half_sqr (L : R) : exp (- (L / 2)) ^ 2 = / exp L.
Proof.
  simpl. rewrite Rmult_1_r, <- exp_plus, <- exp_Ropp. f_equal. field.
Qed.

Lemma arcsinh_tan_gt (theta L : R) :
  0 < cos theta ->
  cos theta < (1 + sin theta) * exp (- (L / 2)) ^ 2 ->
  L < arcsinh (tan theta).
Proof.
  intros Hc H. rewrite arcsinh_tan by assumption.
  rewrite exp_neg_half_sqr in H.
  pose proof (exp_pos L) as HL.
  rewrite <- (ln_exp L) at 1.
  apply ln_increasing; [assumption|].
  apply Rmult_lt_reg_r with (cos theta * / exp L).
  - apply Rmult_lt_0_compat; [assumption|now apply Rinv_0_lt_compat].
  - replace (exp L * (cos theta * / exp L)) with (cos theta) by (field; lra).
    replace ((1 + sin theta) / cos theta * (cos theta * / exp L))
      with ((1 + sin theta) * / exp L) by (field; lra).
    exact H.
Qed.

Lemma ln_le_exp (v L : R) : 0 < v -> v <= exp L -> ln v <= L.
Proof.
  intros Hv [Hlt | Heq].
  - left. rewrite <- (ln_exp L). now apply ln_increasing.
  - right. rewrite Heq. apply ln_exp.
Qed.

Lemma arcsinh_tan_le (theta L : R) :
  0 < cos theta -> 0 < 1 + sin theta ->
  (1 + sin theta) * exp (- (L / 2)) ^ 2 <= cos theta ->
  arcsinh (tan theta) <= L.
Proof.
  intros Hc Hs H. rewrite arcsinh_tan by assumption.
  rewrite exp_neg_half_sqr in H.
  pose proof (exp_pos L) as HL.
  apply ln_le_exp; [apply Rdiv_lt_0_compat; assumption|].
  apply Rmult_le_reg_r with (cos theta * / exp L).
  - apply Rmult_lt_0_compat; [assumption|now apply Rinv_0_lt_compat].
  - replace (exp L * (cos theta * / exp L)) with (cos theta) by (field; lra).
    replace ((1 + sin theta) / cos theta * (cos theta * / exp L))
      with ((1 + sin theta) * / exp L) by (field; lra).
    exact H.
Qed.


Lemma INR_fact_values :
  INR (fact 0) = 1 /\ INR (fact 1) = 1 /\ INR (fact 2) = 2 /\ INR (fact 3) = 6
  /\ INR (fact 4) = 24 /\ INR (fact 5) = 120 /\ INR (fact 6) = 720
  /\ INR (fact 7) = 5040 /\ INR (fact 8) = 40320 /\ INR (fact 9) = 362880.
Proof.
  repeat split; rewrite INR_IZR_INZ; apply f_equal; vm_compute; reflexivity.
Qed.

Ltac expand_series :=
  unfold sin_approx, cos_approx, sin_term, cos_term, tg_alt, exp_term, sum_f_R0;
  cbn [Nat.mul Nat.add];
  destruct INR_fact_values as (F0 & F1 & F2 & F3 & F4 & F5 & F6 & F7 & F8 & F9);
  rewrite ?F0, ?F1, ?F2, ?F3, ?F4, ?F5, ?F6, ?F7, ?F8, ?F9.

Lemma sin_approx_3 (a : R) : sin_approx a 3 = sin_below a.
Proof. expand_series. unfold sin_below. field. Qed.

Lemma sin_approx_4 (a : R) : sin_approx a 4 = sin_above a.
Proof. expand_series. unfold sin_above, sin_below. field. Qed.

Lemma cos_approx_3 (a : R) : cos_approx a 3 = cos_below a.
Proof. expand_series. unfold cos_below. field. Qed.

Lemma cos_approx_4 (a : R) : cos_approx a 4 = cos_above a.
Proof. expand_series. unfold cos_above, cos_below. field. Qed.

Lemma exp_sum_6 (x : R) : sum_f_R0 (tg_alt (exp_term x)) 6 = exp_neg_above x.
Proof. expand_series. unfold exp_neg_above. field. Qed.

Lemma exp_sum_7 (x : R) : sum_f_R0 (tg_alt (exp_term x)) 7 = exp_neg_below x.
Proof. expand_series. unfold exp_neg_below, exp_neg_above. field. Qed.

Lemma sin_enclosure (a : R) : 0 <= a <= 3 / 2 -> sin_below a <= sin a <= sin_above a.
Proof.
  intros [H0 H1]. rewrite <- sin_approx_3, <- sin_approx_4.
  apply (pre_sin_bound a 1); lra.
Qed.

Lemma cos_enclosure (a : R) : 0 <= a <= 3 / 2 -> cos_below a <= cos a <= cos_above a.
Proof.
  intros [H0 H1]. rewrite <- cos_approx_3, <- cos_approx_4.
  apply (pre_cos_bound a 1); lra.
Qed.

Lemma exp_neg_enclosure (x : R) :
  0 <= x <= 1 -> exp_neg_below x <= exp (- x) <= exp_neg_above x.
Proof.
  intros Hx. rewrite <- exp_sum_6, <- exp_sum_7.
  apply (exp_neg_bounds x 3 Hx).
Qed.

Lemma exp_neg_decreasing (x y : R) : x <= y -> exp (- y) <= exp (- x).
Proof.
  intros [Hlt | ->]; [|lra]. left. apply exp_increasing. lra.
Qed.

Lemma mercator_above (theta lo xhi L : R) :
  0 <= lo <= theta -> theta <= 3 / 2 ->
  L / 2 <= xhi -> 0 <= xhi <= 1 ->
  0 <= exp_neg_below xhi -> 0 <= 1 + sin_below lo ->
  cos_above lo < (1 + sin_below lo) * exp_neg_below xhi ^ 2 ->
  L < arcsinh (tan theta).
Proof.
  intros [Hlo Hth] Hhi HL Hx HE HS Hmain.
  pose proof PI_decimal as [Hpi _].
  apply arcsinh_tan_gt.
  - apply cos_gt_0; lra.
  - apply Rle_lt_trans with (cos_above lo).
    + apply Rle_trans with (cos lo).
      * apply cos_decr_1; lra.
      * apply cos_enclosure; lra.
    + apply Rlt_le_trans with (1 := Hmain).
      apply Rmult_le_compat; try assumption.
      * apply pow_le; assumption.
      * apply Rplus_le_compat_l.
        apply Rle_trans with (sin lo).
        -- apply sin_enclosure; lra.
        -- apply sin_incr_1; lra.
      * apply pow_incr. split; [assumption|].
        apply Rle_trans with (exp (- xhi)).
        -- apply exp_neg_enclosure; assumption.
        -- apply exp_neg_decreasing; assumption.
Qed.

Lemma mercator_below (theta hi xlo L : R) :
  0 <= theta <= hi -> hi <= 3 / 2 ->
  0 <= xlo <= L / 2 -> xlo <= 1 ->
  (1 + sin_above hi) * exp_neg_above xlo ^ 2 <= cos_below hi ->
  arcsinh (tan theta) <= L.
Proof.
  intros [Hth Hhi] Hhi' [Hx HL] Hx1 Hmain.
  pose proof PI_decimal as [Hpi _].
  assert (Hsin : 0 <= sin theta) by (apply sin_ge_0; lra).
  apply arcsinh_tan_le.
  - apply cos_gt_0; lra.
  - lra.
  - apply Rle_trans with (cos_below hi).
    + apply Rle_trans with (2 := Hmain).
      apply Rmult_le_compat.
      * lra.
      * apply pow_le. left. apply exp_pos.
      * apply Rplus_le_compat_l.
        apply Rle_trans with (sin hi).
        -- apply sin_incr_1; lra.
        -- apply sin_enclosure; lra.
      * apply pow_incr. split; [left; apply exp_pos|].
        apply Rle_trans with (exp (- xlo)).
        -- apply exp_neg_decreasing; assumption.
        -- apply exp_neg_enclosure; lra.
    + apply Rle_trans with (cos hi).
      * apply cos_enclosure; lra.
      * apply cos_decr_1; lra.
Qed.


Lemma mercator_gt (lat c : R) :
  0 <= lat <= 85 -> 0 <= c <= 1/2 ->
  let lo := lat * (3141592 / 1000000) / 180 in
  let xhi := c * (3141593 / 1000000) / 2 in
  0 <= exp_neg_below xhi -> 0 <= 1 + sin_below lo ->
  cos_above lo < (1 + sin_below lo) * exp_neg_below xhi ^ 2 ->
  c < mercator lat.
Proof.
  intros Hlat Hc lo xhi HE HS Hmain.
  pose proof PI_decimal as [Hpi Hpi'].
  unfold mercator, JsMath.asinh.
  apply Rmult_lt_reg_r with PI; [lra|].
  replace (arcsinh (tan (lat * PI / 180)) / PI * PI)
    with (arcsinh (tan (lat * PI / 180))) by (field; lra).
  apply mercator_above with lo xhi; try assumption; unfold lo, xhi.
  - split; [lra|]. nra.
  - nra.
  - nra.
  - lra.
Qed.

Lemma mercator_le (lat c : R) :
  0 <= lat <= 85 -> 0 <= c <= 1/2 ->
  let hi := lat * (3141593 / 1000000) / 180 in
  let xlo := c * (3141592 / 1000000) / 2 in
  (1 + sin_above hi) * exp_neg_above xlo ^ 2 <= cos_below hi ->
  mercator lat <= c.
Proof.
  intros Hlat Hc hi xlo Hmain.
  pose proof PI_decimal as [Hpi Hpi'].
  unfold mercator, JsMath.asinh.
  apply Rmult_le_reg_r with PI; [lra|].
  replace (arcsinh (tan (lat * PI / 180)) / PI * PI)
    with (arcsinh (tan (lat * PI / 180))) by (field; lra).
  apply mercator_below with hi xlo; try assumption; unfold hi, xlo.
  - split; nra.
  - lra.
  - split; nra.
  - lra.
Qed.

Lemma mercator_50 : 2635 / 8192 < mercator 50 <= 2636 / 8192.
Proof.
  split.
  - apply mercator_gt; try lra;
      unfold exp_neg_below, exp_neg_above, sin_below, cos_above, cos_below; lra.
  - apply mercator_le; try lra;
      unfold exp_neg_below, exp_neg_above, sin_above, sin_below, cos_above, cos_below; lra.
Qed.

Lemma mercator_50_01 : 2636 / 8192 < mercator (5001 / 100) <= 2637 / 8192.
Proof.
  split.
  - apply mercator_gt; try lra;
      unfold exp_neg_below, exp_neg_above, sin_below, cos_above, cos_below; lra.
  - apply mercator_le; try lra;
      unfold exp_neg_below, exp_neg_above, sin_above, sin_below, cos_above, cos_below; lra.
Qed.

(** ** The worked example: bounds 50/10/50.01/10.01 at zoom 14 *)

Lemma pow2_14 : JsMath.pow2 14 = 16384.
Proof. unfold JsMath.pow2. simpl. lra. Qed.

Lemma tile_y_mercator (lat lng : R) (zoom : Z) :
  Tile.y (latLngToTile lat lng zoom)
  = JsMath.floor ((1 - mercator lat) / 2 * JsMath.pow2 zoom).
Proof. reflexivity. Qed.

Lemma example_sw_tile : latLngToTile 50 10 14 = Tile.mk 8647 5556 14.
Proof.
  pose proof mercator_50 as [Hlo Hhi].
  unfold latLngToTile. fold (mercator 50). rewrite pow2_14.
  f_equal; apply Zfloor_eq; lra.
Qed.

Lemma example_ne_tile :
  latLngToTile (5001 / 100) (1001 / 100) 14 = Tile.mk 8647 5555 14.
Proof.
  pose proof mercator_50_01 as [Hlo Hhi].
  unfold latLngToTile. fold (mercator (5001 / 100)). rewrite pow2_14.
  f_equal; apply Zfloor_eq; lra.
Qed.

Lemma example_grid :
  getTilesForBounds exampleBounds 14
  = Grid.mk [Tile.mk 8647 5555 14; Tile.mk 8647 5556 14] 1 2 8647 5555 8647 5556.
Proof.
  unfold getTilesForBounds, exampleBounds. cbn [Bounds.south Bounds.west Bounds.north Bounds.east].
  rewrite example_sw_tile, example_ne_tile. reflexivity.
Qed.

(** C7, as stated: the example does not hold with the grid shapes 2x1
    and 2x2 only. *)
Lemma workedExample_two_by_one_or_two_fails : ~ workedExample [(2, 1); (2, 2)]%Z.
Proof.
  unfold workedExample, exampleBounds.
  cbn [Bounds.south Bounds.west Bounds.north Bounds.east].
  fold exampleBounds. rewrite example_sw_tile, example_ne_tile, example_grid.
  unfold sameTile, gridSize. simpl.
  intros [[[_ H] _] | [_ [H | [H | []]]]]; discriminate.
Qed.

(** C7, amended: at zoom 14 the south-west corner of the example lies
    in tile (8647, 5556) and the north-east corner in tile (8647, 5555),
    one above the other; the resolved grid is one tile wide and two
    tiles high; so the example holds once the shape 1x2 is allowed
    beside 2x1 and 2x2. *)
Theorem workedExample_one_by_two :
  workedExample [(2, 1); (1, 2); (2, 2)]%Z
  /\ latLngToTile (Bounds.south exampleBounds) (Bounds.west exampleBounds) 14
     = Tile.mk 8647 5556 14
  /\ latLngToTile (Bounds.north exampleBounds) (Bounds.east exampleBounds) 14
     = Tile.mk 8647 5555 14
  /\ adjacentTiles (Tile.mk 8647 5556 14) (Tile.mk 8647 5555 14)
  /\ gridSize (getTilesForBounds exampleBounds 14) = (1, 2)%Z
  /\ Grid.tiles (getTilesForBounds exampleBounds 14)
     = [Tile.mk 8647 5555 14; Tile.mk 8647 5556 14].
Proof.
  assert (Hadj : adjacentTiles (Tile.mk 8647 5556 14) (Tile.mk 8647 5555 14)).
  { unfold adjacentTiles, sameTile. simpl. repeat split; lia. }
  unfold workedExample, exampleBounds.
  cbn [Bounds.south Bounds.west Bounds.north Bounds.east].
  fold exampleBounds. rewrite example_sw_tile, example_ne_tile, example_grid.
  repeat split; try apply Hadj.
  right. split; [exact Hadj|]. simpl. auto.
Qed.

(** * Properties of the rest of the two servers *)

(** ** Tile indices stay inside the pyramid *)

Lemma pow2_IZR (zoom : Z) : (0 <= zoom)%Z -> JsMath.pow2 zoom = IZR (2 ^ zoom).
Proof.
  intros Hz. unfold JsMath.pow2.
  rewrite <- (Z2Nat.id zoom) by assumption.
  rewrite <- pow_powerRZ, <- pow_IZR. reflexivity.
Qed.

Lemma floor_in_range (a : R) (n : Z) :
  0 <= a < IZR n -> (0 <= JsMath.floor a < n)%Z.
Proof.
  intros [Hlo Hhi]. unfold JsMath.floor.
  pose proof (Zfloor_bound a) as [Hfl Hfu].
  split.
  - apply (Zfloor_lub 0). exact Hlo.
  - apply lt_IZR. lra.
Qed.

Lemma arcsinh_odd (v : R) : arcsinh (- v) = - arcsinh v.
Proof.
  unfold arcsinh.
  assert (Hs : 0 < v + sqrt (v ^ 2 + 1)).
  { assert (Hv2 : 0 <= v ^ 2) by apply pow2_ge_0.
    pose proof (sqrt_lt_1 (v ^ 2) (v ^ 2 + 1) Hv2 ltac:(lra) ltac:(lra)) as H.
    replace (sqrt (v ^ 2)) with (Rabs v) in H.
    - pose proof (Rle_abs (- v)) as Ha. rewrite Rabs_Ropp in Ha. lra.
    - replace (v ^ 2) with (Rsqr v) by (unfold Rsqr; ring). now rewrite sqrt_Rsqr_abs. }
  rewrite <- ln_Rinv by assumption. f_equal.
  replace ((- v) ^ 2) with (v ^ 2) by ring.
  assert (Hsq : sqrt (v ^ 2 + 1) * sqrt (v ^ 2 + 1) = v ^ 2 + 1).
  { apply sqrt_sqrt. pose proof (pow2_ge_0 v). lra. }
  field_simplify_eq; [|lra]. nra.
Qed.

Lemma mercator_odd (lat : R) : mercator (- lat) = - mercator lat.
Proof.
  unfold mercator, JsMath.asinh.
  replace (- lat * PI / 180) with (- (lat * PI / 180)) by field.
  rewrite tan_neg, arcsinh_odd. field. apply PI_neq0.
Qed.

Lemma exp_neg_quarter (L : R) : exp (- (L / 2)) = exp (- (L / 4)) ^ 2.
Proof.
  simpl. rewrite Rmult_1_r, <- exp_plus. f_equal. field.
Qed.

Lemma mercator_85 : mercator 85 <= 9995 / 10000.
Proof.
  pose proof PI_decimal as [Hpi Hpi'].
  set (hi := 85 * (3141593 / 1000000) / 180).
  set (xlo := 9995 / 10000 * (3141592 / 1000000) / 4).
  set (L := 9995 / 10000 * PI).
  assert (Htheta : 0 <= 85 * PI / 180 <= hi) by (unfold hi; lra).
  assert (Hhi : hi <= 3 / 2) by (unfold hi; lra).
  assert (Hcos : 0 < cos (85 * PI / 180)) by (apply cos_gt_0; lra).
  assert (Hsin : 0 <= sin (85 * PI / 180)) by (apply sin_ge_0; lra).
  unfold mercator, JsMath.asinh.
  apply Rmult_le_reg_r with PI; [lra|].
  replace (arcsinh (tan (85 * PI / 180)) / PI * PI)
    with (arcsinh (tan (85 * PI / 180))) by (field; lra).
  fold L. apply arcsinh_tan_le; [assumption|lra|].
  rewrite exp_neg_quarter, <- pow_mult. change (2 * 2)%nat with 4%nat.
  apply Rle_trans with (cos_below hi).
  - apply Rle_trans with ((1 + sin_above hi) * exp_neg_above xlo ^ 4).
    + apply Rmult_le_compat.
      * lra.
      * apply pow_le. left. apply exp_pos.
      * apply Rplus_le_compat_l.
        apply Rle_trans with (sin hi).
        -- apply sin_incr_1; lra.
        -- apply sin_enclosure; lra.
      * apply pow_incr. split; [left; apply exp_pos|].
        apply Rle_trans with (exp (- xlo)).
        -- apply exp_neg_decreasing. unfold xlo, L. lra.
        -- apply exp_neg_enclosure. unfold xlo. lra.
    + unfold hi, xlo, sin_above, sin_below, cos_below, exp_neg_above. lra.
  - apply Rle_trans with (cos hi).
    + apply cos_enclosure; lra.
    + apply cos_decr_1; lra.
Qed.

Lemma mercator_safe (lat : R) : -85 <= lat <= 85 -> -1 < mercator lat < 1.
Proof.
  intros [Hlo Hhi].
  pose proof mercator_85 as H85.
  assert (Hup : mercator lat <= mercator 85) by (apply mercator_monotone; lra).
  assert (Hdown : mercator (-85) <= mercator lat) by (apply mercator_monotone; lra).
  change (mercator (-85)) with (mercator (Ropp 85)) in Hdown.
  rewrite mercator_odd in Hdown. lra.
Qed.

(** X1: for a zoom level of at least 0, a latitude between -85 and 85
    degrees and a longitude in [-180, 180), both tile indices lie in
    [0, 2^zoom). *)
Theorem latLngToTile_in_range (lat lng : R) (zoom : Z) :
  (0 <= zoom)%Z -> -85 <= lat <= 85 -> -180 <= lng < 180 ->
  (0 <= Tile.x (latLngToTile lat lng zoom) < 2 ^ zoom)%Z
  /\ (0 <= Tile.y (latLngToTile lat lng zoom) < 2 ^ zoom)%Z
  /\ Tile.z (latLngToTile lat lng zoom) = zoom.
Proof.
  intros Hz Hlat Hlng.
  pose proof (pow2_pos zoom) as Hn.
  pose proof (mercator_safe lat Hlat) as Hm.
  rewrite tile_x_lng, tile_y_mercator.
  split; [|split; [|reflexivity]]; apply floor_in_range;
    rewrite <- pow2_IZR by assumption; split; nra.
Qed.

Lemma latLngToTile_in_range_witness :
  (0 <= Tile.x (latLngToTile 50 10 14) < 2 ^ 14)%Z
  /\ (0 <= Tile.y (latLngToTile 50 10 14) < 2 ^ 14)%Z.
Proof.
  destruct (latLngToTile_in_range 50 10 14) as [Hx [Hy _]]; [lia | lra | lra |].
  split; assumption.
Defined.

(** ** The annotation on the resolved grid *)

(** A coordinate in tile units whose tile index lies in [[lo, hi]], scaled
    to pixels and taken relative to tile [lo]. *)
Lemma offset_in_span (a : R) (lo hi tileSize : Z) :
  (0 < tileSize)%Z -> (lo <= JsMath.floor a <= hi)%Z ->
  0 <= a * IZR tileSize - IZR lo * IZR tileSize < IZR (hi - lo + 1) * IZR tileSize.
Proof.
  intros Hts [Hlo Hhi]. apply IZR_lt in Hts.
  unfold JsMath.floor in *.
  pose proof (Zfloor_bound a) as [Hfl Hfu].
  apply IZR_le in Hlo, Hhi.
  rewrite plus_IZR, minus_IZR.
  replace (a * IZR tileSize - IZR lo * IZR tileSize)
    with ((a - IZR lo) * IZR tileSize) by ring.
  split.
  - apply Rmult_le_pos; lra.
  - apply Rmult_lt_compat_r; lra.
Qed.

Lemma corners_in_composite (bounds : Bounds.t) (zoom tileSize : Z) :
  (0 < tileSize)%Z ->
  let g := getTilesForBounds bounds zoom in
  0 <= Projection.x1 bounds g zoom tileSize < Projection.imageWidth g tileSize
  /\ 0 <= Projection.x2 bounds g zoom tileSize < Projection.imageWidth g tileSize
  /\ 0 <= Projection.y1 bounds g zoom tileSize < Projection.imageHeight g tileSize
  /\ 0 <= Projection.y2 bounds g zoom tileSize < Projection.imageHeight g tileSize.
Proof.
  intros Hts g.
  unfold Projection.x1, Projection.x2, Projection.y1, Projection.y2,
    Projection.imageWidth, Projection.imageHeight, Projection.originX,
    Projection.originY, Projection.swCorner, Projection.neCorner,
    latLngToGlobalPixel, g, getTilesForBounds.
  cbn [Pixel.globalX Pixel.globalY Grid.minX Grid.minY Grid.gridWidth Grid.gridHeight].
  rewrite !tile_x_lng, !tile_y_lat.
  split; [|split; [|split]]; apply offset_in_span; try assumption; lia.
Qed.

Lemma clamp01_id (v : R) : 0 <= v <= 1 -> clamp01 v = v.
Proof.
  intros [H0 H1]. unfold clamp01.
  rewrite Rmin_right by assumption. now apply Rmax_right.
Qed.

Lemma calculateYoloForComposite_fields
    (bounds : Bounds.t) (tileGrid : Grid.t) (zoom tileSize : Z) :
  let yolo := calculateYoloForComposite bounds tileGrid zoom tileSize in
  let x1 := Projection.x1 bounds tileGrid zoom tileSize in
  let x2 := Projection.x2 bounds tileGrid zoom tileSize in
  let y1 := Projection.y1 bounds tileGrid zoom tileSize in
  let y2 := Projection.y2 bounds tileGrid zoom tileSize in
  let w := Projection.imageWidth tileGrid tileSize in
  let h := Projection.imageHeight tileGrid tileSize in
  yolo = Yolo.mk (clamp01 ((x1 + x2) / 2 / w)) (clamp01 ((y1 + y2) / 2 / h))
           (clamp01 (Rabs (x2 - x1) / w)) (clamp01 (Rabs (y2 - y1) / h))
           (PixelRect.mk (JsMath.round x1) (JsMath.round y1)
                         (JsMath.round x2) (JsMath.round y2)).
Proof.
  unfold calculateYoloForComposite, Projection.x1, Projection.x2, Projection.y1,
    Projection.y2, Projection.imageWidth, Projection.imageHeight,
    Projection.originX, Projection.originY, Projection.swCorner,
    Projection.neCorner, clamp01, JsMath.abs.
  cbv zeta. now rewrite !mult_IZR.
Qed.

(** Centre and extent of two points of [[0, w)], as fractions of [w]. *)
Lemma span_fractions (a b w : R) :
  0 <= a < w -> 0 <= b < w ->
  0 <= (a + b) / 2 / w <= 1
  /\ 0 <= Rabs (b - a) / w <= 1
  /\ 0 <= (a + b) / 2 / w - Rabs (b - a) / w / 2
  /\ (a + b) / 2 / w + Rabs (b - a) / w / 2 <= 1.
Proof.
  intros [Ha Haw] [Hb Hbw].
  assert (Hw : 0 < w) by lra.
  assert (Hinv : 0 < / w) by now apply Rinv_0_lt_compat.
  assert (Habs : 0 <= Rabs (b - a) <= w).
  { split; [apply Rabs_pos|]. apply Rabs_le. lra. }
  assert (Hlow : Rabs (b - a) <= a + b).
  { apply Rabs_le. lra. }
  assert (Hhigh : a + b + Rabs (b - a) <= 2 * w).
  { unfold Rabs. destruct (Rcase_abs (b - a)); lra. }
  assert (E1 : (a + b) / 2 / w = (a + b) * / w / 2) by (field; lra).
  assert (E2 : w * / w = 1) by (field; lra).
  unfold Rdiv in *.
  repeat split; try nra.
Qed.

(** X5: on the grid that the resolver returns for the same bounds and zoom,
    with a positive tile size, the clamp never acts: the four normalized
    fields are the plain quotients. *)
Theorem resolved_annotation_unclamped (bounds : Bounds.t) (zoom tileSize : Z) :
  (0 < tileSize)%Z ->
  let g := getTilesForBounds bounds zoom in
  let yolo := calculateYoloForComposite bounds g zoom tileSize in
  let x1 := Projection.x1 bounds g zoom tileSize in
  let x2 := Projection.x2 bounds g zoom tileSize in
  let y1 := Projection.y1 bounds g zoom tileSize in
  let y2 := Projection.y2 bounds g zoom tileSize in
  let w := Projection.imageWidth g tileSize in
  let h := Projection.imageHeight g tileSize in
  Yolo.x_center yolo = (x1 + x2) / 2 / w
  /\ Yolo.y_center yolo = (y1 + y2) / 2 / h
  /\ Yolo.width yolo = Rabs (x2 - x1) / w
  /\ Yolo.height yolo = Rabs (y2 - y1) / h.
Proof.
  intros Hts g yolo x1 x2 y1 y2 w h.
  destruct (corners_in_composite bounds zoom tileSize Hts) as [Hx1 [Hx2 [Hy1 Hy2]]].
  fold g in Hx1, Hx2, Hy1, Hy2. fold x1 w in Hx1. fold x2 w in Hx2.
  fold y1 h in Hy1. fold y2 h in Hy2.
  destruct (span_fractions x1 x2 w Hx1 Hx2) as [Hxc [Hxw _]].
  destruct (span_fractions y1 y2 h Hy1 Hy2) as [Hyc [Hyh _]].
  unfold yolo. rewrite calculateYoloForComposite_fields. cbn [Yolo.x_center Yolo.y_center Yolo.width Yolo.height].
  fold x1 x2 y1 y2 w h.
  rewrite !clamp01_id by assumption. repeat split.
Qed.

(** X6: on the grid that the resolver returns, the normalized box lies inside
    the image: centre minus and plus half the extent stay in [0, 1] on
    both axes. *)
Theorem resolved_annotation_inside_image (bounds : Bounds.t) (zoom tileSize : Z) :
  (0 < tileSize)%Z ->
  let g := getTilesForBounds bounds zoom in
  let yolo := calculateYoloForComposite bounds g zoom tileSize in
  0 <= Yolo.x_center yolo - Yolo.width yolo / 2
  /\ Yolo.x_center yolo + Yolo.width yolo / 2 <= 1
  /\ 0 <= Yolo.y_center yolo - Yolo.height yolo / 2
  /\ Yolo.y_center yolo + Yolo.height yolo / 2 <= 1.
Proof.
  intros Hts g yolo.
  destruct (corners_in_composite bounds zoom tileSize Hts) as [Hx1 [Hx2 [Hy1 Hy2]]].
  fold g in Hx1, Hx2, Hy1, Hy2.
  destruct (span_fractions _ _ _ Hx1 Hx2) as [Hxc [Hxw [Hxl Hxr]]].
  destruct (span_fractions _ _ _ Hy1 Hy2) as [Hyc [Hyh [Hyl Hyr]]].
  unfold yolo. rewrite calculateYoloForComposite_fields.
  cbn [Yolo.x_center Yolo.y_center Yolo.width Yolo.height].
  rewrite !clamp01_id by assumption. repeat split; assumption.
Qed.

(** ** The tile pyramid *)

Lemma pow2_succ (zoom : Z) : JsMath.pow2 (zoom + 1) = 2 * JsMath.pow2 zoom.
Proof.
  unfold JsMath.pow2. rewrite powerRZ_add by lra. simpl. ring.
Qed.

Lemma floor_double (a : R) : (JsMath.floor (2 * a) / 2 = JsMath.floor a)%Z.
Proof.
  unfold JsMath.floor.
  pose proof (Zfloor_bound a) as [Hlo Hhi].
  pose proof (Zfloor_bound (2 * a)) as [Hlo2 Hhi2].
  assert (H1 : (2 * Zfloor a <= Zfloor (2 * a))%Z).
  { apply Zfloor_lub. rewrite mult_IZR. lra. }
  assert (H2 : (Zfloor (2 * a) < 2 * Zfloor a + 2)%Z).
  { apply lt_IZR. rewrite plus_IZR, mult_IZR. lra. }
  symmetry. apply Z.div_unique with (Zfloor (2 * a) - 2 * Zfloor a)%Z; lia.
Qed.

(** X2: the tile pyramid is consistent: halving the tile indices of a point at
    zoom + 1 gives its tile indices at zoom, at every zoom level. *)
Theorem tile_parent (lat lng : R) (zoom : Z) :
  (Tile.x (latLngToTile lat lng (zoom + 1)) / 2 = Tile.x (latLngToTile lat lng zoom))%Z
  /\ (Tile.y (latLngToTile lat lng (zoom + 1)) / 2 = Tile.y (latLngToTile lat lng zoom))%Z.
Proof.
  rewrite !tile_x_lng, !tile_y_lat, pow2_succ.
  split.
  - replace ((lng + 180) / 360 * (2 * JsMath.pow2 zoom))
      with (2 * ((lng + 180) / 360 * JsMath.pow2 zoom)) by ring.
    apply floor_double.
  - replace ((1 - JsMath.asinh (tan (lat * PI / 180)) / PI) / 2 * (2 * JsMath.pow2 zoom))
      with (2 * ((1 - JsMath.asinh (tan (lat * PI / 180)) / PI) / 2 * JsMath.pow2 zoom))
      by ring.
    apply floor_double.
Qed.

(** ** Boxes inside one tile *)

(** When both corners of a box fall into the same tile, the grid of
    [getTilesForBounds] is that single tile, 1 x 1, and the normalized
    width and height are the pixel extents of the box divided by the
    tile size. *)
Lemma box_within_one_tile (bounds : Bounds.t) (zoom tileSize : Z) :
  latLngToTile (Bounds.south bounds) (Bounds.west bounds) zoom
  = latLngToTile (Bounds.north bounds) (Bounds.east bounds) zoom ->
  (0 < tileSize)%Z ->
  let t := latLngToTile (Bounds.south bounds) (Bounds.west bounds) zoom in
  let sw := latLngToGlobalPixel (Bounds.south bounds) (Bounds.west bounds) zoom tileSize in
  let ne := latLngToGlobalPixel (Bounds.north bounds) (Bounds.east bounds) zoom tileSize in
  let yolo := calculateYoloForComposite bounds (getTilesForBounds bounds zoom) zoom tileSize in
  getTilesForBounds bounds zoom
  = Grid.mk [t] 1 1 (Tile.x t) (Tile.y t) (Tile.x t) (Tile.y t)
  /\ Yolo.width yolo = Rabs (Pixel.globalX ne - Pixel.globalX sw) / IZR tileSize
  /\ Yolo.height yolo = Rabs (Pixel.globalY sw - Pixel.globalY ne) / IZR tileSize.
Proof.
  intros Hsame Hts t sw ne yolo.
  assert (Hgrid : getTilesForBounds bounds zoom
                  = Grid.mk [t] 1 1 (Tile.x t) (Tile.y t) (Tile.x t) (Tile.y t)).
  { unfold getTilesForBounds. rewrite <- Hsame. fold t.
    assert (Hz : Tile.z t = zoom) by reflexivity.
    clearbody t.
    rewrite !Z.min_id, !Z.max_id.
    unfold for_le.
    replace (Tile.x t - Tile.x t + 1)%Z with 1%Z by lia.
    replace (Tile.y t - Tile.y t + 1)%Z with 1%Z by lia.
    simpl. destruct t as [x y z]. simpl in *. now subst. }
  split; [exact Hgrid|].
  destruct (corners_in_composite bounds zoom tileSize Hts) as [Hx1 [Hx2 [Hy1 Hy2]]].
  destruct (span_fractions _ _ _ Hx1 Hx2) as [_ [Hxw _]].
  destruct (span_fractions _ _ _ Hy1 Hy2) as [_ [Hyh _]].
  unfold yolo. rewrite calculateYoloForComposite_fields.
  cbn [Yolo.width Yolo.height]. rewrite !clamp01_id by assumption.
  unfold Projection.imageWidth, Projection.imageHeight. rewrite Hgrid.
  cbn [Grid.gridWidth Grid.gridHeight Grid.minX Grid.minY].
  unfold Projection.x1, Projection.x2, Projection.y1, Projection.y2,
    Projection.swCorner, Projection.neCorner. fold sw ne.
  split; f_equal; try (f_equal; ring); ring.
Qed.

(** ** A larger box needs at least the tiles of a smaller one *)

Lemma tile_x_monotone (lat lat' west east : R) (zoom : Z) :
  west <= east ->
  (Tile.x (latLngToTile lat west zoom) <= Tile.x (latLngToTile lat' east zoom))%Z.
Proof.
  intros H. rewrite !tile_x_lng. apply Zfloor_le.
  pose proof (pow2_pos zoom). nra.
Qed.

Lemma tile_y_antitone (south north lng lng' : R) (zoom : Z) :
  -90 < south -> south <= north -> north < 90 ->
  (Tile.y (latLngToTile north lng zoom) <= Tile.y (latLngToTile south lng' zoom))%Z.
Proof.
  intros Hs Hsn Hn. rewrite !tile_y_mercator. apply Zfloor_le.
  pose proof (pow2_pos zoom).
  pose proof (mercator_monotone south north Hs Hsn Hn). nra.
Qed.

(** X4: when a box contains another one (both in order, below the
    poles), the tiles of the inner box are among the tiles of the outer
    box. *)
Theorem getTilesForBounds_monotone (inner outer : Bounds.t) (zoom : Z) :
  -90 < Bounds.south outer -> Bounds.north outer < 90 ->
  Bounds.south outer <= Bounds.south inner ->
  Bounds.south inner <= Bounds.north inner ->
  Bounds.north inner <= Bounds.north outer ->
  Bounds.west outer <= Bounds.west inner ->
  Bounds.west inner <= Bounds.east inner ->
  Bounds.east inner <= Bounds.east outer ->
  incl (Grid.tiles (getTilesForBounds inner zoom))
       (Grid.tiles (getTilesForBounds outer zoom)).
Proof.
  intros Hs Hn Hss Hsn Hnn Hww Hwe Hee t.
  rewrite !getTilesForBounds_tiles, !rectangle_In.
  unfold getTilesForBounds. cbn [Grid.minX Grid.maxX Grid.minY Grid.maxY].
  pose proof (tile_x_monotone (Bounds.south outer) (Bounds.south inner)
                _ _ zoom Hww) as Hx1.
  pose proof (tile_x_monotone (Bounds.south inner) (Bounds.north inner)
                _ _ zoom Hwe) as Hx2.
  pose proof (tile_x_monotone (Bounds.north inner) (Bounds.north outer)
                _ _ zoom Hee) as Hx3.
  pose proof (tile_y_antitone (Bounds.south outer) (Bounds.south inner)
                (Bounds.west inner) (Bounds.west outer) zoom
                ltac:(lra) ltac:(lra) ltac:(lra)) as Hy1.
  pose proof (tile_y_antitone (Bounds.south inner) (Bounds.north inner)
                (Bounds.east inner) (Bounds.west inner) zoom
                ltac:(lra) ltac:(lra) ltac:(lra)) as Hy2.
  pose proof (tile_y_antitone (Bounds.north inner) (Bounds.north outer)
                (Bounds.east outer) (Bounds.east inner) zoom
                ltac:(lra) ltac:(lra) ltac:(lra)) as Hy3.
  rewrite !tile_x_lng in *. rewrite !tile_y_lat in *.
  lia.
Qed.

Local Close Scope R_scope.

(** ** The cells of the canvas *)

Lemma map_flat_map {A B C : Type} (f : B -> C) (g : A -> list B) (l : list A) :
  map f (flat_map g l) = flat_map (fun a => map f (g a)) l.
Proof.
  induction l as [|a l IH]; simpl; [reflexivity|].
  now rewrite map_app, IH.
Qed.

Lemma flat_map_map {A B C : Type} (f : A -> B) (g : B -> list C) (l : list A) :
  flat_map g (map f l) = flat_map (fun a => g (f a)) l.
Proof.
  induction l as [|a l IH]; simpl; [reflexivity|]. now rewrite IH.
Qed.

Lemma upFrom_shift (lo : Z) (count : nat) :
  upFrom lo count = map (fun i => (lo + i)%Z) (upFrom 0 count).
Proof.
  unfold upFrom. rewrite map_map. apply map_ext. intros i. lia.
Qed.

Lemma rectangle_offsets (minX maxX minY maxY zoom tileSize : Z) :
  map (fun t => ((Tile.x t - minX) * tileSize, (Tile.y t - minY) * tileSize)%Z)
      (rectangle minX maxX minY maxY zoom)
  = canvasCells (maxX - minX + 1) (maxY - minY + 1) tileSize.
Proof.
  unfold rectangle, canvasCells, range.
  replace (maxX - minX + 1 - 1 - 0 + 1)%Z with (maxX - minX + 1)%Z by lia.
  replace (maxY - minY + 1 - 1 - 0 + 1)%Z with (maxY - minY + 1)%Z by lia.
  rewrite map_flat_map.
  rewrite (upFrom_shift minX), flat_map_map.
  apply flat_map_ext. intros i.
  rewrite (upFrom_shift minY), !map_map.
  apply map_ext. intros j. simpl. f_equal; f_equal; lia.
Qed.

(** ** URL templates *)

Lemma prefix_app (p s : string) : String.prefix p (p ++ s) = true.
Proof.
  induction p as [|c p IH]; simpl; [now destruct s|].
  destruct (ascii_dec c c) as [_|Hne]; [exact IH|now elim Hne].
Qed.

Lemma prefix_head_mismatch (a b : ascii) (p s : string) :
  a <> b -> String.prefix (String a p) (String b s) = false.
Proof.
  intros H. cbn [String.prefix].
  destruct (ascii_dec a b); [contradiction|reflexivity].
Qed.

Lemma length_app_string (a b : string) :
  String.length (a ++ b) = (String.length a + String.length b)%nat.
Proof. induction a as [|c a IH]; simpl; [reflexivity|]. now rewrite IH. Qed.

Lemma substring_all (s : string) : String.substring 0 (String.length s) s = s.
Proof. induction s as [|c s IH]; simpl; [reflexivity|]. now rewrite IH. Qed.

Lemma substring_after (p s : string) :
  String.substring (String.length p) (String.length (p ++ s) - String.length p) (p ++ s) = s.
Proof.
  rewrite length_app_string.
  replace (String.length p + String.length s - String.length p)%nat
    with (String.length s) by lia.
  induction p as [|c p IH]; simpl; [apply substring_all|exact IH].
Qed.

Lemma replace_unfold (pattern replacement s : string) :
  replace pattern replacement s
  = if String.prefix pattern s
    then replacement ++ String.substring (String.length pattern)
                          (String.length s - String.length pattern) s
    else match s with
         | EmptyString => EmptyString
         | String c rest => String c (replace pattern replacement rest)
         end.
Proof. destruct s; reflexivity. Qed.

Lemma replace_found (pattern replacement rest : string) :
  replace pattern replacement (pattern ++ rest) = replacement ++ rest.
Proof. now rewrite replace_unfold, prefix_app, substring_after. Qed.

Lemma replace_skip (h : hole) (replacement s t : string) :
  braceFree s = true ->
  replace (placeholder h) replacement (s ++ t)
  = s ++ replace (placeholder h) replacement t.
Proof.
  induction s as [|c s IH]; intros Hs; [reflexivity|].
  simpl in Hs. apply andb_prop in Hs as [Hc Hs].
  apply negb_true_iff in Hc.
  change (String c s ++ t) with (String c (s ++ t)).
  assert (Hp : String.prefix (placeholder h) (String c (s ++ t)) = false).
  { apply Ascii.eqb_neq in Hc.
    destruct h; unfold placeholder; apply prefix_head_mismatch; congruence. }
  rewrite replace_unfold, Hp. simpl. now rewrite IH.
Qed.

Lemma replace_other_hole (h h' : hole) (replacement t : string) :
  holeEq h h' = false ->
  replace (placeholder h) replacement (placeholder h' ++ t)
  = placeholder h' ++ replace (placeholder h) replacement t.
Proof.
  intros Hne.
  assert (Hp : String.prefix (placeholder h) (placeholder h' ++ t) = false)
    by (destruct h, h'; try discriminate Hne; reflexivity).
  rewrite replace_unfold, Hp.
  destruct h'; cbn [placeholder append]; f_equal;
    match goal with
    | |- replace _ _ (String ?c (String ?d t)) = _ =>
        change (String c (String d t)) with (String c (String d EmptyString) ++ t)
    end;
    rewrite replace_skip by reflexivity; reflexivity.
Qed.

Lemma holeEq_true (h h' : hole) : holeEq h h' = true -> h = h'.
Proof. destruct h, h'; simpl; congruence. Qed.

Lemma replace_hole (h : hole) (value : string) (pieces : list piece) :
  textsBraceFree pieces ->
  replace (placeholder h) value (render pieces) = render (fillFirst h value pieces).
Proof.
  induction pieces as [|[s|h'] rest IH]; intros Hok.
  - destruct h; reflexivity.
  - simpl. rewrite replace_skip by (apply Hok; now left).
    rewrite IH; [reflexivity|]. intros s' Hs'. apply Hok. now right.
  - simpl. destruct (holeEq h h') eqn:E.
    + apply holeEq_true in E. subst h'. apply replace_found.
    + rewrite replace_other_hole by assumption. simpl.
      rewrite IH; [reflexivity|]. intros s' Hs'. apply Hok. now right.
Qed.

Lemma fillFirst_braceFree (h : hole) (value : string) (pieces : list piece) :
  braceFree value = true -> textsBraceFree pieces ->
  textsBraceFree (fillFirst h value pieces).
Proof.
  intros Hv. induction pieces as [|[s|h'] rest IH]; intros Hok s' Hs'; simpl in Hs'.
  - contradiction.
  - destruct Hs' as [Heq | Hin].
    + apply Hok. left. exact Heq.
    + apply IH; [|exact Hin]. intros s'' Hs''. apply Hok. now right.
  - destruct (holeEq h h').
    + destruct Hs' as [Heq | Hin].
      * inversion Heq; subst. exact Hv.
      * apply Hok. now right.
    + destruct Hs' as [Heq | Hin]; [discriminate|].
      apply IH; [|exact Hin]. intros s'' Hs''. apply Hok. now right.
Qed.

Lemma string_of_uint_braceFree (d : Decimal.uint) :
  braceFree (NilEmpty.string_of_uint d) = true.
Proof. induction d; simpl; auto. Qed.

Lemma toString_braceFree (v : Z) : braceFree (toString v) = true.
Proof.
  unfold toString, NilZero.string_of_int.
  destruct (Z.to_int v) as [d|d]; unfold NilZero.string_of_uint;
    destruct d; simpl; auto using string_of_uint_braceFree.
Qed.

Lemma subdomain_braceFree (i : Z) : braceFree (subdomain i) = true.
Proof.
  unfold subdomain.
  destruct (i =? 0)%Z; [reflexivity|].
  destruct (i =? 1)%Z; [reflexivity|].
  destruct (i =? 2)%Z; reflexivity.
Qed.

(** X8: for tile numbers that are safe integers, which print with all
    their digits, and a template made of placeholders and of texts
    without an opening brace, the requested URL is the template with the
    first {z}, {x}, {y} and {s} replaced by the decimal tile numbers and
    the subdomain; later occurrences of a placeholder stay. *)
Theorem tileRequestUrl_fills_template
    (env : Env.t) (z x y : Z) (pieces : list piece) :
  safeInteger z -> safeInteger x -> safeInteger y ->
  textsBraceFree pieces ->
  tileRequestUrl env z x y (render pieces)
  = render
      (fillFirst HoleS (subdomain (JsMath.floor (Env.random env z x y * 3)))
        (fillFirst HoleY (toString y)
          (fillFirst HoleX (toString x)
            (fillFirst HoleZ (toString z) pieces)))).
Proof.
  intros _ _ _ Hok. unfold tileRequestUrl.
  change "{z}" with (placeholder HoleZ). change "{x}" with (placeholder HoleX).
  change "{y}" with (placeholder HoleY). change "{s}" with (placeholder HoleS).
  rewrite (replace_hole HoleZ) by assumption.
  rewrite (replace_hole HoleX)
    by (apply fillFirst_braceFree; [apply toString_braceFree|assumption]).
  rewrite (replace_hole HoleY)
    by (repeat apply fillFirst_braceFree; auto using toString_braceFree).
  rewrite (replace_hole HoleS)
    by (repeat apply fillFirst_braceFree; auto using toString_braceFree).
  reflexivity.
Qed.

Lemma tileRequestUrl_fills_template_witness :
  textsBraceFree defaultTemplate
  /\ tileRequestUrl offlineEnv 14 8647 5556 (render defaultTemplate)
     = "https://tiles.maps.eox.at/wmts/1.0.0/s2cloudless_3857/default/GoogleMapsCompatible/14/5556/8647.jpg".
Proof.
  assert (Hok : textsBraceFree defaultTemplate).
  { intros s Hs. simpl in Hs.
    repeat (destruct Hs as [Hs | Hs]; [try discriminate; inversion Hs; reflexivity|]).
    contradiction. }
  split; [exact Hok|].
  rewrite (tileRequestUrl_fills_template offlineEnv 14 8647 5556 defaultTemplate
             eq_refl eq_refl eq_refl Hok).
  reflexivity.
Defined.

(** X9: with [Math.random()] in [0, 1), the subdomain is a, b or c, never
    [undefined]. *)
Theorem subdomain_is_a_letter (env : Env.t) (z x y : Z) :
  (0 <= Env.random env z x y < 1)%R ->
  In (subdomain (JsMath.floor (Env.random env z x y * 3))) ["a"; "b"; "c"].
Proof.
  intros [H0 H1]. unfold JsMath.floor.
  pose proof (Zfloor_bound (Env.random env z x y * 3)) as [Hlo Hhi].
  assert (Hrange : (0 <= Zfloor (Env.random env z x y * 3) < 3)%Z).
  { split; [apply (Zfloor_lub 0); simpl; lra|apply lt_IZR; lra]. }
  unfold subdomain.
  destruct (Z.eqb_spec (Zfloor (Env.random env z x y * 3)) 0); [now left|].
  destruct (Z.eqb_spec (Zfloor (Env.random env z x y * 3)) 1); [right; now left|].
  destruct (Z.eqb_spec (Zfloor (Env.random env z x y * 3)) 2); [right; right; now left|].
  lia.
Qed.

(** ** Fresh identifiers *)

Lemma max_of_ge (others : list Z) :
  forall first : Z,
    (first <= max_of first others)%Z
    /\ forall i, In i others -> (i <= max_of first others)%Z.
Proof.
  unfold max_of. induction others as [|o others IH]; intros first; simpl.
  - split; [lia|contradiction].
  - destruct (IH (Z.max first o)) as [H1 H2]. split; [lia|].
    intros i [-> | Hi]; [lia|auto].
Qed.

Lemma freshId_above (ids : list Z) (i : Z) : In i ids -> (i < freshId ids)%Z.
Proof.
  destruct ids as [|first others]; simpl; [contradiction|].
  destruct (max_of_ge others first) as [H1 H2].
  intros [<- | Hi]; [lia|]. specialize (H2 i Hi). lia.
Qed.

Lemma freshId_not_in (ids : list Z) : ~ In (freshId ids) ids.
Proof. intros H. apply freshId_above in H. lia. Qed.

Lemma freshId_positive (ids : list Z) :
  (forall i, In i ids -> (1 <= i)%Z) -> (1 <= freshId ids)%Z.
Proof.
  destruct ids as [|first others]; simpl; [lia|].
  intros H. destruct (max_of_ge others first) as [H1 _].
  specialize (H first (or_introl eq_refl)). lia.
Qed.

(** ** [trim] *)

Lemma trimStart_clean (s : string) : startsClean (trimStart s).
Proof.
  induction s as [|c s IH]; simpl; [exact I|].
  destruct (isWhiteSpace c) eqn:E; [exact IH|exact E].
Qed.

Lemma trimStart_fixed (s : string) : startsClean s -> trimStart s = s.
Proof. destruct s as [|c s]; simpl; [reflexivity|]. now intros ->. Qed.

Lemma trimEnd_clean (s : string) : startsClean s -> startsClean (trimEnd s).
Proof.
  destruct s as [|c s]; simpl; [trivial|]. intros Hc.
  destruct (trimEnd s); [rewrite Hc|]; exact Hc.
Qed.

Lemma trimEnd_idempotent (s : string) : trimEnd (trimEnd s) = trimEnd s.
Proof.
  induction s as [|c s IH]; simpl; [reflexivity|].
  destruct (trimEnd s) as [|d kept] eqn:E.
  - destruct (isWhiteSpace c) eqn:Hc; simpl; [reflexivity|now rewrite Hc].
  - change (trimEnd (String c (String d kept)))
      with (match trimEnd (String d kept) with
            | EmptyString => if isWhiteSpace c then EmptyString else String c EmptyString
            | k => String c k
            end).
    now rewrite IH.
Qed.

Lemma trim_idempotent (s : string) : trim (trim s) = trim s.
Proof.
  unfold trim.
  rewrite (trimStart_fixed (trimEnd (trimStart s)))
    by (apply trimEnd_clean, trimStart_clean).
  apply trimEnd_idempotent.
Qed.

(** ** Labels *)

Lemma find_name_none (labels : list Label.t) (name : string) :
  find (fun l => String.eqb (Label.name l) name) labels = None ->
  ~ In name (map Label.name labels).
Proof.
  intros Hfind Hin. apply in_map_iff in Hin as [l [Hname Hl]].
  apply (find_none _ _ Hfind) in Hl. simpl in Hl.
  rewrite Hname, String.eqb_refl in Hl. discriminate.
Qed.

Lemma find_app_none {A : Type} (p : A -> bool) (l : list A) (a : A) :
  find p l = None -> p a = true -> find p (l ++ [a]) = Some a.
Proof.
  induction l as [|b l IH]; simpl; intros Hnone Ha.
  - now rewrite Ha.
  - destruct (p b); [discriminate|auto].
Qed.

Lemma falsy_string_nonempty (s : string) : falsy_string (Some s) = false -> s <> "".
Proof. destruct s; simpl; congruence. Qed.

(** X17: posting the same name a second time changes nothing and answers 200
    with the label that the first request created or found. *)
Theorem postLabels_idempotent
    (user : option User.t) (labels : list Label.t) (name : option string) :
  let first := postLabels user labels name in
  let second := postLabels user (snd first) name in
  snd second = snd first
  /\ forall label,
       fst first = LabelStatus201 label \/ fst first = LabelStatus200 label ->
       fst second = LabelStatus200 label.
Proof.
  unfold postLabels. destruct name as [name|]; cbn [fst snd].
  2: { split; [reflexivity|]. intros label [H | H]; discriminate. }
  destruct (falsy_string (Some name) || falsy_string (Some (trim name))) eqn:Hfalsy;
    cbn [fst snd].
  { split; [reflexivity|]. intros label [H | H]; discriminate. }
  destruct (find _ labels) as [existing|] eqn:Hfind; cbn [fst snd].
  - rewrite ?Hfind. cbn [fst snd]. split; [reflexivity|].
    intros label [H | H]; [discriminate|exact H].
  - rewrite (find_app_none _ labels _ Hfind) by (cbn [Label.name]; apply String.eqb_refl).
    cbn [fst snd]. split; [reflexivity|].
    intros label [H | H]; [|discriminate]. now inversion H.
Qed.

(** X18: the label handler keeps the label ids distinct and at least 1, the
    names distinct, and every name trimmed and not empty. *)
Theorem postLabels_keeps_labels_well_formed
    (user : option User.t) (labels : list Label.t) (name : option string) :
  labelsOk labels -> labelsOk (snd (postLabels user labels name)).
Proof.
  intros [Hids [Hnames Heach]]. unfold postLabels.
  destruct name as [name|]; cbn [snd]; [|repeat split; auto; apply Heach; assumption].
  destruct (falsy_string (Some name) || falsy_string (Some (trim name))) eqn:Hfalsy;
    cbn [snd].
  { repeat split; auto; apply Heach; assumption. }
  apply orb_false_elim in Hfalsy as [_ Htrim].
  destruct (find _ labels) as [existing|] eqn:Hfind; cbn [snd].
  { repeat split; auto; apply Heach; assumption. }
  unfold labelsOk. rewrite !map_app. simpl. split; [|split].
  - apply NoDup_app; [assumption|repeat constructor; auto| ].
    intros i Hi [<- | []]. exact (freshId_not_in _ Hi).
  - apply NoDup_app; [assumption|repeat constructor; auto| ].
    intros n Hn [<- | []]. exact (find_name_none _ _ Hfind Hn).
  - intros l Hl. apply in_app_or in Hl as [Hl | [<- | []]]; [now apply Heach|].
    simpl. split; [|split].
    + apply freshId_positive. intros i Hi.
      apply in_map_iff in Hi as [l' [<- Hl']]. now apply Heach.
    + now apply falsy_string_nonempty.
    + apply trim_idempotent.
Qed.

(** ** [findIndex] and [splice] *)

Lemma findIndex_none {A : Type} (p : A -> bool) (l : list A) :
  findIndex p l = None <-> forall a, In a l -> p a = false.
Proof.
  induction l as [|b l [IH1 IH2]]; simpl.
  - split; [intros _ a []|reflexivity].
  - destruct (p b) eqn:Hb.
    + split; [discriminate|]. intros H. specialize (H b (or_introl eq_refl)). congruence.
    + split.
      * intros H a [<- | Ha]; [exact Hb|]. apply IH1; [|exact Ha].
        now destruct (findIndex p l).
      * intros H. rewrite IH2; [reflexivity|]. intros a Ha. apply H. now right.
Qed.

Lemma findIndex_some {A : Type} (p : A -> bool) (l : list A) (index : nat) :
  findIndex p l = Some index ->
  exists a, nth_error l index = Some a /\ p a = true
            /\ forall b, In b (firstn index l) -> p b = false.
Proof.
  revert index. induction l as [|b l IH]; simpl; intros index H; [discriminate|].
  destruct (p b) eqn:Hb.
  - inversion H; subst. exists b. simpl. repeat split; auto. intros c [].
  - destruct (findIndex p l) as [i|]; simpl in H; [|discriminate].
    inversion H; subst. destruct (IH i eq_refl) as [a [Hnth [Ha Hbefore]]].
    exists a. simpl. repeat split; auto.
    intros c [<- | Hc]; auto.
Qed.

Lemma findIndex_app_last {A : Type} (p : A -> bool) (l : list A) (a : A) :
  (forall b, In b l -> p b = false) -> p a = true ->
  findIndex p (l ++ [a]) = Some (List.length l).
Proof.
  induction l as [|b l IH]; simpl; intros Hl Ha.
  - now rewrite Ha.
  - rewrite (Hl b (or_introl eq_refl)). rewrite IH; auto.
Qed.

Lemma splice1_last {A : Type} (l : list A) (a : A) :
  splice1 (List.length l) (l ++ [a]) = l.
Proof.
  unfold splice1. induction l as [|b l IH]; simpl; [reflexivity|].
  f_equal. exact IH.
Qed.

(** With distinct keys, removing the first match removes every match. *)
Lemma splice1_filter {A : Type} (key : A -> Z) (id : Z) (l : list A) (index : nat) :
  NoDup (map key l) ->
  findIndex (fun a => (key a =? id)%Z) l = Some index ->
  splice1 index l = filter (fun a => negb (key a =? id)%Z) l.
Proof.
  revert index. induction l as [|b l IH]; simpl; intros index Hnd H; [discriminate|].
  inversion Hnd as [|? ? Hb Hl]; subst.
  destruct (key b =? id)%Z eqn:E; simpl.
  - inversion H; subst. unfold splice1. simpl.
    apply Z.eqb_eq in E. symmetry. apply forallb_filter_id.
    rewrite forallb_forall. intros a Ha. apply negb_true_iff, Z.eqb_neq.
    intros Heq. apply Hb. rewrite E, <- Heq. now apply in_map.
  - destruct (findIndex _ l) as [i|]; simpl in H; [|discriminate].
    inversion H; subst. unfold splice1. simpl. f_equal. now apply IH.
Qed.

(** ** Deleting *)

Lemma labelIs_spec (id : Z) (b : Box.t) : labelIs id b = true <-> Box.labelId b = Num id.
Proof.
  unfold labelIs. destruct (Box.labelId b) as [| |v]; try (split; discriminate).
  rewrite Z.eqb_eq. split; congruence.
Qed.

Lemma splice1_keeps {A : Type} (l : list A) (index : nat) (gone a : A) :
  nth_error l index = Some gone -> In a l -> a <> gone -> In a (splice1 index l).
Proof.
  unfold splice1. revert index.
  induction l as [|b l IH]; intros index Hnth Hin Hne; [contradiction|].
  destruct index as [|index]; simpl in *.
  - inversion Hnth; subst. destruct Hin as [-> | Hin]; [contradiction|exact Hin].
  - destruct Hin as [-> | Hin]; [now left|right]. now apply IH.
Qed.

(** X19: with distinct label ids, deleting a stored label id removes that
    label and every box that carries it, keeps the others in order, and
    asks to unlink the images of the removed boxes. *)
Theorem deleteLabel_cascades (db : Store.t) (id : Z) :
  NoDup (map Label.id (Store.labels db)) ->
  In id (map Label.id (Store.labels db)) ->
  let '(reply, after, unlinked) := deleteLabel db id in
  reply = DeleteSuccess
  /\ Store.labels after = filter (fun l => negb (Label.id l =? id)%Z) (Store.labels db)
  /\ Store.boxes after = filter (fun b => negb (labelIs id b)) (Store.boxes db)
  /\ ~ In id (map Label.id (Store.labels after))
  /\ (forall b, In b (Store.boxes after) -> Box.labelId b <> Num id)
  /\ unlinked = flat_map imageToUnlink (filter (labelIs id) (Store.boxes db)).
Proof.
  intros Hnd Hin. unfold deleteLabel.
  destruct (findIndex _ (Store.labels db)) as [index|] eqn:Hfind.
  - rewrite (splice1_filter Label.id id _ index Hnd Hfind). cbn [Store.labels Store.boxes].
    repeat split.
    + intros H. apply in_map_iff in H as [l [Hid Hl]].
      apply filter_In in Hl as [_ Hl]. apply negb_true_iff, Z.eqb_neq in Hl. contradiction.
    + intros b Hb. apply filter_In in Hb as [_ Hb]. apply negb_true_iff in Hb.
      intros Heq. apply labelIs_spec in Heq. congruence.
  - exfalso. apply in_map_iff in Hin as [l [Hid Hl]].
    apply (proj1 (findIndex_none _ _) Hfind) in Hl. simpl in Hl.
    apply Z.eqb_neq in Hl. contradiction.
Qed.

(** X20: deleting an id that no label has answers 404, changes nothing and
    unlinks nothing. *)
Theorem deleteLabel_unknown (db : Store.t) (id : Z) :
  ~ In id (map Label.id (Store.labels db)) ->
  exists error, deleteLabel db id = (DeleteStatus404 error, db, []).
Proof.
  intros Hnot. unfold deleteLabel.
  destruct (findIndex _ (Store.labels db)) as [index|] eqn:Hfind; [|eauto].
  exfalso. apply findIndex_some in Hfind as [l [Hnth [Hid _]]].
  apply Hnot. apply Z.eqb_eq in Hid. rewrite <- Hid.
  apply in_map. eapply nth_error_In; eauto.
Qed.

(** X21: if every box carries the id of a stored label, this still holds
    after a label is deleted. *)
Theorem deleteLabel_keeps_boxes_labelled (db : Store.t) (id : Z) :
  boxesLabelled db -> boxesLabelled (snd (fst (deleteLabel db id))).
Proof.
  intros Hok. unfold deleteLabel.
  destruct (findIndex _ (Store.labels db)) as [index|] eqn:Hfind; cbn [fst snd]; [|exact Hok].
  intros b Hb. cbn [Store.boxes Store.labels] in *.
  apply filter_In in Hb as [Hb Hnot]. apply negb_true_iff in Hnot.
  destruct (Hok b Hb) as [l [Hl Hlab]]. exists l. split; [|exact Hlab].
  apply findIndex_some in Hfind as [gone [Hnth [Hgone Hbefore]]].
  assert (Hne : Label.id l <> id).
  { intros Heq. assert (labelIs id b = true) by (apply labelIs_spec; congruence). congruence. }
  apply (splice1_keeps _ index gone); auto.
  intros Heq. subst gone. apply Z.eqb_eq in Hgone. contradiction.
Qed.

(** ** Stored boxes *)

Lemma nextBoxId_fresh (boxes : list Box.t) : nextBoxId boxes = freshId (map Box.id boxes).
Proof. reflexivity. Qed.

(** What a created box is made of. *)
Lemma postBoxes_created
    (env : Env.t) (user : option User.t) (boxes after : list Box.t)
    (req : Request.t) (newBox : Box.t) :
  postBoxes env user boxes req = (Status201 newBox, after) ->
  exists bounds,
    Request.bounds req = Some bounds
    /\ after = (boxes ++ [newBox])%list
    /\ Box.id newBox = nextBoxId boxes
    /\ let zoomLevel := or_default (Request.zoom req) 14 in
       let tileGrid := getTilesForBounds bounds zoomLevel in
       let produced := produceImage env tileGrid defaultTileSize
                         (or_default_url (Request.tileUrl req)) (nextBoxId boxes) in
       Box.tiles newBox = Grid.tiles tileGrid
       /\ Box.tileGrid newBox
          = (Grid.gridWidth tileGrid, Grid.gridHeight tileGrid,
             Grid.minX tileGrid, Grid.minY tileGrid)
       /\ Box.yolo newBox
          = calculateYoloForComposite bounds tileGrid zoomLevel defaultTileSize
       /\ Box.image newBox
          = match produced with
            | Returned info => Some (ImageInfo.path info)
            | Thrown _ => None
            end
       /\ Box.imageSize newBox
          = match produced with
            | Returned info => Some (ImageInfo.width info, ImageInfo.height info)
            | Thrown _ => None
            end.
Proof.
  unfold postBoxes.
  destruct (falsy (Request.labelId req) || falsy_string (Request.labelName req));
    [discriminate|].
  destruct (Request.bounds req) as [bounds|]; [|discriminate].
  intros H. inversion H; subst; clear H. exists bounds.
  cbn [Box.id Box.tiles Box.tileGrid Box.yolo Box.image Box.imageSize].
  rewrite tiles_copy.
  repeat split; destruct (produceImage _ _ _ _ _); reflexivity.
Qed.

(** X10: creating a box keeps the box ids distinct, and a created box has an
    id greater than every id stored before. *)
Theorem postBoxes_keeps_ids_unique
    (env : Env.t) (user : option User.t) (boxes : list Box.t) (req : Request.t) :
  NoDup (map Box.id boxes) ->
  NoDup (map Box.id (snd (postBoxes env user boxes req)))
  /\ forall newBox, fst (postBoxes env user boxes req) = Status201 newBox ->
       forall b, In b boxes -> (Box.id b < Box.id newBox)%Z.
Proof.
  intros Hnd.
  destruct (postBoxes env user boxes req) as [reply after] eqn:Hpost. cbn [fst snd].
  destruct reply as [error|newBox].
  - unfold postBoxes in Hpost.
    destruct (falsy (Request.labelId req) || falsy_string (Request.labelName req)).
    + inversion Hpost; subst. split; [assumption|discriminate].
    + destruct (Request.bounds req); inversion Hpost; subst.
      split; [assumption|discriminate].
  - destruct (postBoxes_created _ _ _ _ _ _ Hpost) as [bounds [_ [-> [Hid _]]]].
    rewrite nextBoxId_fresh in Hid. split.
    + rewrite map_app. simpl. apply NoDup_app; [assumption|repeat constructor; auto|].
      intros i Hi [<- | []]. rewrite Hid in Hi. exact (freshId_not_in _ Hi).
    + intros box Hbox b Hb. inversion Hbox; subst box.
      rewrite Hid. apply freshId_above. now apply in_map.
Qed.

(** X14: deleting the box that was just created restores the boxes as they
    were and asks to unlink the image of that box. *)
Theorem create_then_delete_box
    (env : Env.t) (user : option User.t) (db : Store.t) (req : Request.t)
    (newBox : Box.t) (after : list Box.t) :
  postBoxes env user (Store.boxes db) req = (Status201 newBox, after) ->
  deleteBox (Store.mk (Store.labels db) after) (Box.id newBox)
  = (DeleteSuccess, Store.mk (Store.labels db) (Store.boxes db), imageToUnlink newBox).
Proof.
  intros Hpost.
  destruct (postBoxes_created _ _ _ _ _ _ Hpost) as [bounds [_ [-> [Hid _]]]].
  rewrite nextBoxId_fresh in Hid.
  unfold deleteBox. cbn [Store.boxes Store.labels].
  rewrite (findIndex_app_last _ (Store.boxes db) newBox).
  - rewrite splice1_last, nth_error_app2, Nat.sub_diag by lia. reflexivity.
  - intros b Hb. apply Z.eqb_neq. intros Heq.
    apply (freshId_not_in (map Box.id (Store.boxes db))).
    rewrite <- Hid, <- Heq. now apply in_map.
  - apply Z.eqb_refl.
Qed.

(** X15: with distinct box ids, deleting a stored id succeeds, removes that box
    and no other, leaves the labels alone and unlinks the image of the
    removed box. *)
Theorem deleteBox_removes_that_box (db : Store.t) (id : Z) :
  NoDup (map Box.id (Store.boxes db)) ->
  In id (map Box.id (Store.boxes db)) ->
  let '(reply, after, unlinked) := deleteBox db id in
  reply = DeleteSuccess
  /\ Store.labels after = Store.labels db
  /\ Store.boxes after = filter (fun b => negb (Box.id b =? id)%Z) (Store.boxes db)
  /\ ~ In id (map Box.id (Store.boxes after))
  /\ S (List.length (Store.boxes after)) = List.length (Store.boxes db)
  /\ exists box, In box (Store.boxes db) /\ Box.id box = id
                 /\ unlinked = imageToUnlink box.
Proof.
  intros Hnd Hin. unfold deleteBox.
  destruct (findIndex _ (Store.boxes db)) as [index|] eqn:Hfind.
  - pose proof (splice1_filter Box.id id _ index Hnd Hfind) as Hfilter.
    destruct (findIndex_some _ _ _ Hfind) as [box [Hnth [Hid _]]].
    rewrite Hnth. cbn [Store.labels Store.boxes]. rewrite <- Hfilter.
    split; [reflexivity|]. split; [reflexivity|]. split; [reflexivity|]. split; [|split].
    + rewrite Hfilter. intros H. apply in_map_iff in H as [b [Hb Hbin]].
      apply filter_In in Hbin as [_ Hbin].
      apply negb_true_iff, Z.eqb_neq in Hbin. contradiction.
    + unfold splice1. rewrite length_app, length_firstn, length_skipn.
      assert (index < List.length (Store.boxes db))%nat
        by (apply nth_error_Some; congruence).
      lia.
    + exists box. apply Z.eqb_eq in Hid. repeat split; auto.
      eapply nth_error_In; eauto.
  - exfalso. apply in_map_iff in Hin as [b [Hid Hb]].
    apply (proj1 (findIndex_none _ _) Hfind) in Hb. simpl in Hb.
    apply Z.eqb_neq in Hb. contradiction.
Qed.

(** X16: deleting an id that no box has answers 404, changes nothing and
    unlinks nothing. *)
Theorem deleteBox_unknown (db : Store.t) (id : Z) :
  ~ In id (map Box.id (Store.boxes db)) ->
  exists error, deleteBox db id = (DeleteStatus404 error, db, []).
Proof.
  intros Hnot. unfold deleteBox.
  destruct (findIndex _ (Store.boxes db)) as [index|] eqn:Hfind; [|eauto].
  exfalso. apply findIndex_some in Hfind as [b [Hnth [Hid _]]].
  apply Hnot. apply Z.eqb_eq in Hid. rewrite <- Hid.
  apply in_map. eapply nth_error_In; eauto.
Qed.

Local Open Scope R_scope.

Lemma produceImage_returned (env : Env.t) (tileGrid : Grid.t) (tileSize : Z)
    (useTileUrl : string) (boxId : Z) (info : ImageInfo.t) :
  produceImage env tileGrid tileSize useTileUrl boxId = Returned info ->
  let imageName :=
    ("box_" ++ toString boxId ++ "_" ++ toString (Env.dateNow env) ++ ".jpg")%string in
  exists composite,
    createCompositeImage env tileGrid tileSize useTileUrl = Returned composite
    /\ Env.writeFile env (Env.TILES_DIR env ++ "/" ++ imageName)%string
         (Composite.buffer composite) = Returned tt
    /\ info = ImageInfo.mk ("/saved_tiles/" ++ imageName)%string
                (Grid.gridWidth tileGrid * tileSize) (Grid.gridHeight tileGrid * tileSize).
Proof.
  intros H imageName. unfold produceImage in H.
  destruct (createCompositeImage env tileGrid tileSize useTileUrl)
    as [composite|e] eqn:Hcomposite; simpl in H; [|discriminate].
  fold imageName in H.
  destruct (Env.writeFile env _ (Composite.buffer composite)) as [[]|e] eqn:Hwrite;
    simpl in H; [|discriminate].
  exists composite. split; [reflexivity|]. split; [exact Hwrite|].
  inversion H; subst; clear H.
  unfold createCompositeImage in Hcomposite.
  destruct (promise_all _ _) as [tbs|e]; simpl in Hcomposite; [|discriminate].
  destruct (Env.sharp env _) as [encoded|e]; simpl in Hcomposite; [|discriminate].
  inversion Hcomposite; subst. reflexivity.
Qed.

(** A box of [postBoxes] is consistent: its grid is at least 1 x 1, it
    lists width * height tiles, its image and image size are both
    present or both absent, the image size is 256 times the grid size,
    and its normalized box lies inside the image. *)
Lemma postBoxes_stored_box_consistent
    (env : Env.t) (user : option User.t) (boxes after : list Box.t)
    (req : Request.t) (newBox : Box.t) :
  postBoxes env user boxes req = (Status201 newBox, after) ->
  let '(width, height, _, _) := Box.tileGrid newBox in
  (1 <= width)%Z /\ (1 <= height)%Z
  /\ Z.of_nat (List.length (Box.tiles newBox)) = (width * height)%Z
  /\ (Box.image newBox = None <-> Box.imageSize newBox = None)
  /\ (forall w h, Box.imageSize newBox = Some (w, h) ->
        w = (width * 256)%Z /\ h = (height * 256)%Z)
  /\ 0 <= Yolo.x_center (Box.yolo newBox) - Yolo.width (Box.yolo newBox) / 2
  /\ Yolo.x_center (Box.yolo newBox) + Yolo.width (Box.yolo newBox) / 2 <= 1
  /\ 0 <= Yolo.y_center (Box.yolo newBox) - Yolo.height (Box.yolo newBox) / 2
  /\ Yolo.y_center (Box.yolo newBox) + Yolo.height (Box.yolo newBox) / 2 <= 1.
Proof.
  intros Hpost.
  destruct (postBoxes_created _ _ _ _ _ _ Hpost)
    as [bounds [_ [_ [_ [Htiles [Hgrid [Hyolo [Himage Hsize]]]]]]]].
  rewrite Hgrid.
  set (zoomLevel := or_default (Request.zoom req) 14) in *.
  set (g := getTilesForBounds bounds zoomLevel) in *.
  assert (HW : (1 <= Grid.gridWidth g)%Z) by (unfold g, getTilesForBounds; simpl; lia).
  assert (HH : (1 <= Grid.gridHeight g)%Z) by (unfold g, getTilesForBounds; simpl; lia).
  split; [exact HW|]. split; [exact HH|]. split; [|split; [|split]].
  - rewrite Htiles. unfold g. rewrite getTilesForBounds_tiles, rectangle_length.
    + reflexivity.
    + unfold getTilesForBounds; simpl; lia.
    + unfold getTilesForBounds; simpl; lia.
  - rewrite Himage, Hsize. destruct (produceImage _ _ _ _ _); split; congruence.
  - intros w h Hwh. rewrite Hsize in Hwh.
    destruct (produceImage _ _ _ _ _) as [info|e] eqn:Hproduce; [|discriminate].
    apply produceImage_returned in Hproduce as [composite [_ [_ ->]]].
    simpl in Hwh. inversion Hwh. unfold defaultTileSize. split; reflexivity.
  - rewrite Hyolo. unfold g.
    destruct (corners_in_composite bounds zoomLevel defaultTileSize)
      as [Hx1 [Hx2 [Hy1 Hy2]]]; [reflexivity|].
    destruct (span_fractions _ _ _ Hx1 Hx2) as [Hxc [Hxw [Hxl Hxr]]].
    destruct (span_fractions _ _ _ Hy1 Hy2) as [Hyc [Hyh [Hyl Hyr]]].
    rewrite calculateYoloForComposite_fields.
    cbn [Yolo.x_center Yolo.y_center Yolo.width Yolo.height].
    rewrite !clamp01_id by assumption. repeat split; assumption.
Qed.

(** X12: when a created box records an image, its path is
    /saved_tiles/box_<id>_<Date.now()>.jpg and the file of that name was
    written to the tiles directory. *)
Theorem postBoxes_image_is_written
    (env : Env.t) (user : option User.t) (boxes after : list Box.t)
    (req : Request.t) (newBox : Box.t) (image : string) :
  postBoxes env user boxes req = (Status201 newBox, after) ->
  Box.image newBox = Some image ->
  let imageName :=
    ("box_" ++ toString (Box.id newBox) ++ "_" ++ toString (Env.dateNow env) ++ ".jpg")%string in
  image = ("/saved_tiles/" ++ imageName)%string
  /\ exists buffer,
       Env.writeFile env (Env.TILES_DIR env ++ "/" ++ imageName)%string buffer = Returned tt.
Proof.
  intros Hpost Himg.
  destruct (postBoxes_created _ _ _ _ _ _ Hpost)
    as [bounds [_ [_ [Hid [_ [_ [_ [Himage _]]]]]]]].
  rewrite Himage in Himg. rewrite Hid.
  destruct (produceImage _ _ _ _ _) as [info|e] eqn:Hproduce; [|discriminate].
  apply produceImage_returned in Hproduce as [composite [_ [Hwrite ->]]].
  simpl in Himg. inversion Himg. split; [reflexivity|].
  exists (Composite.buffer composite). exact Hwrite.
Qed.

Local Close Scope R_scope.

(** ** The class table of the export *)











(** ** [toFixed] *)

Lemma lastDigits_length (count : nat) : forall n, String.length (lastDigits count n) = count.
Proof.
  induction count as [|count IH]; intros n; simpl; [reflexivity|].
  rewrite length_app_string, IH. simpl. lia.
Qed.

Lemma toFixed_unit_interval (v : R) :
  (0 <= v <= 1)%R ->
  let n := JsMath.floor (v * 10 ^ 6 + / 2)%R in
  (0 <= n <= 1000000)%Z
  /\ (Rabs (IZR n / 10 ^ 6 - v) <= 5 / 10 ^ 7)%R
  /\ toFixed 6 v = (if (n =? 1000000)%Z then "1" else "0") ++ "." ++ lastDigits 6 n
  /\ String.length (toFixed 6 v) = 8%nat.
Proof.
  intros [H0 H1] n.
  assert (Hn : (0 <= n <= 1000000)%Z).
  { unfold n, JsMath.floor.
    pose proof (Zfloor_bound (v * 10 ^ 6 + / 2)) as [Hlo Hhi].
    split.
    - apply (Zfloor_lub 0). simpl. lra.
    - apply Z.lt_succ_r. apply lt_IZR. simpl in *. lra. }
  assert (Hnear : (Rabs (IZR n / 10 ^ 6 - v) <= 5 / 10 ^ 7)%R).
  { unfold n, JsMath.floor.
    pose proof (Zfloor_bound (v * 10 ^ 6 + / 2)) as [Hlo Hhi].
    apply Rabs_le. simpl in *. lra. }
  assert (Hfixed : toFixed 6 v
                   = (if (n =? 1000000)%Z then "1" else "0") ++ "." ++ lastDigits 6 n).
  { unfold toFixed. destruct (Rlt_dec v 0) as [Hneg|_]; [lra|].
    rewrite Rabs_pos_eq by assumption. fold n.
    change (10 ^ Z.of_nat 6)%Z with 1000000%Z.
    destruct (Z.eqb_spec n 1000000) as [-> | Hne]; [reflexivity|].
    rewrite Z.div_small by lia. reflexivity. }
  repeat split; try assumption; try lia.
  rewrite Hfixed.
  destruct (n =? 1000000)%Z; cbn [append String.length];
    rewrite lastDigits_length; reflexivity.
Qed.

(** ** Administrators *)

Lemma adminCount_cons (u : Account.t) (users : list Account.t) :
  adminCount (u :: users) = ((if isAdmin u then 1 else 0) + adminCount users)%nat.
Proof. unfold adminCount. simpl. now destruct (isAdmin u). Qed.

Lemma existsb_adminCount (users : list Account.t) :
  existsb isAdmin users = true <-> (1 <= adminCount users)%nat.
Proof.
  induction users as [|u users IH]; [simpl; split; [discriminate|unfold adminCount; simpl; lia]|].
  rewrite adminCount_cons. simpl. destruct (isAdmin u); simpl; [split; [lia|reflexivity]|].
  exact IH.
Qed.

Lemma setRole_count (userId : Z) (role : string) (users : list Account.t) :
  match find (fun u => (Account.id u =? userId)%Z) users with
  | None => setRole userId role users = users
  | Some user =>
      (adminCount (setRole userId role users) + (if isAdmin user then 1 else 0)
       = adminCount users + (if String.eqb role "admin" then 1 else 0))%nat
  end.
Proof.
  induction users as [|u users IH]; simpl; [reflexivity|].
  destruct (Account.id u =? userId)%Z.
  - rewrite !adminCount_cons. unfold isAdmin at 1. simpl.
    destruct (String.eqb role "admin"), (isAdmin u); lia.
  - destruct (find _ users) as [user|].
    + rewrite !adminCount_cons. lia.
    + now rewrite IH.
Qed.

Lemma splice1_count (users : list Account.t) :
  forall (index : nat) (user : Account.t),
    nth_error users index = Some user ->
    (adminCount (splice1 index users) + (if isAdmin user then 1 else 0)
     = adminCount users)%nat.
Proof.
  unfold splice1.
  induction users as [|u users IH]; intros index user Hnth; [now destruct index|].
  destruct index as [|index]; simpl in *.
  - inversion Hnth; subst. rewrite adminCount_cons. lia.
  - change (u :: firstn index users ++ skipn (S index) users)%list
      with (u :: (firstn index users ++ skipn (S index) users))%list.
    rewrite !adminCount_cons. rewrite <- (IH index user Hnth). lia.
Qed.

(** X25: neither changing a role nor deleting an account removes the last
    administrator. *)
Theorem last_admin_stays
    (session : Session.t) (users : list Account.t) (userId : Z) (role : string) :
  existsb isAdmin users = true ->
  existsb isAdmin (snd (putRole session users userId role)) = true
  /\ existsb isAdmin (snd (deleteUser session users userId)) = true.
Proof.
  intros Hadmin. pose proof (proj1 (existsb_adminCount users) Hadmin) as Hcount.
  split.
  - unfold putRole.
    destruct (negb (String.eqb (Session.role session) "admin")); [exact Hadmin|].
    destruct (negb (String.eqb role "admin" || String.eqb role "user")) eqn:Hvalid;
      [exact Hadmin|].
    pose proof (setRole_count userId role users) as Hset.
    destruct (find _ users) as [user|]; [|exact Hadmin].
    destruct (isAdmin user && String.eqb role "user" && (adminCount users <=? 1)%nat)
      eqn:Hguard; cbn [snd]; [exact Hadmin|].
    apply existsb_adminCount.
    destruct (isAdmin user) eqn:Huser; [|lia].
    destruct (String.eqb role "admin") eqn:Hrole; [lia|].
    destruct (String.eqb role "user") eqn:Hrole'.
    + simpl in Hguard. apply Nat.leb_gt in Hguard. lia.
    + discriminate Hvalid.
  - unfold deleteUser.
    destruct (negb (String.eqb (Session.role session) "admin")); [exact Hadmin|].
    destruct (Session.id session =? userId)%Z; [exact Hadmin|].
    destruct (findIndex _ users) as [index|]; [|exact Hadmin].
    destruct (nth_error users index) as [user|] eqn:Hnth; [|exact Hadmin].
    pose proof (splice1_count users index user Hnth) as Hsplice.
    destruct (isAdmin user && (adminCount users <=? 1)%nat) eqn:Hguard;
      cbn [snd]; [exact Hadmin|].
    apply existsb_adminCount.
    destruct (isAdmin user); [|lia].
    simpl in Hguard. apply Nat.leb_gt in Hguard. lia.
Qed.

(** X26: deleting an account never removes an account of the caller. *)
Theorem deleteUser_spares_the_caller
    (session : Session.t) (users : list Account.t) (userId : Z) (own : Account.t) :
  In own users -> Account.id own = Session.id session ->
  In own (snd (deleteUser session users userId)).
Proof.
  intros Hin Hown. unfold deleteUser.
  destruct (negb (String.eqb (Session.role session) "admin")); [exact Hin|].
  destruct (Z.eqb_spec (Session.id session) userId) as [Heq | Hne]; [exact Hin|].
  destruct (findIndex _ users) as [index|] eqn:Hfind; [|exact Hin].
  destruct (findIndex_some _ _ _ Hfind) as [user [Hnth [Hid _]]].
  rewrite Hnth.
  destruct (isAdmin user && (adminCount users <=? 1)%nat); cbn [snd]; [exact Hin|].
  apply (splice1_keeps users index user own Hnth Hin).
  intros ->. apply Z.eqb_eq in Hid. congruence.
Qed.

(** ** Setup and registration *)

Lemma existsb_app_admin (users : list Account.t) (u : Account.t) :
  existsb isAdmin (users ++ [u]) = existsb isAdmin users || isAdmin u.
Proof. rewrite existsb_app. simpl. now rewrite orb_false_r. Qed.

(** X27: setup succeeds only while no administrator exists; it creates one,
    and every later setup is refused and changes nothing. *)
Theorem setup_runs_once
    (env : AuthEnv.t) (users : list Account.t) (email password : option string)
    (message : string) (user : Session.t) (token : string) :
  fst (setup env users email password) = AuthStatus201 message user token ->
  needsSetup users = true
  /\ Session.role user = "admin"
  /\ needsSetup (snd (setup env users email password)) = false
  /\ forall env' email' password',
       setup env' (snd (setup env users email password)) email' password'
       = (AuthStatus400 "Setup already completed", snd (setup env users email password)).
Proof.
  intros H.
  assert (Hshape : needsSetup users = true
            /\ exists newUser,
                 isAdmin newUser = true /\ user = sessionOf newUser
                 /\ snd (setup env users email password) = (users ++ [newUser])%list).
  { unfold setup in *.
    destruct (needsSetup users); cbn [negb fst snd] in *; [|discriminate H].
    destruct email as [email|], password as [password|]; try discriminate H.
    destruct (falsy_string (Some email) || falsy_string (Some password));
      [discriminate H|].
    destruct (String.length password <? 6)%nat; [discriminate H|].
    cbn [fst snd] in *. inversion H. split; [reflexivity|].
    eexists. split; [|split; reflexivity]. reflexivity. }
  destruct Hshape as [Hneeds [newUser [Hadmin [-> Hafter]]]].
  assert (Hdone : needsSetup (snd (setup env users email password)) = false).
  { rewrite Hafter. unfold needsSetup.
    now rewrite existsb_app_admin, Hadmin, orb_true_r. }
  split; [exact Hneeds|]. split; [|split; [exact Hdone|]].
  - unfold isAdmin in Hadmin. now apply String.eqb_eq in Hadmin.
  - intros env' email' password'. unfold setup at 1. now rewrite Hdone.
Qed.

Lemma find_email_none (users : list Account.t) (email : string) :
  find (fun u => String.eqb (Account.email u) email) users = None ->
  ~ In email (map Account.email users).
Proof.
  intros Hfind Hin. apply in_map_iff in Hin as [u [Hemail Hu]].
  apply (find_none _ _ Hfind) in Hu. simpl in Hu.
  rewrite Hemail, String.eqb_refl in Hu. discriminate.
Qed.

(** X28: registration keeps account ids and e-mail addresses distinct and
    never changes the number of administrators. *)
Theorem register_keeps_accounts_distinct
    (env : AuthEnv.t) (users : list Account.t) (email password : option string) :
  accountsDistinct users ->
  accountsDistinct (snd (register env users email password))
  /\ adminCount (snd (register env users email password)) = adminCount users.
Proof.
  intros [Hids Hemails]. unfold register.
  destruct email as [email|], password as [password|]; cbn [snd];
    try (split; [split; assumption|reflexivity]).
  destruct (falsy_string (Some email) || falsy_string (Some password));
    cbn [snd]; [split; [split; assumption|reflexivity]|].
  destruct (String.length password <? 6)%nat;
    cbn [snd]; [split; [split; assumption|reflexivity]|].
  destruct (find _ users) as [taken|] eqn:Hfind;
    cbn [snd]; [split; [split; assumption|reflexivity]|].
  split; [split|].
  - rewrite map_app. simpl. apply NoDup_app; [assumption|repeat constructor; auto|].
    intros i Hi [<- | []]. exact (freshId_not_in _ Hi).
  - rewrite map_app. simpl. apply NoDup_app; [assumption|repeat constructor; auto|].
    intros e He [<- | []]. exact (find_email_none _ _ Hfind He).
  - unfold adminCount. rewrite filter_app, length_app. simpl. lia.
Qed.

(** X29: after a successful registration, logging in with the same password
    and an address that normalizes to the registered one succeeds as the
    registered user, provided the password library accepts the password
    against its own hash. *)
Theorem register_then_login
    (env env' : AuthEnv.t) (users : list Account.t) (email password email' : string)
    (message : string) (user : Session.t) (token : string) :
  fst (register env users (Some email) (Some password)) = AuthStatus201 message user token ->
  AuthEnv.compare env' password (AuthEnv.hash env password) = true ->
  email' <> "" -> normalizeEmail email' = normalizeEmail email ->
  login env' (snd (register env users (Some email) (Some password)))
        (Some email') (Some password)
  = AuthStatus200 "Login successful" user (AuthEnv.sign env' user).
Proof.
  unfold register. intros H Hcompare Hnonempty Hsame.
  destruct (falsy_string (Some email) || falsy_string (Some password)) eqn:Hfalsy;
    [discriminate|].
  destruct (String.length password <? 6)%nat; [discriminate|].
  destruct (find _ users) as [taken|] eqn:Hfind; [discriminate|].
  cbn [fst snd] in *. inversion H; subst; clear H.
  apply orb_false_elim in Hfalsy as [_ Hpassword].
  unfold login.
  assert (Hemail : falsy_string (Some email') = false) by (destruct email'; [congruence|reflexivity]).
  rewrite Hemail, Hpassword, Hsame. cbn [orb].
  rewrite (find_app_none _ users _ Hfind) by (cbn [Account.email]; apply String.eqb_refl).
  cbn [Account.password]. rewrite Hcompare. reflexivity.
Qed.

(** ** The exported line *)

Lemma toFixed6_length (v : R) : (0 <= v <= 1)%R -> String.length (toFixed 6 v) = 8%nat.
Proof. intros Hv. now destruct (toFixed_unit_interval v Hv) as [_ [_ [_ H]]]. Qed.

Lemma exportImage_fields (labels : list Label.t) (box : Box.t) (image : ExportImage.t) :
  exportImage labels box = Some image ->
  let a := ExportImage.annotation image in
  let yolo := Box.yolo box in
  Annotation.x_center a = toFixed 6 (Yolo.x_center yolo)
  /\ Annotation.y_center a = toFixed 6 (Yolo.y_center yolo)
  /\ Annotation.width a = toFixed 6 (Yolo.width yolo)
  /\ Annotation.height a = toFixed 6 (Yolo.height yolo)
  /\ ExportImage.yoloLine image
     = toString (Z.of_nat (Annotation.classId a)) ++ " " ++ Annotation.x_center a
       ++ " " ++ Annotation.y_center a ++ " " ++ Annotation.width a
       ++ " " ++ Annotation.height a.
Proof.
  unfold exportImage.
  destruct (match Box.labelId box with Num id => labelToClass labels id | _ => None end)
    as [classId|]; [|discriminate].
  destruct (Box.tileGrid box) as [[[w h] mx] my].
  intros H. injection H as <-. repeat split.
Qed.

(** X24: for a box whose normalized fields lie in the unit interval, each of
    the four exported numbers has eight characters and the YOLO line is
    the class id followed by the four numbers, separated by one space. *)
Theorem exported_line_shape (labels : list Label.t) (box : Box.t) (image : ExportImage.t) :
  exportImage labels box = Some image ->
  unitAnnotation (Box.yolo box) ->
  let a := ExportImage.annotation image in
  String.length (Annotation.x_center a) = 8%nat
  /\ String.length (Annotation.y_center a) = 8%nat
  /\ String.length (Annotation.width a) = 8%nat
  /\ String.length (Annotation.height a) = 8%nat
  /\ ExportImage.yoloLine image
     = toString (Z.of_nat (Annotation.classId a)) ++ " " ++ Annotation.x_center a
       ++ " " ++ Annotation.y_center a ++ " " ++ Annotation.width a
       ++ " " ++ Annotation.height a
  /\ String.length (ExportImage.yoloLine image)
     = (String.length (toString (Z.of_nat (Annotation.classId a))) + 36)%nat.
Proof.
  intros Hexport [Hx [Hy [Hw Hh]]] a.
  destruct (exportImage_fields _ _ _ Hexport) as [Ex [Ey [Ew [Eh Eline]]]].
  fold a in Ex, Ey, Ew, Eh, Eline.
  assert (Lx : String.length (Annotation.x_center a) = 8%nat)
    by (rewrite Ex; now apply toFixed6_length).
  assert (Ly : String.length (Annotation.y_center a) = 8%nat)
    by (rewrite Ey; now apply toFixed6_length).
  assert (Lw : String.length (Annotation.width a) = 8%nat)
    by (rewrite Ew; now apply toFixed6_length).
  assert (Lh : String.length (Annotation.height a) = 8%nat)
    by (rewrite Eh; now apply toFixed6_length).
  split; [exact Lx|]. split; [exact Ly|]. split; [exact Lw|]. split; [exact Lh|].
  split; [exact Eline|].
  rewrite Eline, !length_app_string, Lx, Ly, Lw, Lh. cbn [String.length]. lia.
Qed.

(** ** The compositor on the resolved grid *)

Lemma overlay_offsets
    (bounds : Bounds.t) (zoom tileSize : Z) (tileBuffers : list TileBuffer.t) :
  let g := getTilesForBounds bounds zoom in
  map TileBuffer.tile tileBuffers = Grid.tiles g ->
  map overlayOffset
      (map (compositeInput (Grid.minX g) (Grid.minY g) tileSize) tileBuffers)
  = canvasCells (Grid.gridWidth g) (Grid.gridHeight g) tileSize.
Proof.
  intros g Htiles.
  rewrite map_map.
  transitivity
    (map (fun t => ((Tile.x t - Grid.minX g) * tileSize,
                    (Tile.y t - Grid.minY g) * tileSize)%Z)
         (map TileBuffer.tile tileBuffers)).
  - rewrite map_map. reflexivity.
  - pose proof (getTilesForBounds_tiles bounds zoom) as Hrect. fold g in Hrect.
    rewrite Htiles, Hrect. apply rectangle_offsets.
Qed.

(** X7: whatever the network does, when the image library accepts its jobs
    the compositor returns an image of the grid's size, encoded from a
    canvas of that size whose overlays sit on the cells of the canvas,
    one per cell, column after column. *)
Theorem composite_covers_canvas
    (env : Env.t) (bounds : Bounds.t) (zoom tileSize : Z) (tileUrl : string) :
  (forall job, exists encoded, Env.sharp env job = Returned encoded) ->
  let g := getTilesForBounds bounds zoom in
  exists image job,
    createCompositeImage env g tileSize tileUrl = Returned image
    /\ Env.sharp env job = Returned (Composite.buffer image)
    /\ Sharp.width job = Composite.width image
    /\ Sharp.height job = Composite.height image
    /\ Composite.width image = (Grid.gridWidth g * tileSize)%Z
    /\ Composite.height image = (Grid.gridHeight g * tileSize)%Z
    /\ map overlayOffset (Sharp.composite job)
       = canvasCells (Grid.gridWidth g) (Grid.gridHeight g) tileSize.
Proof.
  intros Hsharp g. unfold createCompositeImage.
  destruct (Hsharp placeholderJob) as [placeholder Hph].
  destruct (promise_all_fetchTile env placeholder tileUrl Hph (Grid.tiles g))
    as [tbs [-> Htiles]]. cbn [bind].
  match goal with |- context [Env.sharp env ?j] =>
    set (job := j); destruct (Hsharp job) as [encoded Hjob] end.
  rewrite Hjob. cbn [bind].
  eexists. exists job. split; [reflexivity|]. cbn [Composite.buffer Composite.width Composite.height].
  split; [exact Hjob|]. repeat split.
  unfold job. cbn [Sharp.composite]. now apply overlay_offsets.
Qed.


(** ** Setup next to registration *)

Lemma NoDup_app_last_in {A : Type} (ids : list A) (i : A) :
  In i ids -> ~ NoDup (ids ++ [i]).
Proof.
  intros Hin Hnodup. induction ids as [|j ids IH]; [destruct Hin|].
  simpl in Hnodup. inversion Hnodup as [|? ? Hnot Hrest]; subst.
  destruct Hin as [-> | Hin].
  - apply Hnot. apply in_or_app. right. now left.
  - now apply IH.
Qed.

(** X30: setup gives the administrator the id 1 and the normalized address,
    whatever is stored: when an account with id 1 exists already (one
    that registered before setup), the ids are not distinct afterwards,
    and likewise for the address. *)
Theorem setup_takes_id_one
    (env : AuthEnv.t) (users : list Account.t) (email password : string)
    (message : string) (user : Session.t) (token : string) :
  fst (setup env users (Some email) (Some password)) = AuthStatus201 message user token ->
  let after := snd (setup env users (Some email) (Some password)) in
  Session.id user = 1%Z
  /\ Session.email user = normalizeEmail email
  /\ (In 1%Z (map Account.id users) -> ~ NoDup (map Account.id after))
  /\ (In (normalizeEmail email) (map Account.email users)
      -> ~ NoDup (map Account.email after)).
Proof.
  intros H after. unfold after. clear after. unfold setup in *.
  destruct (needsSetup users); cbn [negb fst snd] in *; [|discriminate H].
  destruct (falsy_string (Some email) || falsy_string (Some password));
    [discriminate H|].
  destruct (String.length password <? 6)%nat; [discriminate H|].
  cbn [fst snd] in *. inversion H; subst. cbn [sessionOf Session.id Session.email Account.id Account.email].
  split; [reflexivity|]. split; [reflexivity|].
  split; intros Hin; rewrite map_app; cbn [map Account.id Account.email];
    now apply NoDup_app_last_in.
Qed.

Local Open Scope R_scope.

(** ** The example at the origin *)

Lemma mercator_0 : mercator 0 = 0.
Proof.
  unfold mercator, JsMath.asinh, arcsinh.
  replace (0 * PI / 180) with 0 by field.
  rewrite tan_0. replace (0 ^ 2 + 1) with 1 by ring.
  rewrite sqrt_1, Rplus_0_l, ln_1. field. apply PI_neq0.
Qed.

Lemma origin_tile : latLngToTile 0 0 14 = Tile.mk 8192 8192 14.
Proof.
  unfold latLngToTile. fold (mercator 0). rewrite mercator_0, pow2_14.
  f_equal; apply Zfloor_eq; lra.
Qed.

Lemma origin_grid : getTilesForBounds originBounds 14 = originGrid.
Proof.
  unfold getTilesForBounds, originBounds.
  cbn [Bounds.south Bounds.west Bounds.north Bounds.east].
  rewrite origin_tile. reflexivity.
Qed.

Lemma example_post :
  postBoxes offlineEnv None [] (exampleRequest (Num 14))
  = (Status201 exampleCreated, [exampleCreated]).
Proof.
  unfold postBoxes, exampleRequest.
  cbn [Request.labelId Request.labelName Request.bounds Request.zoom Request.tileUrl
       falsy falsy_string orb Z.eqb or_default or_default_url].
  rewrite origin_grid. reflexivity.
Qed.

(** ** The theorems at the example data *)

Lemma getTilesForBounds_monotone_witness :
  incl (Grid.tiles (getTilesForBounds originBounds 14))
       (Grid.tiles (getTilesForBounds (Bounds.mk (-1) (-1) 1 1) 14)).
Proof.
  apply (getTilesForBounds_monotone originBounds (Bounds.mk (-1) (-1) 1 1) 14);
    simpl; lra.
Defined.

Lemma resolved_annotation_unclamped_witness :
  Yolo.width (calculateYoloForComposite exampleBounds (getTilesForBounds exampleBounds 14) 14 256)
  = Rabs (Projection.x2 exampleBounds (getTilesForBounds exampleBounds 14) 14 256
          - Projection.x1 exampleBounds (getTilesForBounds exampleBounds 14) 14 256)
    / Projection.imageWidth (getTilesForBounds exampleBounds 14) 256.
Proof.
  destruct (resolved_annotation_unclamped exampleBounds 14 256 eq_refl)
    as [_ [_ [Hwidth _]]].
  exact Hwidth.
Defined.

Lemma resolved_annotation_inside_image_witness :
  0 <= Yolo.x_center (calculateYoloForComposite exampleBounds
                        (getTilesForBounds exampleBounds 14) 14 256)
       - Yolo.width (calculateYoloForComposite exampleBounds
                       (getTilesForBounds exampleBounds 14) 14 256) / 2.
Proof.
  destruct (resolved_annotation_inside_image exampleBounds 14 256 eq_refl) as [Hleft _].
  exact Hleft.
Defined.

Lemma composite_covers_canvas_witness :
  exists image job,
    createCompositeImage offlineEnv (getTilesForBounds originBounds 14) 256 DEFAULT_TILE_URL
    = Returned image
    /\ map overlayOffset (Sharp.composite job)
       = canvasCells (Grid.gridWidth (getTilesForBounds originBounds 14))
                     (Grid.gridHeight (getTilesForBounds originBounds 14)) 256.
Proof.
  destruct (composite_covers_canvas offlineEnv originBounds 14 256 DEFAULT_TILE_URL
              (fun job => ex_intro _ [] eq_refl))
    as [image [job [Himage [_ [_ [_ [_ [_ Hcells]]]]]]]].
  exists image, job. split; assumption.
Defined.

Lemma subdomain_is_a_letter_witness :
  In (subdomain (JsMath.floor (Env.random offlineEnv 14 8647 5556 * 3)))
     ["a"; "b"; "c"]%string.
Proof.
  apply (subdomain_is_a_letter offlineEnv 14 8647 5556). simpl. lra.
Defined.

Local Close Scope R_scope.

Lemma postBoxes_keeps_ids_unique_witness :
  NoDup (map Box.id (snd (postBoxes offlineEnv None [] (exampleRequest (Num 14))))).
Proof.
  destruct (postBoxes_keeps_ids_unique offlineEnv None [] (exampleRequest (Num 14))
              (NoDup_nil Z)) as [Hunique _].
  exact Hunique.
Defined.

Lemma postBoxes_image_is_written_witness :
  exists buffer,
    Env.writeFile offlineEnv
      (Env.TILES_DIR offlineEnv ++ "/" ++ "box_" ++ toString (Box.id exampleCreated)
         ++ "_" ++ toString (Env.dateNow offlineEnv) ++ ".jpg") buffer
    = Returned tt.
Proof.
  destruct (postBoxes_image_is_written offlineEnv None [] [exampleCreated]
              (exampleRequest (Num 14)) exampleCreated "/saved_tiles/box_1_0.jpg"
              example_post eq_refl) as [_ Hwritten].
  exact Hwritten.
Defined.

Lemma create_then_delete_box_witness :
  deleteBox (Store.mk [] [exampleCreated]) (Box.id exampleCreated)
  = (DeleteSuccess, Store.mk [] [], imageToUnlink exampleCreated).
Proof.
  apply (create_then_delete_box offlineEnv None (Store.mk [] []) (exampleRequest (Num 14))
           exampleCreated [exampleCreated] example_post).
Defined.

Lemma exampleStore_boxes_distinct : NoDup (map Box.id (Store.boxes exampleStore)).
Proof. repeat constructor. intros []. Qed.

Lemma exampleStore_labels_distinct : NoDup (map Label.id (Store.labels exampleStore)).
Proof. repeat constructor. intros []. Qed.

Lemma deleteBox_removes_that_box_witness :
  fst (fst (deleteBox exampleStore 1)) = DeleteSuccess.
Proof.
  pose proof (deleteBox_removes_that_box exampleStore 1 exampleStore_boxes_distinct
                (or_introl eq_refl)) as H.
  destruct (deleteBox exampleStore 1) as [[reply after] unlinked].
  destruct H as [Hreply _]. exact Hreply.
Defined.

Lemma deleteBox_unknown_witness :
  exists error, deleteBox exampleStore 2 = (DeleteStatus404 error, exampleStore, []).
Proof.
  apply (deleteBox_unknown exampleStore 2). simpl. intros [H | []]. discriminate.
Defined.

Lemma postLabels_idempotent_witness :
  fst (postLabels None (snd (postLabels None [] (Some "  car "))) (Some "  car "))
  = LabelStatus200 (Label.mk 1 "car" None).
Proof.
  apply (postLabels_idempotent None [] (Some "  car ")). left. reflexivity.
Defined.

Lemma postLabels_keeps_labels_well_formed_witness :
  labelsOk (snd (postLabels None [] (Some "  car "))).
Proof.
  apply (postLabels_keeps_labels_well_formed None [] (Some "  car ")).
  split; [constructor|split; [constructor|intros l []]].
Defined.

Lemma deleteLabel_cascades_witness :
  fst (fst (deleteLabel exampleStore 1)) = DeleteSuccess.
Proof.
  pose proof (deleteLabel_cascades exampleStore 1 exampleStore_labels_distinct
                (or_introl eq_refl)) as H.
  destruct (deleteLabel exampleStore 1) as [[reply after] unlinked].
  destruct H as [Hreply _]. exact Hreply.
Defined.

Lemma deleteLabel_unknown_witness :
  exists error, deleteLabel exampleStore 2 = (DeleteStatus404 error, exampleStore, []).
Proof.
  apply (deleteLabel_unknown exampleStore 2). simpl. intros [H | []]. discriminate.
Defined.

Lemma twoLabelStore_labelled : boxesLabelled twoLabelStore.
Proof.
  intros b [<- | [<- | []]].
  - exists exampleLabel. split; [now left|reflexivity].
  - exists secondLabel. split; [right; now left|reflexivity].
Qed.

Lemma deleteLabel_keeps_boxes_labelled_witness :
  deleteLabel twoLabelStore 1
  = (DeleteSuccess, Store.mk [secondLabel] [secondStoredBox], ["/saved_tiles/box_1_0.jpg"])
  /\ boxesLabelled (snd (fst (deleteLabel twoLabelStore 1))).
Proof.
  split; [reflexivity|].
  apply (deleteLabel_keeps_boxes_labelled twoLabelStore 1 twoLabelStore_labelled).
Defined.


Lemma exported_line_shape_witness :
  exists image,
    exportImage [exampleLabel] exampleStoredBox = Some image
    /\ String.length (ExportImage.yoloLine image) = 37%nat.
Proof.
  assert (Hsome : exists image, exportImage [exampleLabel] exampleStoredBox = Some image).
  { eexists. reflexivity. }
  destruct Hsome as [image Hsome]. exists image. split; [exact Hsome|].
  assert (Hunit : unitAnnotation (Box.yolo exampleStoredBox)).
  { unfold unitAnnotation. simpl. repeat split; lra. }
  destruct (exported_line_shape [exampleLabel] exampleStoredBox image Hsome Hunit)
    as [_ [_ [_ [_ [_ Hlength]]]]].
  rewrite Hlength.
  unfold exportImage in Hsome. simpl in Hsome. injection Hsome as <-. reflexivity.
Defined.

Lemma last_admin_stays_witness :
  existsb isAdmin (snd (putRole exampleSession [exampleAdmin] 1 "user")) = true.
Proof.
  destruct (last_admin_stays exampleSession [exampleAdmin] 1 "user" eq_refl) as [Hput _].
  exact Hput.
Defined.

Lemma deleteUser_spares_the_caller_witness :
  In exampleAdmin (snd (deleteUser exampleSession [exampleAdmin] 1)).
Proof.
  apply (deleteUser_spares_the_caller exampleSession [exampleAdmin] 1 exampleAdmin).
  - now left.
  - reflexivity.
Defined.

Lemma setup_runs_once_witness :
  needsSetup (snd (setup exampleAuthEnv [] (Some " Admin@Example.org") (Some "secret1")))
  = false.
Proof.
  destruct (setup_runs_once exampleAuthEnv [] (Some " Admin@Example.org") (Some "secret1")
              _ _ _ eq_refl) as [_ [_ [Hdone _]]].
  exact Hdone.
Defined.

Lemma register_keeps_accounts_distinct_witness :
  accountsDistinct
    (snd (register exampleAuthEnv [exampleAdmin] (Some "Bob@Example.org") (Some "secret1"))).
Proof.
  destruct (register_keeps_accounts_distinct exampleAuthEnv [exampleAdmin]
              (Some "Bob@Example.org") (Some "secret1")) as [Hdistinct _].
  - split; repeat constructor; intros [].
  - exact Hdistinct.
Defined.

Lemma register_then_login_witness :
  login exampleAuthEnv
    (snd (register exampleAuthEnv [exampleAdmin] (Some "Bob@Example.org") (Some "secret1")))
    (Some " bob@example.org ") (Some "secret1")
  = AuthStatus200 "Login successful" (Session.mk 2 "bob@example.org" "user")
      (AuthEnv.sign exampleAuthEnv (Session.mk 2 "bob@example.org" "user")).
Proof.
  apply (register_then_login exampleAuthEnv exampleAuthEnv [exampleAdmin]
           "Bob@Example.org" "secret1" " bob@example.org " "Account created"
           (Session.mk 2 "bob@example.org" "user") "token:bob@example.org").
  - reflexivity.
  - reflexivity.
  - discriminate.
  - reflexivity.
Defined.

Lemma setup_takes_id_one_witness :
  ~ NoDup (map Account.id
             (snd (setup exampleAuthEnv [exampleEarlyUser]
                     (Some " Admin@Example.org") (Some "secret1")))).
Proof.
  destruct (setup_takes_id_one exampleAuthEnv [exampleEarlyUser]
              " Admin@Example.org" "secret1" _ _ _ eq_refl) as [_ [_ [Hids _]]].
  apply Hids. left. reflexivity.
Defined.

(** * Properties of the engine as it runs *)

Local Open Scope Z_scope.

(** ** Counters *)

Lemma toDouble_exact (n : Z) : - 2 ^ 53 <= n <= 2 ^ 53 -> toDouble n = n.
Proof.
  intros H.
  destruct (Z.eq_dec n (2 ^ 53)) as [-> | Hupper]; [reflexivity|].
  destruct (Z.eq_dec n (- 2 ^ 53)) as [-> | Hlower]; [reflexivity|].
  unfold toDouble.
  destruct (Z.ltb_spec (Z.abs n) (2 ^ 53)) as [_ | Hbig]; [reflexivity|lia].
Qed.

Lemma increment_exact (x : Z) : safeIndex x -> increment x = x + 1.
Proof.
  unfold safeIndex, increment. intros H. apply toDouble_exact.
  change (2 ^ 52) with 4503599627370496 in H.
  change (2 ^ 53) with 9007199254740992. lia.
Qed.


(** A loop whose counter is safe all the way does what [for_le] says,
    given fuel for one test more than it has iterations. *)
Lemma for_fuel_exact {S : Type} (body : Z -> S -> option S) (f : Z -> S -> S) (hi : Z) :
  (forall i s, body i s = Some (f i s)) ->
  hi < 2 ^ 52 ->
  forall (count : nat) (lo : Z) (fuel : nat) (s : S),
    - 2 ^ 52 <= lo ->
    count = Z.to_nat (hi - lo + 1) ->
    (count < fuel)%nat ->
    for_fuel fuel lo hi body s = Some (for_steps count lo f s).
Proof.
  intros Hbody Hhi count.
  induction count as [|count IH]; intros lo fuel s Hlo Hcount Hfuel.
  - destruct fuel as [|fuel]; [lia|]. simpl.
    destruct (Z.leb_spec lo hi) as [Hle | Hgt]; [lia|reflexivity].
  - destruct fuel as [|fuel]; [lia|]. simpl.
    destruct (Z.leb_spec lo hi) as [Hle | Hgt]; [|lia].
    rewrite Hbody, increment_exact by (unfold safeIndex; lia).
    apply IH; lia.
Qed.

Lemma for_fuel_for_le {S : Type} (body : Z -> S -> option S) (f : Z -> S -> S)
    (lo hi : Z) (fuel : nat) (s : S) :
  (forall i s, body i s = Some (f i s)) ->
  - 2 ^ 52 <= lo -> hi < 2 ^ 52 ->
  (Z.to_nat (hi - lo + 1) < fuel)%nat ->
  for_fuel fuel lo hi body s = Some (for_le lo hi f s).
Proof.
  intros Hbody Hlo Hhi Hfuel. unfold for_le.
  now apply for_fuel_exact.
Qed.


(** On safe corner tiles the loops end and build the grid of
    [getTilesForBounds]. *)
Lemma runGetTilesForBounds_returns (bounds : Bounds.t) (zoom : Z) (fuel : nat) :
  safeTile (latLngToTile (Bounds.south bounds) (Bounds.west bounds) zoom) ->
  safeTile (latLngToTile (Bounds.north bounds) (Bounds.east bounds) zoom) ->
  (testsNeeded (getTilesForBounds bounds zoom) <= fuel)%nat ->
  runGetTilesForBounds fuel bounds zoom = Some (getTilesForBounds bounds zoom).
Proof.
  unfold safeTile, safeIndex, testsNeeded, runGetTilesForBounds, getTilesForBounds.
  cbn [Grid.gridWidth Grid.gridHeight].
  set (sw := latLngToTile (Bounds.south bounds) (Bounds.west bounds) zoom).
  set (ne := latLngToTile (Bounds.north bounds) (Bounds.east bounds) zoom).
  intros [Hswx Hswy] [Hnex Hney] Hfuel.
  change (2 ^ 52) with 4503599627370496 in *.
  rewrite (for_fuel_for_le _
             (fun x tiles => for_le (Z.min (Tile.y sw) (Tile.y ne))
                               (Z.max (Tile.y sw) (Tile.y ne))
                               (fun y tiles => (tiles ++ [Tile.mk x y zoom])%list) tiles)).
  - assert (Hexact : forall lo hi, -4503599627370496 <= lo -> lo <= hi ->
                        hi < 4503599627370496 ->
                        toDouble (toDouble (hi - lo) + 1) = hi - lo + 1).
    { clear. intros lo hi H1 H2 H3.
      rewrite (toDouble_exact (hi - lo))
        by (change (2 ^ 53) with 9007199254740992; lia).
      apply toDouble_exact. change (2 ^ 53) with 9007199254740992. lia. }
    rewrite !Hexact by lia. reflexivity.
  - intros x tiles. apply for_fuel_for_le; try reflexivity;
      change (2 ^ 52) with 4503599627370496; lia.
  - change (2 ^ 52) with 4503599627370496; lia.
  - change (2 ^ 52) with 4503599627370496; lia.
  - lia.
Qed.

Local Close Scope Z_scope.

Local Open Scope R_scope.

(** ** The resolver on double counters *)

(** Inside the pyramid, up to zoom 52, tile indices are safe. *)
Lemma latLngToTile_safe (lat lng : R) (zoom : Z) :
  (0 <= zoom <= 52)%Z -> -85 <= lat <= 85 -> -180 <= lng < 180 ->
  safeTile (latLngToTile lat lng zoom).
Proof.
  intros Hz Hlat Hlng.
  pose proof (pow2_pos zoom) as Hn.
  pose proof (mercator_safe lat Hlat) as Hm.
  assert (Hpow : (2 ^ zoom <= 2 ^ 52)%Z) by (apply Z.pow_le_mono_r; lia).
  assert (Hx : (0 <= Tile.x (latLngToTile lat lng zoom) < 2 ^ zoom)%Z).
  { rewrite tile_x_lng. apply floor_in_range.
    rewrite <- pow2_IZR by lia. split; nra. }
  assert (Hy : (0 <= Tile.y (latLngToTile lat lng zoom) < 2 ^ zoom)%Z).
  { rewrite tile_y_mercator. apply floor_in_range.
    rewrite <- pow2_IZR by lia. split; nra. }
  unfold safeTile, safeIndex. change (2 ^ 52)%Z with 4503599627370496%Z in *. lia.
Qed.




Lemma validInput_safe (bounds : Bounds.t) (zoom : Z) :
  validInput bounds zoom ->
  safeTile (latLngToTile (Bounds.south bounds) (Bounds.west bounds) zoom)
  /\ safeTile (latLngToTile (Bounds.north bounds) (Bounds.east bounds) zoom).
Proof.
  intros [Hzoom [Hsouth [Hnorth [Hwest Heast]]]].
  split; now apply latLngToTile_safe.
Qed.


Lemma exampleBounds_valid : validInput exampleBounds 14.
Proof.
  unfold validInput, exampleBounds.
  cbn [Bounds.south Bounds.west Bounds.north Bounds.east].
  split; [lia|]. repeat split; lra.
Qed.


(** ** The projector with its quotients as numbers *)

Lemma clamp_divide (a : R) (b : Z) (negativeZero : bool) :
  match JsNumber.max0 (JsNumber.min1 (JsNumber.divide a b negativeZero)) with
  | JsNumber.Finite v => 0 <= v <= 1 /\ (b <> 0%Z -> v = clamp01 (a / IZR b))
  | JsNumber.Infinity _ => False
  | JsNumber.NaN => b = 0%Z /\ a = 0
  end.
Proof.
  unfold JsNumber.divide.
  destruct (Z.eqb_spec b 0) as [Hb | Hb].
  - destruct (Req_dec_T a 0) as [Ha | Ha]; [now split|].
    destruct (Rlt_dec a 0), negativeZero; simpl;
      (split; [try (rewrite Rmax_right by lra); lra|contradiction]).
  - simpl. split; [apply clamp01_bounds|reflexivity].
Qed.

(** With a composite that has a width and a height, the numbers are the
    fields of [calculateYoloForComposite]. *)
Lemma calculateYoloForCompositeNumbers_finite
    (bounds : Bounds.t) (tileGrid : Grid.t) (zoom tileSize : Z) :
  (Grid.gridWidth tileGrid * tileSize <> 0)%Z ->
  (Grid.gridHeight tileGrid * tileSize <> 0)%Z ->
  let yolo := calculateYoloForComposite bounds tileGrid zoom tileSize in
  calculateYoloForCompositeNumbers bounds tileGrid zoom tileSize
  = (JsNumber.Finite (Yolo.x_center yolo), JsNumber.Finite (Yolo.y_center yolo),
     JsNumber.Finite (Yolo.width yolo), JsNumber.Finite (Yolo.height yolo)).
Proof.
  intros Hw Hh. unfold calculateYoloForCompositeNumbers, calculateYoloForComposite.
  cbv zeta. cbn [Yolo.x_center Yolo.y_center Yolo.width Yolo.height].
  unfold JsNumber.divide.
  destruct (Z.eqb_spec (Grid.gridWidth tileGrid * tileSize) 0) as [H0 | _]; [contradiction|].
  destruct (Z.eqb_spec (Grid.gridHeight tileGrid * tileSize) 0) as [H0 | _]; [contradiction|].
  reflexivity.
Qed.

(** C6, as stated: with tile size 0 the composite has no width, the
    centre of the box is 0 / 0, and the clamp hands NaN on. *)
Lemma calculateYoloForComposite_tileSize_0_is_NaN :
  let x_center :=
    fst (fst (fst (calculateYoloForCompositeNumbers exampleBounds singleTileGrid 14 0))) in
  x_center = JsNumber.NaN /\ ~ JsNumber.inUnitInterval x_center.
Proof.
  assert (H : fst (fst (fst (calculateYoloForCompositeNumbers
                               exampleBounds singleTileGrid 14 0))) = JsNumber.NaN).
  { unfold calculateYoloForCompositeNumbers, latLngToGlobalPixel, singleTileGrid.
    cbn [Grid.minX Grid.minY Grid.gridWidth Grid.gridHeight Pixel.globalX Pixel.globalY fst].
    unfold JsNumber.divide. cbn [Z.mul Z.eqb].
    destruct (Req_dec_T _ 0) as [_ | Hne]; [reflexivity|].
    exfalso. apply Hne. simpl. lra. }
  cbv zeta. rewrite H. split; [reflexivity|exact (fun F => F)].
Qed.

(** C6, amended: for bounds, tile grid and tile size of magnitudes up to 2^100
    and a zoom level up to 800, where no product overflows, each of the
    four normalized fields is a number of the closed unit interval, or
    it is NaN, which it can be only when the composite has no width
    (for [x_center] and [width]) or no height (for [y_center] and
    [height]). *)
Theorem calculateYoloForCompositeNumbers_unit_interval
    (bounds : Bounds.t) (tileGrid : Grid.t) (zoom tileSize : Z) :
  moderateInput bounds tileGrid zoom tileSize ->
  let noWidth := (Grid.gridWidth tileGrid * tileSize = 0)%Z in
  let noHeight := (Grid.gridHeight tileGrid * tileSize = 0)%Z in
  let '(x_center, y_center, width, height) :=
    calculateYoloForCompositeNumbers bounds tileGrid zoom tileSize in
  (JsNumber.inUnitInterval x_center \/ (x_center = JsNumber.NaN /\ noWidth))
  /\ (JsNumber.inUnitInterval y_center \/ (y_center = JsNumber.NaN /\ noHeight))
  /\ (JsNumber.inUnitInterval width \/ (width = JsNumber.NaN /\ noWidth))
  /\ (JsNumber.inUnitInterval height \/ (height = JsNumber.NaN /\ noHeight)).
Proof.
  intros _. unfold calculateYoloForCompositeNumbers. cbv zeta.
  assert (Hfield : forall a b nz,
            let v := JsNumber.max0 (JsNumber.min1 (JsNumber.divide a b nz)) in
            JsNumber.inUnitInterval v \/ (v = JsNumber.NaN /\ b = 0%Z)).
  { intros a b nz v. pose proof (clamp_divide a b nz) as H. fold v in H.
    destruct v; [left; apply H|contradiction|right; split; [reflexivity|apply H]]. }
  repeat apply conj; apply Hfield.
Qed.

Lemma calculateYoloForCompositeNumbers_unit_interval_witness :
  JsNumber.inUnitInterval
    (fst (fst (fst (calculateYoloForCompositeNumbers exampleBounds exampleGrid 14 256)))).
Proof.
  assert (Hmoderate : moderateInput exampleBounds exampleGrid 14 256).
  { unfold moderateInput, exampleBounds, exampleGrid.
    cbn [Bounds.south Bounds.west Bounds.north Bounds.east
         Grid.minX Grid.minY Grid.gridWidth Grid.gridHeight].
    change magnitudeLimit with 1267650600228229401496703205376%Z.
    split; [lia|]. split; [|split; [lia|lia]].
    rewrite !Rabs_pos_eq by lra. repeat split; lra. }
  pose proof (calculateYoloForCompositeNumbers_unit_interval
                exampleBounds exampleGrid 14 256 Hmoderate) as H.
  destruct (calculateYoloForCompositeNumbers exampleBounds exampleGrid 14 256)
    as [[[x_center y_center] width] height].
  cbn [fst]. destruct H as [[Hunit | [_ Hzero]] _]; [exact Hunit|discriminate Hzero].
Defined.

Local Close Scope R_scope.

(** ** The handler on double counters *)

Lemma for_fuel_mono {S : Type} (body body' : Z -> S -> option S) (hi : Z) :
  (forall i s r, body i s = Some r -> body' i s = Some r) ->
  forall (fuel fuel' : nat) (i : Z) (s r : S),
    (fuel <= fuel')%nat ->
    for_fuel fuel i hi body s = Some r -> for_fuel fuel' i hi body' s = Some r.
Proof.
  intros Hbody.
  induction fuel as [|fuel IH]; intros fuel' i s r Hle H; [discriminate H|].
  destruct fuel' as [|fuel']; [lia|]. simpl in *.
  destruct (i <=? hi)%Z; [|exact H].
  destruct (body i s) as [s'|] eqn:Hs; [|discriminate H].
  rewrite (Hbody _ _ _ Hs). apply (IH fuel'); [lia|exact H].
Qed.

(** More fuel does not change what the resolver returns. *)
Lemma runGetTilesForBounds_mono (bounds : Bounds.t) (zoom : Z) (fuel fuel' : nat) (g : Grid.t) :
  (fuel <= fuel')%nat ->
  runGetTilesForBounds fuel bounds zoom = Some g ->
  runGetTilesForBounds fuel' bounds zoom = Some g.
Proof.
  intros Hle. unfold runGetTilesForBounds.
  match goal with |- context [for_fuel fuel ?lo ?hi ?body ?s] =>
    destruct (for_fuel fuel lo hi body s) as [tiles|] eqn:Hrun end; [|discriminate].
  intros H.
  erewrite for_fuel_mono; [exact H| |exact Hle|exact Hrun].
  intros x tiles0 r Hinner. cbv beta in *.
  eapply for_fuel_mono; [|exact Hle|exact Hinner]. auto.
Qed.

(** On safe corner tiles, a grid that the resolver returns is the grid
    of [getTilesForBounds]. *)
Lemma runGetTilesForBounds_sound (bounds : Bounds.t) (zoom : Z) (fuel : nat) (g : Grid.t) :
  safeTile (latLngToTile (Bounds.south bounds) (Bounds.west bounds) zoom) ->
  safeTile (latLngToTile (Bounds.north bounds) (Bounds.east bounds) zoom) ->
  runGetTilesForBounds fuel bounds zoom = Some g ->
  g = getTilesForBounds bounds zoom.
Proof.
  intros Hsw Hne Hrun.
  set (needed := testsNeeded (getTilesForBounds bounds zoom)).
  pose proof (runGetTilesForBounds_mono bounds zoom fuel (Nat.max fuel needed) g
                (Nat.le_max_l _ _) Hrun) as Hmore.
  rewrite (runGetTilesForBounds_returns bounds zoom _ Hsw Hne (Nat.le_max_r _ _)) in Hmore.
  now injection Hmore.
Qed.

Lemma postBoxes_createBox (env : Env.t) (user : option User.t) (boxes : list Box.t)
    (body : Body.t) (bounds : Bounds.t) :
  falsy (Body.labelId body) || falsy_string (Body.labelName body) = false ->
  postBoxes env user boxes (requestOf body bounds)
  = createBox env user boxes body bounds (or_default (Body.zoom body) 14)
      (getTilesForBounds bounds (or_default (Body.zoom body) 14)).
Proof.
  intros Hgiven. unfold postBoxes, requestOf, createBox.
  cbn [Request.labelId Request.labelName Request.bounds Request.zoom Request.tileUrl].
  rewrite Hgiven. reflexivity.
Qed.

(** An answer of the handler on safe corner tiles is the answer of
    [postBoxes]. *)
Lemma runPostBoxes_answer (fuel : nat) (env : Env.t) (user : option User.t)
    (boxes : list Box.t) (body : Body.t) (bounds : Bounds.t)
    (answer : reply * list Box.t) :
  Body.bounds body = BoundsNumbers bounds ->
  let zoomLevel := or_default (Body.zoom body) 14 in
  safeTile (latLngToTile (Bounds.south bounds) (Bounds.west bounds) zoomLevel) ->
  safeTile (latLngToTile (Bounds.north bounds) (Bounds.east bounds) zoomLevel) ->
  runPostBoxes fuel env user boxes body = Answered answer ->
  postBoxes env user boxes (requestOf body bounds) = answer.
Proof.
  intros Hbounds zoomLevel Hsw Hne. unfold runPostBoxes. rewrite Hbounds.
  destruct (falsy (Body.labelId body) || falsy_string (Body.labelName body)) eqn:Hgiven.
  - intros H. injection H as <-. unfold postBoxes, requestOf.
    cbn [Request.labelId Request.labelName]. now rewrite Hgiven.
  - fold zoomLevel.
    destruct (runGetTilesForBounds fuel bounds zoomLevel) as [g|] eqn:Hrun; [|discriminate].
    intros H. injection H as <-.
    rewrite (runGetTilesForBounds_sound _ _ _ _ Hsw Hne Hrun).
    now rewrite postBoxes_createBox.
Qed.

(** With fuel for the resolver's loops, the handler answers as
    [postBoxes] does. *)
Lemma runPostBoxes_answers (fuel : nat) (env : Env.t) (user : option User.t)
    (boxes : list Box.t) (body : Body.t) (bounds : Bounds.t) :
  Body.bounds body = BoundsNumbers bounds ->
  let zoomLevel := or_default (Body.zoom body) 14 in
  safeTile (latLngToTile (Bounds.south bounds) (Bounds.west bounds) zoomLevel) ->
  safeTile (latLngToTile (Bounds.north bounds) (Bounds.east bounds) zoomLevel) ->
  (testsNeeded (getTilesForBounds bounds zoomLevel) <= fuel)%nat ->
  runPostBoxes fuel env user boxes body
  = Answered (postBoxes env user boxes (requestOf body bounds)).
Proof.
  intros Hbounds zoomLevel Hsw Hne Hfuel. unfold runPostBoxes. rewrite Hbounds.
  destruct (falsy (Body.labelId body) || falsy_string (Body.labelName body)) eqn:Hgiven.
  - unfold postBoxes, requestOf. cbn [Request.labelId Request.labelName].
    now rewrite Hgiven.
  - fold zoomLevel. rewrite (runGetTilesForBounds_returns _ _ _ Hsw Hne Hfuel).
    now rewrite postBoxes_createBox.
Qed.

Lemma exampleBounds_safe :
  safeTile (latLngToTile (Bounds.south exampleBounds) (Bounds.west exampleBounds) 14)
  /\ safeTile (latLngToTile (Bounds.north exampleBounds) (Bounds.east exampleBounds) 14).
Proof.
  unfold exampleBounds. cbn [Bounds.south Bounds.west Bounds.north Bounds.east].
  rewrite example_sw_tile, example_ne_tile.
  unfold safeTile, safeIndex. simpl. lia.
Qed.

Lemma example_run :
  runPostBoxes 3 offlineEnv None [] exampleBody = Answered (Status201 exampleBox, [exampleBox]).
Proof.
  destruct exampleBounds_safe as [Hsw Hne].
  rewrite (runPostBoxes_answers 3 offlineEnv None [] exampleBody exampleBounds eq_refl Hsw Hne).
  - unfold postBoxes, requestOf, exampleBody.
    cbn [Request.labelId Request.labelName Request.bounds Request.zoom Request.tileUrl
         Body.labelId Body.labelName Body.bounds Body.zoom Body.tileUrl
         falsy falsy_string orb Z.eqb or_default or_default_url].
    rewrite example_grid. reflexivity.
  - cbn [Body.zoom exampleBody or_default Z.eqb]. rewrite example_grid.
    unfold testsNeeded. simpl. lia.
Qed.

Local Open Scope R_scope.

(** ** Boxes inside one tile, as the resolver runs *)

Lemma pow2_11 : JsMath.pow2 11 = 2048.
Proof. unfold JsMath.pow2. simpl. lra. Qed.

Lemma example_sw_tile_11 : latLngToTile 50 10 11 = Tile.mk 1080 694 11.
Proof.
  pose proof mercator_50 as [Hlo Hhi].
  unfold latLngToTile. fold (mercator 50). rewrite pow2_11.
  f_equal; apply Zfloor_eq; lra.
Qed.

Lemma example_ne_tile_11 :
  latLngToTile (5001 / 100) (1001 / 100) 11 = Tile.mk 1080 694 11.
Proof.
  pose proof mercator_50_01 as [Hlo Hhi].
  unfold latLngToTile. fold (mercator (5001 / 100)). rewrite pow2_11.
  f_equal; apply Zfloor_eq; lra.
Qed.

(** X3: for latitudes within 85 degrees, longitudes from -180 below 180
    and a zoom level from 0 to 52: when both corners of a box fall into
    the same tile, the resolver returns after two tests of each loop
    condition, with that single tile as a 1 x 1 grid; on it, with a
    positive tile size, the normalized width and height are the pixel
    extents of the box divided by the tile size. *)
Theorem runGetTilesForBounds_one_tile (bounds : Bounds.t) (zoom tileSize : Z) :
  validInput bounds zoom ->
  latLngToTile (Bounds.south bounds) (Bounds.west bounds) zoom
  = latLngToTile (Bounds.north bounds) (Bounds.east bounds) zoom ->
  (0 < tileSize)%Z ->
  let t := latLngToTile (Bounds.south bounds) (Bounds.west bounds) zoom in
  let sw := latLngToGlobalPixel (Bounds.south bounds) (Bounds.west bounds) zoom tileSize in
  let ne := latLngToGlobalPixel (Bounds.north bounds) (Bounds.east bounds) zoom tileSize in
  let grid := Grid.mk [t] 1 1 (Tile.x t) (Tile.y t) (Tile.x t) (Tile.y t) in
  let yolo := calculateYoloForComposite bounds grid zoom tileSize in
  (forall fuel, (2 <= fuel)%nat -> runGetTilesForBounds fuel bounds zoom = Some grid)
  /\ Yolo.width yolo = Rabs (Pixel.globalX ne - Pixel.globalX sw) / IZR tileSize
  /\ Yolo.height yolo = Rabs (Pixel.globalY sw - Pixel.globalY ne) / IZR tileSize.
Proof.
  intros Hvalid Hsame Hts t sw ne grid yolo.
  destruct (validInput_safe bounds zoom Hvalid) as [Hsafe _].
  destruct (box_within_one_tile bounds zoom tileSize Hsame Hts) as [Hgrid [Hwidth Hheight]].
  fold t in Hgrid. fold grid in Hgrid. rewrite Hgrid in Hwidth, Hheight.
  split; [|split; assumption].
  intros fuel Hfuel. rewrite <- Hgrid.
  apply runGetTilesForBounds_returns; [exact Hsafe|now rewrite <- Hsame|].
  rewrite Hgrid. unfold testsNeeded, grid. simpl. lia.
Qed.

Lemma exampleBounds_valid_11 : validInput exampleBounds 11.
Proof.
  unfold validInput, exampleBounds.
  cbn [Bounds.south Bounds.west Bounds.north Bounds.east].
  split; [lia|]. repeat split; lra.
Qed.

Lemma runGetTilesForBounds_one_tile_witness :
  runGetTilesForBounds 2 exampleBounds 11
  = Some (Grid.mk [Tile.mk 1080 694 11] 1 1 1080 694 1080 694).
Proof.
  assert (Hsw : latLngToTile (Bounds.south exampleBounds) (Bounds.west exampleBounds) 11
                = Tile.mk 1080 694 11) by apply example_sw_tile_11.
  assert (Hne : latLngToTile (Bounds.north exampleBounds) (Bounds.east exampleBounds) 11
                = Tile.mk 1080 694 11) by apply example_ne_tile_11.
  destruct (runGetTilesForBounds_one_tile exampleBounds 11 256 exampleBounds_valid_11)
    as [Hrun _].
  - now rewrite Hsw, Hne.
  - lia.
  - rewrite Hsw in Hrun. apply Hrun. lia.
Defined.

(** ** Stored boxes, as the handler runs *)

(** X11: a box that the handler creates from a body whose bounds are
    numbers, with latitudes within 85 degrees and longitudes from -180
    below 180, at a zoom level from 0 to 52, is consistent: its grid is
    at least 1 x 1, it lists width * height tiles, its image and image
    size are both present or both absent, the image size is 256 times
    the grid size, and its normalized box lies inside the image. *)
Theorem runPostBoxes_stored_box_consistent
    (fuel : nat) (env : Env.t) (user : option User.t) (boxes after : list Box.t)
    (body : Body.t) (bounds : Bounds.t) (newBox : Box.t) :
  Body.bounds body = BoundsNumbers bounds ->
  validInput bounds (or_default (Body.zoom body) 14) ->
  runPostBoxes fuel env user boxes body = Answered (Status201 newBox, after) ->
  let '(width, height, _, _) := Box.tileGrid newBox in
  (1 <= width)%Z /\ (1 <= height)%Z
  /\ Z.of_nat (List.length (Box.tiles newBox)) = (width * height)%Z
  /\ (Box.image newBox = None <-> Box.imageSize newBox = None)
  /\ (forall w h, Box.imageSize newBox = Some (w, h) ->
        w = (width * 256)%Z /\ h = (height * 256)%Z)
  /\ 0 <= Yolo.x_center (Box.yolo newBox) - Yolo.width (Box.yolo newBox) / 2
  /\ Yolo.x_center (Box.yolo newBox) + Yolo.width (Box.yolo newBox) / 2 <= 1
  /\ 0 <= Yolo.y_center (Box.yolo newBox) - Yolo.height (Box.yolo newBox) / 2
  /\ Yolo.y_center (Box.yolo newBox) + Yolo.height (Box.yolo newBox) / 2 <= 1.
Proof.
  intros Hbounds Hvalid Hrun.
  destruct (validInput_safe _ _ Hvalid) as [Hsw Hne].
  apply (postBoxes_stored_box_consistent env user boxes after (requestOf body bounds)).
  exact (runPostBoxes_answer fuel env user boxes body bounds _ Hbounds Hsw Hne Hrun).
Qed.

Lemma runPostBoxes_stored_box_consistent_witness :
  Z.of_nat (List.length (Box.tiles exampleBox)) = (1 * 2)%Z
  /\ (forall w h, Box.imageSize exampleBox = Some (w, h) ->
        w = (1 * 256)%Z /\ h = (2 * 256)%Z).
Proof.
  pose proof (runPostBoxes_stored_box_consistent 3 offlineEnv None [] [exampleBox]
                exampleBody exampleBounds exampleBox eq_refl exampleBounds_valid
                example_run) as H.
  simpl in H. destruct H as [_ [_ [Hcount [_ [Hsize _]]]]]. split; assumption.
Defined.



